(** * SGNMT forced decoding and output handlers

    A shallow embedding of [cam/sgnmt/decoding/reference.py] and
    [cam/sgnmt/output.py].  Python objects that are mutated in place are
    threaded through a state-and-exception monad; Python exceptions are
    values of [exn]; loops that need not terminate carry fuel. *)

From Stdlib Require Import ZArith List Ascii Lia.
From stdpp Require Import base gmap strings list pretty.

Local Open Scope Z_scope.

(** ** Python runtime: exceptions, outcomes, indexing *)

Module Py.

(** The exceptions the modelled code can raise.  [Exception cls] stands
    for any other exception class, named by [cls]. *)
Inductive exn : Type :=
| NameError (name : string)
| IndexError
| AttributeError (attr : string)
| Exception (cls : string).

(** What running a piece of code yields: a value, a raised exception, or
    no answer within the fuel given to a loop. *)
Inductive outcome (A : Type) : Type :=
| Returns (a : A)
| Raises (e : exn)
| OutOfFuel.
Arguments Returns {A} a.
Arguments Raises {A} e.
Arguments OutOfFuel {A}.

(** Code running against a mutable store [Σ].  The store is returned in
    every case: what was mutated before an exception stays mutated. *)
Definition M (Σ A : Type) : Type := Σ → outcome A * Σ.

Definition ret {Σ A} (a : A) : M Σ A := λ σ, (Returns a, σ).

Definition bind {Σ A B} (m : M Σ A) (k : A → M Σ B) : M Σ B :=
  λ σ, match m σ with
       | (Returns a, σ') => k a σ'
       | (Raises e, σ') => (Raises e, σ')
       | (OutOfFuel, σ') => (OutOfFuel, σ')
       end.

Definition raise {Σ A} (e : exn) : M Σ A := λ σ, (Raises e, σ).
Definition diverge {Σ A} : M Σ A := λ σ, (OutOfFuel, σ).
Definition get {Σ} : M Σ Σ := λ σ, (Returns σ, σ).
Definition gets {Σ A} (f : Σ → A) : M Σ A := λ σ, (Returns (f σ), σ).
Definition modify {Σ} (f : Σ → Σ) : M Σ unit := λ σ, (Returns tt, f σ).
Definition lift {Σ A} (o : outcome A) : M Σ A := λ σ, (o, σ).

(** [l[i]] for a Python list (or a one-dimensional array) and an integer
    index: negative indices count from the end, anything outside
    [-len(l) .. len(l)-1] raises [IndexError]. *)
Definition index {A} (l : list A) (i : Z) : outcome A :=
  let n := Z.of_nat (length l) in
  let j := if i <? 0 then i + n else i in
  if (j <? 0) || (n <=? j) then Raises IndexError
  else match l !! Z.to_nat j with
       | Some x => Returns x
       | None => Raises IndexError
       end.

(** [l[start:]] for an integer [start]. *)
Definition slice_from {A} (start : Z) (l : list A) : list A :=
  let n := Z.of_nat (length l) in
  let s := if start <? 0 then Z.max 0 (start + n) else Z.min start n in
  drop (Z.to_nat s) l.

(** [range(lo, hi)] *)
Definition range (lo hi : Z) : list Z :=
  map (λ i, lo + Z.of_nat i) (seq 0 (Z.to_nat (hi - lo))).

(** [sep.join(parts)] *)
Fixpoint join (sep : string) (parts : list string) : string :=
  match parts with
  | [] => ""
  | [s] => s
  | s :: rest => s +:+ sep +:+ join sep rest
  end.

(** The one-character string that Python writes as a backslash and [n]. *)
Definition nl : string := String "010"%char EmptyString.

(** [l[:stop]] for an integer [stop]. *)
Definition slice_to {A} (stop : Z) (l : list A) : list A :=
  let n := Z.of_nat (length l) in
  let s := if stop <? 0 then Z.max 0 (stop + n) else Z.min stop n in
  take (Z.to_nat s) l.

(** [str(n)] and ["%d" % n] for an integer. *)
Definition str_int (n : Z) : string := pretty n.

(** [s.replace(old, new)] for one-character [old] and [new]. *)
Fixpoint replace_char (old new : ascii) (s : string) : string :=
  match s with
  | EmptyString => EmptyString
  | String c s' =>
      String (if Ascii.eqb c old then new else c) (replace_char old new s')
  end.

(** Objects a module namespace can hold, as far as name resolution is
    concerned. *)
Inductive pyobj : Type :=
| PyModule (name : string)
| PyClass (name : string)
| PyBuiltin (name : string)
| PyInt (z : Z).

(** The functions and constants of Python's [builtins] module.  Its
    exception classes, capitalised words all of them, are left out. *)
Definition builtin_names : list string :=
  [ "abs"; "aiter"; "all"; "anext"; "any"; "ascii"; "bin"; "bool";
    "breakpoint"; "bytearray"; "bytes"; "callable"; "chr"; "classmethod";
    "compile"; "complex"; "delattr"; "dict"; "dir"; "divmod"; "enumerate";
    "eval"; "exec"; "filter"; "float"; "format"; "frozenset"; "getattr";
    "globals"; "hasattr"; "hash"; "help"; "hex"; "id"; "input"; "int";
    "isinstance"; "issubclass"; "iter"; "len"; "list"; "locals"; "map";
    "max"; "memoryview"; "min"; "next"; "object"; "oct"; "open"; "ord";
    "pow"; "print"; "property"; "range"; "repr"; "reversed"; "round";
    "set"; "setattr"; "slice"; "sorted"; "staticmethod"; "str"; "sum";
    "super"; "tuple"; "type"; "vars"; "zip"; "__import__";
    "None"; "True"; "False"; "Ellipsis"; "NotImplemented"; "__debug__" ].

Definition builtins : gmap string pyobj :=
  list_to_map (map (λ n, (n, PyBuiltin n)) builtin_names).

(** Reading a name that the function body never assigns: the module
    namespace first, then [builtins], else [NameError]. *)
Definition load_global {Σ} (globals : gmap string pyobj) (name : string)
  : M Σ pyobj :=
  match globals !! name with
  | Some v => ret v
  | None => match builtins !! name with
            | Some v => ret v
            | None => raise (NameError name)
            end
  end.

End Py.

Import Py.

#[global] Instance M_ret {Σ} : MRet (Py.M Σ) := λ A, @Py.ret Σ A.
#[global] Instance M_bind {Σ} : MBind (Py.M Σ) := λ A B k m, Py.bind m k.

(** ** Forced decoding: [cam/sgnmt/decoding/reference.py] *)

Module Reference.

(** The names bound at module level of [reference.py] by its import
    statements and its class definition.  The attributes that every module
    has besides ([__name__] and the like) begin with underscores. *)
Definition module_globals : gmap string pyobj :=
  list_to_map
    [ ("copy", PyModule "copy"); ("logging", PyModule "logging");
      ("np", PyModule "numpy"); ("time", PyModule "time");
      ("math", PyModule "math"); ("utils", PyModule "cam.sgnmt.utils");
      ("Decoder", PyClass "cam.sgnmt.decoding.core.Decoder");
      ("PartialHypothesis",
       PyClass "cam.sgnmt.decoding.core.PartialHypothesis");
      ("ReferenceDecoder", PyClass "ReferenceDecoder") ].

Section Decoder.

(** Scores ([F]), the ensemble snapshot ([Snap]), the state that the
    base class [Decoder] keeps ([D]) and finished hypotheses ([Full]). *)
Context {F Snap D Full : Type}.

(** A score-breakdown entry as Python sees it: whatever object was
    appended, a single number or a per-predictor vector of
    (score, weight) pairs. *)
Inductive entry : Type :=
| Scalar (x : F)
| Vector (v : list (F * F)).

Record PartialHypothesis : Type := mkPartial {
  predictor_states : Snap;
  trgt_sentence : list Z;
  score : F;
  score_breakdown : list entry
}.

Record ReferenceDecoder : Type := mkDecoder {
  base : D;
  self_trgt_sentence : list Z
}.

(** The collaborators that are not part of this module: the float
    operations, [utils] and the methods inherited from [Decoder].
    [utils.binary_search] and [utils.max_] are taken to exist; what they
    return is left open. *)
Variable f_zero : F.
Variable f_add : F → F → F.
Variable EOS_ID : Z.
Variable binary_search : list Z → pyobj → outcome Z.
Variable max_ : list F → outcome F.
Variable initialize_predictors : list Z → D → D.
Variable get_predictor_states : D → Snap.
Variable set_predictor_states : Snap → D → D.
Variable apply_predictors : D → (list Z * list F * list (list (F * F))) * D.
Variable consume : Z → D → D.
Variable get_adjusted_score : D → PartialHypothesis → F.
Variable generate_full_hypothesis : PartialHypothesis → Full.
Variable add_full_hypo : Full → D → D.
Variable get_full_hypos_sorted : D → list Full.

(** Modelled from the spec: the constructor of [PartialHypothesis]
    ([cam.sgnmt.decoding.core] is not among the sources).  The root
    hypothesis has an empty prefix, no score and the initial snapshot. *)
Definition new_hypothesis (states : Snap) : PartialHypothesis :=
  {| predictor_states := states; trgt_sentence := [];
     score := f_zero; score_breakdown := [] |}.

(** Modelled from the spec: [PartialHypothesis.get_last_word], the last
    emitted symbol, [None] for the empty prefix. *)
Definition get_last_word (hypo : PartialHypothesis) : option Z :=
  last (trgt_sentence hypo).

(** The store of one decoding run: the decoder and the one hypothesis
    object that [decode] creates and [_expand_hypo] mutates. *)
Definition World : Type := ReferenceDecoder * PartialHypothesis.

Definition on_base (f : D → D) (w : World) : World :=
  (mkDecoder (f (base w.1)) (self_trgt_sentence w.1), w.2).
Definition on_hypo (f : PartialHypothesis → PartialHypothesis)
    (w : World) : World :=
  (w.1, f w.2).

Definition set_states (s : Snap) (h : PartialHypothesis) :=
  mkPartial s (trgt_sentence h) (score h) (score_breakdown h).
Definition add_score (x : F) (h : PartialHypothesis) :=
  mkPartial (predictor_states h) (trgt_sentence h) (f_add (score h) x)
    (score_breakdown h).
Definition set_score (x : F) (h : PartialHypothesis) :=
  mkPartial (predictor_states h) (trgt_sentence h) x (score_breakdown h).
Definition append_breakdown (e : entry) (h : PartialHypothesis) :=
  mkPartial (predictor_states h) (trgt_sentence h) (score h)
    (score_breakdown h ++ [e]).
Definition append_word (w : Z) (h : PartialHypothesis) :=
  mkPartial (predictor_states h) (trgt_sentence h ++ [w]) (score h)
    (score_breakdown h).

Definition call_apply_predictors
  : M World (list Z * list F * list (list (F * F))) :=
  λ w, let '(r, d) := apply_predictors (base w.1) in
       (Returns r, on_base (λ _, d) w).

(** [ReferenceDecoder._expand_hypo], line by line.  [globals] is the
    namespace in which the body's free names are looked up. *)
Definition _expand_hypo (globals : gmap string pyobj) : M World unit :=
  hypo ← gets snd;
  modify (on_base (set_predictor_states (predictor_states hypo)));;
  self ← gets fst;
  hypo ← gets snd;
  next_word ← lift (index (self_trgt_sentence self)
                          (Z.of_nat (length (trgt_sentence hypo))));
  '(ids, posterior, _) ← call_apply_predictors;
  k ← load_global globals "k";
  ind ← lift (binary_search ids k);
  max_score ← lift (max_ posterior);
  self ← gets fst;
  modify (on_hypo (set_states (get_predictor_states (base self))));;
  p ← lift (index posterior ind);
  modify (on_hypo (add_score p));;
  p ← lift (index posterior ind);
  modify (on_hypo (append_breakdown (Scalar p)));;
  modify (on_hypo (append_word next_word));;
  modify (on_base (consume next_word)).

(** The [while] loop of [decode]. *)
Fixpoint decode_loop (globals : gmap string pyobj) (fuel : nat)
  : M World unit :=
  hypo ← gets snd;
  if decide (get_last_word hypo = Some EOS_ID) then mret tt
  else match fuel with
       | O => diverge
       | S fuel' => _expand_hypo globals;; decode_loop globals fuel'
       end.

(** [ReferenceDecoder.decode] *)
Definition decode (globals : gmap string pyobj) (fuel : nat)
    (src_sentence trgt : list Z) : M ReferenceDecoder (list Full) :=
  λ self,
    let self := mkDecoder (base self) (trgt ++ [EOS_ID]) in
    let self := mkDecoder (initialize_predictors src_sentence (base self))
                          (self_trgt_sentence self) in
    let hypo := new_hypothesis (get_predictor_states (base self)) in
    match decode_loop globals fuel (self, hypo) with
    | (Returns _, (self, hypo)) =>
        let hypo := set_score (get_adjusted_score (base self) hypo) hypo in
        let self := mkDecoder
                      (add_full_hypo (generate_full_hypothesis hypo)
                                     (base self))
                      (self_trgt_sentence self) in
        (Returns (get_full_hypos_sorted (base self)), self)
    | (Raises e, (self, _)) => (Raises e, self)
    | (OutOfFuel, (self, _)) => (OutOfFuel, self)
    end.

End Decoder.

End Reference.

(** ** Output handlers: [cam/sgnmt/output.py] *)

Module Output.

(** Exceptions and fuel for code that touches no store. *)
#[global] Instance outcome_ret : MRet outcome := λ A, @Returns A.
#[global] Instance outcome_bind : MBind outcome := λ A B k o,
  match o with
  | Returns a => k a
  | Raises e => Raises e
  | OutOfFuel => OutOfFuel
  end.

(** [for x in xs: body(x)] *)
Fixpoint for_each {Σ A} (xs : list A) (body : A → M Σ unit) : M Σ unit :=
  match xs with
  | [] => mret tt
  | x :: xs' => body x;; for_each xs' body
  end.

(** [[g(x) for x in xs]] where [g] may raise. *)
Fixpoint comprehension {A B} (g : A → outcome B) (xs : list A)
  : outcome (list B) :=
  match xs with
  | [] => Returns []
  | x :: xs' => y ← g x; ys ← comprehension g xs'; mret (y :: ys)
  end.

(** [enumerate(xs)] *)
Definition enumerate {A} (xs : list A) : list (Z * A) :=
  zip (range 0 (Z.of_nat (length xs))) xs.

(** [f.write(s)] on an open text file, a file being what was written to
    it so far. *)
Definition write (s : string) : M string unit := modify (λ c, c +:+ s).

(** What the handlers ask of a score: Python's arithmetic on it and its
    two renderings, ["%f" % x] and [str(x)].  [f_zero] is the integer [0]
    from which [sum] starts. *)
Class FloatOps (F : Type) : Type := {
  f_zero : F;
  f_add : F → F → F;
  f_neg : F → F;
  fmt_f : F → string;
  f_str : F → string
}.

(** [sum(xs)] *)
Definition sum `{FloatOps F} (xs : list F) : F := fold_left f_add xs f_zero.

(** The handlers run unchanged on integer scores; this instance makes
    them computable. *)
#[global] Instance int_scores : FloatOps Z := {|
  f_zero := 0;
  f_add := Z.add;
  f_neg := Z.opp;
  fmt_f := λ x, str_int x +:+ ".000000";
  f_str := str_int
|}.

(** A finished hypothesis (class [Hypothesis] of
    [cam.sgnmt.decoding.core], not among the sources): each
    step of the breakdown holds one (score, weight) pair per predictor. *)
Record FullHypothesis (F : Type) : Type := mkHypothesis {
  trgt_sentence : list Z;
  total_score : F;
  score_breakdown : list (list (F * F))
}.
Arguments mkHypothesis {F} _ _ _.
Arguments trgt_sentence {F} _.
Arguments total_score {F} _.
Arguments score_breakdown {F} _.

(** *** [ScoreOutputHandler] *)
Module ScoreOutputHandler.
Section Handler.
Context `{FloatOps F}.

(** [f] is the attribute [self.f]: [None] as in Python, or the open
    file.  Files opened by name live in the store next to it. *)
Record t : Type := mk { path : string; f : option string }.
Definition World : Type := t * gmap string string.

Definition open_file : M World unit :=
  modify (λ w, (mk (path w.1) (Some ""), <[path w.1 := ""]> w.2)).

(** [__init__] *)
Definition init (path : string) : M (gmap string string) t :=
  λ disk, let '(_, (self, disk')) := open_file (mk path None, disk) in
          (Returns self, disk').

(** The inner [write(f_, score)] up to the text it writes. *)
Definition score_line (score : list (list (F * F))) : outcome string :=
  xs ← comprehension
          (λ s, e ← index s 0; mret (f_str e.1)) score;
  mret ("[" +:+ join ", " xs +:+ "]").

Definition write_score (score : list (list (F * F))) : M World unit :=
  self ← gets fst;
  match f self with
  | Some content =>
      line ← lift (score_line score);
      modify (λ w, (mk (path w.1) (Some (content +:+ line +:+ nl)), w.2))
  | None =>
      modify (λ w, (w.1, <[path self := ""]> w.2));;
      line ← lift (score_line score);
      modify (λ w, (w.1, <[path self := line +:+ nl]> w.2))
  end.

Definition write_hypos (all_hypos : list (list (FullHypothesis F)))
    (sen_indices : option (list Z)) : M World unit :=
  mret tt.
End Handler.
End ScoreOutputHandler.

(** *** [NBestSeparateOutputHandler] *)
Module NBestSeparateOutputHandler.
Section Handler.
Context {F : Type}.
Variable io_decode : list Z → string.

(** [f] is the attribute [self.f]: [None] while no statement has
    assigned it, else the list of open files. *)
Record t : Type := mk { paths : list string; f : option (list string) }.

(** [__init__]: it assigns [self.paths] and nothing else. *)
Definition init (path : string) (N : Z) : t :=
  mk (map (λ i, path +:+ "_" +:+ str_int i +:+ ".txt") (range 0 N)) None.

Definition open_file (self : t) : t :=
  mk (paths self) (Some (map (λ _, "") (paths self))).

(** [while len(hypos) < len(self.f): hypos.append(hypos[-1])] *)
Fixpoint pad (fuel n : nat) (hypos : list (FullHypothesis F))
  : outcome (list (FullHypothesis F)) :=
  if decide (length hypos < n)%nat then
    match fuel with
    | O => OutOfFuel
    | S fuel' => h ← index hypos (-1); pad fuel' n (hypos ++ [h])
    end
  else Returns hypos.

(** [self.f[i].write(s)] *)
Definition write_to (i : Z) (s : string) : M (list string) unit :=
  files ← get;
  _ ← lift (index files i);
  modify (alter (λ c, c +:+ s) (Z.to_nat i)).

(** The [for i in range(len(self.f))] loop. *)
Definition write_ranks (hypos : list (FullHypothesis F))
  : M (list string) unit :=
  files ← get;
  for_each (range 0 (Z.of_nat (length files))) (λ i,
    hypo ← lift (index hypos i);
    write_to i (io_decode (trgt_sentence hypo));;
    write_to i nl).

(** The [for hypos in all_hypos] loop.  It returns the n-best lists
    as the loop leaves them: padding appends to the caller's lists. *)
Fixpoint each_input (all_hypos : list (list (FullHypothesis F)))
  : M (list string) (list (list (FullHypothesis F))) :=
  match all_hypos with
  | [] => mret []
  | hypos :: rest =>
      n ← gets length;
      hypos' ← lift (pad n n hypos);
      write_ranks hypos';;
      rest' ← each_input rest;
      mret (hypos' :: rest')
  end.

Definition write_hypos (all_hypos : list (list (FullHypothesis F)))
    (sen_indices : option (list Z))
  : M t (list (list (FullHypothesis F))) :=
  λ self,
    match f self with
    | None => (Raises (AttributeError "f"), self)
    | Some files =>
        let self := if decide (files = []) then open_file self
                    else self in
        match f self with
        | None => (Raises (AttributeError "f"), self)
        | Some files =>
            let '(r, files') := each_input all_hypos files in
            (r, mk (paths self) (Some files'))
        end
    end.
End Handler.
End NBestSeparateOutputHandler.

(** *** [NBestOutputHandler] (Moses n-best format) *)
Module NBestOutputHandler.
Section Handler.
Context `{FloatOps F}.
Variable io_decode : list Z → string.

Record t : Type := mk { path : string; predictor_names : list string }.

(** One turn of the loop of [__init__] over [predictor_names]; the
    store is [name_count] and the list built so far. *)
Definition name_step (st : gmap string Z * list string) (name : string)
  : gmap string Z * list string :=
  let '(name_count, names) := st in
  match name_count !! name with
  | None =>
      (<[name := 1]> name_count,
       names ++ [replace_char "_" "0" name])
  | Some c =>
      let c' := c + 1 in
      (<[name := c']> name_count,
       names ++ [replace_char "_" "0" (name +:+ str_int c')])
  end.

Definition init (path : string) (predictor_names : list string) : t :=
  mk path (fold_left name_step predictor_names (∅, [])).2.

(** ["%s= %f" % (self.predictor_names[i], sum([s[i][0] for s in ...]))] *)
Definition predictor_field (self : t) (hypo : FullHypothesis F) (i : Z)
  : outcome string :=
  name ← index (predictor_names self) i;
  xs ← comprehension (λ s, e ← index s i; mret e.1)
          (score_breakdown hypo);
  mret (name +:+ "= " +:+ fmt_f (sum xs)).

(** The text of one [f.write("%d ||| %s ||| %s ||| %f" % ...)]. *)
Definition format_line (self : t) (idx : Z) (hypo : FullHypothesis F)
  : outcome string :=
  let n_predictors := Z.of_nat (length (predictor_names self)) in
  let text := io_decode (trgt_sentence hypo) in
  fields ← comprehension (predictor_field self hypo)
              (range 0 n_predictors);
  mret (str_int idx +:+ " ||| " +:+ text +:+ " ||| "
        +:+ join " " fields +:+ " ||| " +:+ fmt_f (total_score hypo)).

(** The body of the [with] block, run on the freshly opened file. *)
Definition write_lines (self : t)
    (all_hypos : list (list (FullHypothesis F))) (sen_indices : list Z)
  : M string unit :=
  for_each (zip sen_indices all_hypos) (λ '(idx, hypos),
    for_each hypos (λ hypo,
      line ← lift (format_line self idx hypo);
      write line;;
      write nl);;
    let idx := idx + 1 in
    mret tt).

Definition write_hypos (self : t)
    (all_hypos : list (list (FullHypothesis F))) (sen_indices : list Z)
  : M (gmap string string) unit :=
  λ disk,
    let '(r, content) := write_lines self all_hypos sen_indices "" in
    (r, <[path self := content]> disk).
End Handler.
End NBestOutputHandler.

(** *** [NgramOutputHandler] *)
Module NgramOutputHandler.
Section Handler.
Context {F : Type}.
(** Subtraction, [np.exp], [<], the constant [1.0] and ["%f" % x]. *)
Variable f_sub : F → F → F.
Variable f_exp : F → F.
Variable f_lt : F → F → bool.
Variable f_one : F.
Variable fmt_f : F → string.
(** [utils.log_sum], [utils.GO_ID] and [utils.EOS_ID]. *)
Variable log_sum : list F → F.
Variable GO_ID EOS_ID : Z.
(** [fmt % n] for a string [fmt] and an integer [n]: the formatting
    operator is the interpreter's, and raises for a format that it cannot
    apply to one integer. *)
Variable format_int : string → Z → outcome string.

Record t : Type := mk { path : string; min_order : Z; max_order : Z }.

(** [self.file_pattern], as [__init__] builds it. *)
Definition file_pattern (self : t) : string := path self +:+ "/%d.txt".

(** [min(a, b)] *)
Definition py_min (a b : F) : F := if f_lt b a then b else a.

(** [ngrams[ngram][hypo_idx] = True] on a [defaultdict(dict)]: both
    dictionaries keep their keys in the order of first insertion. *)
Fixpoint mark (ngram : string) (hypo_idx : Z)
    (ngrams : list (string * list Z)) : list (string * list Z) :=
  match ngrams with
  | [] => [(ngram, [hypo_idx])]
  | (k, ixs) :: rest =>
      if decide (k = ngram)
      then (k, if decide (hypo_idx ∈ ixs) then ixs
               else ixs ++ [hypo_idx]) :: rest
      else (k, ixs) :: mark ngram hypo_idx rest
  end.

(** [' '.join(map(str, hist[-order:]))] *)
Definition ngram_of (hist : list Z) (order : Z) : string :=
  join " " (map str_int (slice_from (- order) hist)).

(** The three nested loops under [# Collect ngrams] for one
    hypothesis. *)
Definition collect_hypo (self : t) (ngrams : list (string * list Z))
    (ih : Z * FullHypothesis F) : list (string * list Z) :=
  let '(hypo_idx, hypo) := ih in
  let sen_eos := [GO_ID] ++ trgt_sentence hypo ++ [EOS_ID] in
  fold_left (λ ngrams pos,
    let hist := slice_to pos sen_eos in
    fold_left (λ ngrams order,
      mark (ngram_of hist order) hypo_idx ngrams)
      (range (min_order self) (max_order self + 1)) ngrams)
    (range 1 (Z.of_nat (length sen_eos) + 1)) ngrams.

Definition collect (self : t) (hypos : list (FullHypothesis F))
  : list (string * list Z) :=
  fold_left (collect_hypo self) (enumerate hypos) [].

(** [min(1.0, np.exp(utils.log_sum([normed_scores[i] for i in ...])))] *)
Definition posterior (normed_scores : list F) (hypo_indices : list Z)
  : outcome F :=
  xs ← comprehension (index normed_scores) hypo_indices;
  mret (py_min f_one (f_exp (log_sum xs))).

Definition normed (hypos : list (FullHypothesis F)) : list F :=
  let total := log_sum (map total_score hypos) in
  map (λ hypo, f_sub (total_score hypo) total) hypos.

(** [ngrams[ngram]] read from the dictionary; empty for a key that was
    never marked. *)
Fixpoint indices_of (ngram : string) (ngrams : list (string * list Z))
  : list Z :=
  match ngrams with
  | [] => []
  | (k, ixs) :: rest =>
      if decide (k = ngram) then ixs else indices_of ngram rest
  end.

(** The n-grams of one sentence with the probability that the loop hands
    to [f.write], in the order of the loop. *)
Definition posteriors (self : t) (hypos : list (FullHypothesis F))
  : outcome (list (string * F)) :=
  comprehension (λ e : string * list Z,
                   p ← posterior (normed hypos) e.2; mret (e.1, p))
                (collect self hypos).

(** The file of one sentence: the body of the [with] block. *)
Definition write_ngrams (self : t) (hypos : list (FullHypothesis F))
  : M string unit :=
  let normed_scores := normed hypos in
  for_each (collect self hypos) (λ '(ngram, hypo_indices),
    p ← lift (posterior normed_scores hypo_indices);
    write (ngram +:+ " : " +:+ fmt_f p +:+ nl)).

(** Directories are not part of the store, so [_mkdir] leaves no
    trace here.  The file is opened, and so created, once its name has
    been formatted. *)
Definition write_hypos (self : t)
    (all_hypos : list (list (FullHypothesis F))) (sen_indices : list Z)
  : M (gmap string string) unit :=
  for_each (zip sen_indices all_hypos) (λ '(sen_idx, hypos),
    let sen_idx := sen_idx + 1 in
    λ disk,
      match format_int (file_pattern self) sen_idx with
      | Returns name =>
          let '(r, content) := write_ngrams self hypos "" in
          (r, <[name := content]> disk)
      | Raises e => (Raises e, disk)
      | OutOfFuel => (OutOfFuel, disk)
      end).
End Handler.
End NgramOutputHandler.

(** *** [FSTOutputHandler.write_weight] *)
Module FSTOutputHandler.
Section Handler.
Context `{FloatOps F}.

(** The list [els] when the loop ends. *)
Definition weight_fields (score_breakdown : list (F * F)) : list string :=
  fold_left (λ els '(idx, score),
               (els ++ [str_int (idx + 1)]) ++ [f_str (f_neg score.1)])
            (enumerate score_breakdown) ["0"].

Definition write_weight (score_breakdown : list (F * F)) : string :=
  join "," (weight_fields score_breakdown).

(** The tab character. *)
Definition tab : string := String "009"%char EmptyString.

(** One line of the text handed to [fst.Compiler]: the source state, the
    target state and the two labels, tab-separated, then the weight when
    the format has one; the three format strings of the handlers are its
    instances. *)
Definition arc_line (src dst ilabel olabel : Z) (weight : option string)
  : string :=
  str_int src +:+ tab +:+ str_int dst +:+ tab +:+ str_int ilabel +:+ tab
  +:+ str_int olabel
  +:+ match weight with Some w => tab +:+ w | None => "" end +:+ nl.

(** The compiler under construction: the text written to it so far and
    the local variable [next_free_id]. *)
Definition Compiler : Type := string * Z.

Definition c_write (line : Z → string) : M Compiler unit :=
  modify (λ c : Compiler, (c.1 +:+ line c.2, c.2)).
Definition next_free_id_incr : M Compiler unit :=
  modify (λ c : Compiler, (c.1, c.2 + 1)).

Variable GO_ID EOS_ID : Z.
(** [fmt % n] for a string [fmt] and an integer [n], as for the n-gram
    handler. *)
Variable format_int : string → Z → outcome string.

Record t : Type := mk { path : string; unk_id : Z }.

(** [self.file_pattern], as [__init__] builds it. *)
Definition file_pattern (self : t) : string := path self +:+ "/%d.fst".

(** The body of [for hypo in hypos]. *)
Definition write_path (hypo : FullHypothesis F) : M Compiler unit :=
  let syms := trgt_sentence hypo in
  c_write (λ next_free_id, arc_line 0 next_free_id GO_ID GO_ID None);;
  next_free_id_incr;;
  for_each (range 0 (Z.of_nat (length (score_breakdown hypo)) - 1)) (λ pos,
    sym ← lift (index syms pos);
    step ← lift (index (score_breakdown hypo) pos);
    c_write (λ next_free_id,
               arc_line (next_free_id - 1) next_free_id sym sym
                        (Some (write_weight step)));;
    next_free_id_incr);;
  step ← lift (index (score_breakdown hypo) (-1));
  c_write (λ next_free_id,
             arc_line (next_free_id - 1) 1 EOS_ID EOS_ID
                      (Some (write_weight step))).

(** The text compiled for one sentence. *)
Definition compiler_text (hypos : list (FullHypothesis F)) : M Compiler unit :=
  for_each hypos write_path;;
  c_write (λ _, "1" +:+ nl).

(** [write_hypos], up to the call of [write_fst]: the store is the list of
    the calls made, each the file name and the text that was compiled.
    The file name is formatted when the arguments of the call are
    evaluated, after the text has been written to the compiler.
    Directories, compilation and the optimisation of the automaton are
    left to OpenFST. *)
Definition write_hypos (self : t)
    (all_hypos : list (list (FullHypothesis F))) (sen_indices : list Z)
  : M (list (string * string)) unit :=
  for_each (zip sen_indices all_hypos) (λ '(fst_idx, hypos),
    let fst_idx := fst_idx + 1 in
    λ calls,
      match compiler_text hypos ("", 2) with
      | (Returns _, c) =>
          match format_int (file_pattern self) fst_idx with
          | Returns name => (Returns tt, calls ++ [(name, c.1)])
          | Raises e => (Raises e, calls)
          | OutOfFuel => (OutOfFuel, calls)
          end
      | (Raises e, _) => (Raises e, calls)
      | (OutOfFuel, _) => (OutOfFuel, calls)
      end).
End Handler.
End FSTOutputHandler.

(** *** [TextOutputHandler] *)
Module TextOutputHandler.
Section Handler.
Context {F : Type}.
Variable io_decode : list Z → string.

(** The attribute [self.f]: never assigned, or bound to [None] or to an
    open file. *)
Inductive attr : Type :=
| Unset
| Bound (v : option string).

Record t : Type := mk { path : string; f : attr }.
Definition World : Type := t * gmap string string.

(** [__init__]: it assigns [self.path] and nothing else. *)
Definition init (path : string) : t := mk path Unset.

Definition open_file : M World unit :=
  modify (λ w : World, (mk (path w.1) (Bound (Some "")), <[path w.1 := ""]> w.2)).

(** [self.f.write(s)] on the open file. *)
Definition write_open (s : string) : M World unit :=
  w ← get;
  match f w.1 with
  | Bound (Some c) => modify (λ w : World, (mk (path w.1) (Bound (Some (c +:+ s))), w.2))
  | Bound None => raise (AttributeError "write")
  | Unset => raise (AttributeError "f")
  end.

(** [f.write(s)] on the file that the [with] statement opened at [p]. *)
Definition write_at (p s : string) : M World unit :=
  modify (λ w : World, (w.1, <[p := default "" (w.2 !! p) +:+ s]> w.2)).

(** [self.f.flush()] *)
Definition flush : M World unit :=
  w ← get;
  match f w.1 with
  | Bound (Some _) => mret tt
  | Bound None => raise (AttributeError "flush")
  | Unset => raise (AttributeError "f")
  end.

Definition write_hypos (all_hypos : list (list (FullHypothesis F)))
    (sen_indices : option (list Z)) : M World unit :=
  self ← gets fst;
  match f self with
  | Unset => raise (AttributeError "f")
  | Bound (Some _) =>
      for_each all_hypos (λ hypos,
        hypo ← lift (index hypos 0);
        write_open (io_decode (trgt_sentence hypo));;
        write_open nl;;
        flush)
  | Bound None =>
      modify (λ w : World, (w.1, <[path self := ""]> w.2));;
      for_each all_hypos (λ hypos,
        hypo ← lift (index hypos 0);
        write_at (path self) (io_decode (trgt_sentence hypo));;
        write_at (path self) nl;;
        flush)
  end.
End Handler.
End TextOutputHandler.

(** *** [TimeCSVOutputHandler] *)
Module TimeCSVOutputHandler.
Section Handler.
Context `{FloatOps F}.
(** [fmt % n] for a string [fmt] and an integer [n], as for the n-gram
    handler. *)
Variable format_int : string → Z → outcome string.

Record t : Type := mk { path : string; predictor_names : list string }.

(** [self.file_pattern], as [__init__] builds it. *)
Definition file_pattern (self : t) : string := path self +:+ "/%d.csv".

(** One turn of the loop of [__init__]: as for the Moses handler, but the
    name is appended as it is. *)
Definition name_step (st : gmap string Z * list string) (name : string)
  : gmap string Z * list string :=
  let '(name_count, names) := st in
  match name_count !! name with
  | None => (<[name := 1]> name_count, names ++ [name])
  | Some c =>
      let c' := c + 1 in
      (<[name := c']> name_count, names ++ [name +:+ str_int c'])
  end.

Definition init (path : string) (predictor_names : list string) : t :=
  mk path (fold_left name_step predictor_names (∅, [])).2.

(** [s * n] for a string [s] and a count [n]. *)
Fixpoint repeat_str (s : string) (n : nat) : string :=
  match n with
  | O => ""
  | S n' => s +:+ repeat_str s n'
  end.

(** [max(xs)] for a list of integers. *)
Definition py_max (xs : list Z) : outcome Z :=
  match xs with
  | [] => Raises (Exception "ValueError")
  | x :: xs' => Returns (fold_left Z.max xs' x)
  end.

Definition placeholder (self : t) : string :=
  repeat_str (FSTOutputHandler.tab +:+ "-")
             (Z.to_nat (Z.of_nat (length (predictor_names self)) * 2)).

(** The header line. *)
Definition write_header (self : t) (hypo_count : Z) : M string unit :=
  write "Time";;
  for_each (range 0 hypo_count) (λ i,
    write (join "" (map (λ n, FSTOutputHandler.tab +:+ n +:+ "-"
                              +:+ str_int (i + 1))
                        (predictor_names self)));;
    write (join "" (map (λ n, FSTOutputHandler.tab +:+ n +:+ "-"
                              +:+ str_int (i + 1) +:+ "_weight")
                        (predictor_names self))));;
  write nl.

(** The cells of one hypothesis in the row of position [pos]. *)
Definition write_cells (self : t) (pos : Z) (hypo : FullHypothesis F)
  : M string unit :=
  let n_predictors := Z.of_nat (length (predictor_names self)) in
  if Z.of_nat (length (score_breakdown hypo)) <=? pos
  then write (placeholder self)
  else
    for_each (range 0 n_predictors) (λ pred_idx,
      xs ← lift (comprehension (λ s, e ← index s pred_idx; mret e.1)
                   (slice_to (pos + 1) (score_breakdown hypo)));
      write (FSTOutputHandler.tab +:+ fmt_f (sum xs)));;
    for_each (range 0 n_predictors) (λ pred_idx,
      step ← lift (index (score_breakdown hypo) pos);
      e ← lift (index step pred_idx);
      write (FSTOutputHandler.tab +:+ fmt_f e.2)).

(** The file of one sentence: the body of the [with] block. *)
Definition write_file (self : t) (hypos : list (FullHypothesis F))
  : M string unit :=
  write_header self (Z.of_nat (length hypos));;
  max_len ← lift (py_max (map (λ hypo, Z.of_nat (length (trgt_sentence hypo)))
                              hypos));
  for_each (range 0 (max_len + 1)) (λ pos,
    write (str_int pos);;
    for_each hypos (write_cells self pos);;
    write nl).

Definition write_hypos (self : t)
    (all_hypos : list (list (FullHypothesis F))) (sen_indices : list Z)
  : M (gmap string string) unit :=
  for_each (zip sen_indices all_hypos) (λ '(sen_idx, hypos),
    let sen_idx := sen_idx + 1 in
    λ disk,
      match format_int (file_pattern self) sen_idx with
      | Returns name =>
          let '(r, content) := write_file self hypos "" in
          (r, <[name := content]> disk)
      | Raises e => (Raises e, disk)
      | OutOfFuel => (OutOfFuel, disk)
      end).
End Handler.
End TimeCSVOutputHandler.

(** *** [StandardFSTOutputHandler] *)
Module StandardFSTOutputHandler.
Section Handler.
Context `{FloatOps F}.
Variable GO_ID EOS_ID : Z.
(** [fmt % n] for a string [fmt] and an integer [n], as for the n-gram
    handler. *)
Variable format_int : string → Z → outcome string.

Record t : Type := mk { path : string; unk_id : Z }.

(** [self.file_pattern], as [__init__] builds it. *)
Definition file_pattern (self : t) : string := path self +:+ "/%d.fst".

(** The body of [for hypo in hypos]. *)
Definition write_path (hypo : FullHypothesis F)
  : M FSTOutputHandler.Compiler unit :=
  FSTOutputHandler.c_write (λ next_free_id,
    FSTOutputHandler.arc_line 0 next_free_id GO_ID GO_ID
      (Some (fmt_f (f_neg (total_score hypo)))));;
  FSTOutputHandler.next_free_id_incr;;
  for_each (trgt_sentence hypo) (λ sym,
    FSTOutputHandler.c_write (λ next_free_id,
      FSTOutputHandler.arc_line (next_free_id - 1) next_free_id sym sym None);;
    FSTOutputHandler.next_free_id_incr);;
  FSTOutputHandler.c_write (λ next_free_id,
    FSTOutputHandler.arc_line (next_free_id - 1) 1 EOS_ID EOS_ID None).

Definition compiler_text (hypos : list (FullHypothesis F))
  : M FSTOutputHandler.Compiler unit :=
  for_each hypos write_path;;
  FSTOutputHandler.c_write (λ _, "1" +:+ nl).

(** [write_hypos], up to the call of [write_fst], as for the sparse-tuple
    handler. *)
Definition write_hypos (self : t)
    (all_hypos : list (list (FullHypothesis F))) (sen_indices : list Z)
  : M (list (string * string)) unit :=
  for_each (zip sen_indices all_hypos) (λ '(fst_idx, hypos),
    let fst_idx := fst_idx + 1 in
    λ calls,
      match compiler_text hypos ("", 2) with
      | (Returns _, c) =>
          match format_int (file_pattern self) fst_idx with
          | Returns name => (Returns tt, calls ++ [(name, c.1)])
          | Raises e => (Raises e, calls)
          | OutOfFuel => (OutOfFuel, calls)
          end
      | (Raises e, _) => (Raises e, calls)
      | (OutOfFuel, _) => (OutOfFuel, calls)
      end).
End Handler.
End StandardFSTOutputHandler.

End Output.

(** ** Instances on which the definitions run *)

(** A one-predictor ensemble with integer scores.  Its state is the list of
    symbols consumed so far; it scores the candidates [2] (end of
    sequence), [5] and [9] with [-3], [-1] and [-1] at every step. *)
Module Toy.

Definition EOS_ID : Z := 2.

Definition binary_search (ids : list Z) (k : pyobj) : outcome Z :=
  match k with
  | PyInt z =>
      match list_find (λ x, x = z) ids with
      | Some (i, _) => Returns (Z.of_nat i)
      | None => Raises (Exception "ValueError")
      end
  | _ => Raises (Exception "TypeError")
  end.

Definition max_ (xs : list Z) : outcome Z :=
  match xs with
  | [] => Raises (Exception "ValueError")
  | x :: xs' => Returns (fold_left Z.max xs' x)
  end.

Definition apply_predictors (d : list Z)
  : (list Z * list Z * list (list (Z * Z))) * list Z :=
  (([2; 5; 9], [-3; -1; -1], [[(-3, 1)]; [(-1, 1)]; [(-1, 1)]]), d).

Definition consume (w : Z) (d : list Z) : list Z := d ++ [w].

Definition _expand_hypo (globals : gmap string pyobj)
  : M (@Reference.World Z (list Z) (list Z)) unit :=
  Reference._expand_hypo Z.add binary_search max_
    (λ d, d) (λ s _, s) apply_predictors consume globals.

Definition decode (globals : gmap string pyobj) (fuel : nat)
    (src_sentence trgt : list Z)
  : M (@Reference.ReferenceDecoder (list Z))
      (list (@Reference.PartialHypothesis Z (list Z))) :=
  Reference.decode 0 Z.add EOS_ID binary_search max_
    (λ _ _, []) (λ d, d) (λ s _, s) apply_predictors consume
    (λ _ h, Reference.score h) (λ h, h) (λ h _, [])
    (λ _, []) globals fuel src_sentence trgt.

(** The decoder at the start of the second step of target [[5; 9]]. *)
Definition self1 : @Reference.ReferenceDecoder (list Z) :=
  Reference.mkDecoder [5] [5; 9; 2].
Definition hypo1 : @Reference.PartialHypothesis Z (list Z) :=
  Reference.mkPartial [5] [5] (-1) [Reference.Scalar (-1)].

(** Text of a symbol sequence: the symbols in decimal, space-separated. *)
Definition io_decode (symbols : list Z) : string :=
  join " " (map str_int symbols).

(** Three finished hypotheses under two predictors, and the n-best lists
    of three inputs, of sizes 3, 1 and 2. *)
Definition hypo_a : Output.FullHypothesis Z :=
  Output.mkHypothesis [5; 9; 2] (-6)
    [[(-1, 1); (-2, 1)]; [(-1, 1); (0, 1)]; [(-1, 1); (-1, 1)]].
Definition hypo_b : Output.FullHypothesis Z :=
  Output.mkHypothesis [5; 2] (-7) [[(-1, 1); (-2, 1)]; [(-3, 1); (-1, 1)]].
Definition hypo_c : Output.FullHypothesis Z :=
  Output.mkHypothesis [9; 2] (-9) [[(-4, 1); (-2, 1)]; [(-3, 1); (0, 1)]].
Definition all_hypos : list (list (Output.FullHypothesis Z)) :=
  [[hypo_a; hypo_b; hypo_c]; [hypo_b]; [hypo_c; hypo_a]].

(** Integer stand-ins for [np.exp] and [utils.log_sum]: [0] below zero
    and [1] from zero on, and the largest entry of the list. *)
Definition f_exp (x : Z) : Z := if x <? 0 then 0 else 1.
Definition log_sum (xs : list Z) : Z :=
  match xs with
  | [] => 0
  | x :: xs' => fold_left Z.max xs' x
  end.

(** The characters that can follow a percent sign in a conversion
    specification and that the instance below leaves aside: the other
    conversion types, the flags, a width, a precision, a mapping key and
    the length modifiers. *)
Definition other_conversions : list ascii :=
  String.list_ascii_of_string "iouxXeEfFgGcrsa-+ #0123456789.*(hlL".

(** An instance of the formatting operator [fmt % n], on the formats made
    of literal text, [%%] and [%d]: literal text is copied, [%%] gives one
    percent sign and [%d] the integer; a second [%d] finds no argument
    left, a format without [%d] leaves the argument unconverted, a percent
    sign at the end is an incomplete format, and a character that starts
    no conversion specification is an unsupported format character.  The
    other conversions of the operator are not part of the instance, which
    decides nothing about them. *)
Fixpoint format_from (fmt : string) (arg : option Z) : outcome string :=
  match fmt with
  | EmptyString =>
      match arg with
      | None => Returns ""
      | Some _ => Raises (Exception "TypeError")
      end
  | String "%" EmptyString => Raises (Exception "ValueError")
  | String "%" (String "%" rest) =>
      s ← format_from rest arg; mret ("%" +:+ s)
  | String "%" (String "d" rest) =>
      match arg with
      | Some n => s ← format_from rest None; mret (str_int n +:+ s)
      | None => Raises (Exception "TypeError")
      end
  | String "%" (String c _) =>
      if decide (c ∈ other_conversions) then OutOfFuel
      else match arg with
           | Some _ => Raises (Exception "ValueError")
           | None => Raises (Exception "TypeError")
           end
  | String c rest => s ← format_from rest arg; mret (String c s)
  end.

Definition format_int (fmt : string) (n : Z) : outcome string :=
  format_from fmt (Some n).

End Toy.

(** ** The written output in closed form

    What the specification says the handlers write, as plain functions of
    their input; the properties below compare the handlers with them. *)

Module Described.
Section Described.
Context `{Output.FloatOps F}.
Variable io_decode : list Z → string.

(** The text of a list of strings written one after the other. *)
Definition concat_str (parts : list string) : string :=
  foldr String.append "" parts.

(** Sparse-tuple arc weight: ["0"], then for predictor [i] the fields
    [i+1] and the negated primary component. *)
Definition sparse_fields (score_breakdown : list (F * F)) : list string :=
  "0" :: mjoin (imap (λ i s, [str_int (Z.of_nat i + 1);
                              Output.f_str (Output.f_neg s.1)])
                     score_breakdown).

(** How often [name] occurs in [names]. *)
Definition occurrences (name : string) (names : list string) : nat :=
  length (filter (λ x, x = name) names).

(** The Moses name of position [j]: [name] itself at its first occurrence,
    [name] followed by [k] at its [k]-th, underscores then replaced by the
    digit zero. *)
Definition moses_name (names : list string) (j : nat) (name : string)
  : string :=
  let k := occurrences name (take (S j) names) in
  replace_char "_" "0"
    (if decide (k = 1)%nat then name else name +:+ str_int (Z.of_nat k)).

(** The literal list of the first predictor's primary component, one
    element per step. *)
Definition score_text (score : list (list (F * F))) : string :=
  "[" +:+ join ", " (map (λ e : F * F, Output.f_str e.1) (omap head score))
      +:+ "]".

(** The sum over all steps of the primary component of predictor [i]. *)
Definition predictor_total (i : nat) (hypo : Output.FullHypothesis F) : F :=
  Output.sum (omap (λ s : list (F * F), fst <$> s !! i)
                   (Output.score_breakdown hypo)).

(** One line of the Moses n-best file, without its newline. *)
Definition moses_line (names : list string) (idx : Z)
    (hypo : Output.FullHypothesis F) : string :=
  str_int idx +:+ " ||| " +:+ io_decode (Output.trgt_sentence hypo)
  +:+ " ||| "
  +:+ join " " (imap (λ i name,
                        name +:+ "= "
                        +:+ Output.fmt_f (predictor_total i hypo)) names)
  +:+ " ||| " +:+ Output.fmt_f (Output.total_score hypo).

(** The Moses n-best file: the lines of the first input, hypothesis by
    hypothesis, then those of the second, and so on. *)
Definition moses_file (names : list string)
    (all_hypos : list (list (Output.FullHypothesis F)))
    (sen_indices : list Z) : string :=
  concat_str
    (map (λ ih : Z * list (Output.FullHypothesis F),
            concat_str (map (λ hypo, moses_line names ih.1 hypo +:+ nl) ih.2))
         (zip sen_indices all_hypos)).

(** The hypothesis whose text goes to the file of rank [i]: the one of
    rank [i], or the last of the list when the list is shorter. *)
Definition rank_or_last (i : nat) (hypos : list (Output.FullHypothesis F))
  : option (Output.FullHypothesis F) :=
  match hypos !! i with
  | Some hypo => Some hypo
  | None => last hypos
  end.

(** The line of one input in the file of rank [i]. *)
Definition rank_line (i : nat) (hypos : list (Output.FullHypothesis F))
  : string :=
  from_option (λ hypo, io_decode (Output.trgt_sentence hypo) +:+ nl) ""
              (rank_or_last i hypos).

(** What the file of rank [i] receives for the inputs [all_hypos]. *)
Definition rank_file (i : nat)
    (all_hypos : list (list (Output.FullHypothesis F))) : string :=
  concat_str (map (rank_line i) all_hypos).

(** An n-best list filled up to [n] entries with its last hypothesis. *)
Definition padded (n : nat) (hypos : list (Output.FullHypothesis F))
  : list (Output.FullHypothesis F) :=
  match last hypos with
  | Some hypo => hypos ++ replicate (n - length hypos) hypo
  | None => hypos
  end.


(** The n-grams extracted from one symbol sequence, in the order of the
    loops over positions and orders. *)
Definition ngrams_of (min_order max_order : Z) (sen_eos : list Z)
  : list string :=
  flat_map (λ pos,
              map (Output.NgramOutputHandler.ngram_of (slice_to pos sen_eos))
                  (range min_order (max_order + 1)))
           (range 1 (Z.of_nat (length sen_eos) + 1)).

(** The hypotheses of an n-best list in which an n-gram occurs at least
    once. *)
Definition containing (min_order max_order GO_ID EOS_ID : Z) (ngram : string)
    (hypos : list (Output.FullHypothesis F)) : list (Output.FullHypothesis F) :=
  filter (λ hypo,
            ngram ∈ ngrams_of min_order max_order
                      ([GO_ID] ++ Output.trgt_sentence hypo ++ [EOS_ID]))
         hypos.

End Described.
End Described.

(** ** The compiled automata in closed form

    The text that the two lattice handlers hand to [fst.Compiler], as plain
    functions of the hypotheses. *)

Module Lattice.
Section Lattice.
Context `{Output.FloatOps F}.
Variable GO_ID EOS_ID : Z.

(** The arcs [s -> s+1 -> s+2 ...], one per label, the [i]-th with the
    weight [weight i]. *)
Definition chain (s : Z) (labels : list Z) (weight : nat → option string)
  : string :=
  Described.concat_str
    (imap (λ i sym,
             Output.FSTOutputHandler.arc_line
               (s + Z.of_nat i) (s + Z.of_nat i + 1) sym sym (weight i))
          labels).

(** One path of the standard automaton whose first fresh state is [s]. *)
Definition standard_path (s : Z) (hypo : Output.FullHypothesis F) : string :=
  Output.FSTOutputHandler.arc_line 0 s GO_ID GO_ID
    (Some (Output.fmt_f (Output.f_neg (Output.total_score hypo))))
  +:+ chain s (Output.trgt_sentence hypo) (λ _, None)
  +:+ Output.FSTOutputHandler.arc_line
        (s + Z.of_nat (length (Output.trgt_sentence hypo))) 1 EOS_ID EOS_ID
        None.

(** One path of the sparse-tuple automaton whose first fresh state is
    [s]: as many arcs after the first as the breakdown has steps. *)
Definition sparse_path (s : Z) (hypo : Output.FullHypothesis F) : string :=
  let n := (length (Output.score_breakdown hypo) - 1)%nat in
  Output.FSTOutputHandler.arc_line 0 s GO_ID GO_ID None
  +:+ chain s (take n (Output.trgt_sentence hypo))
        (λ i, Output.FSTOutputHandler.write_weight
                <$> Output.score_breakdown hypo !! i)
  +:+ Output.FSTOutputHandler.arc_line (s + Z.of_nat n) 1 EOS_ID EOS_ID
        (Output.FSTOutputHandler.write_weight
           <$> last (Output.score_breakdown hypo)).

(** The paths of a list of hypotheses, each starting at the state after
    the states of the one before. *)
Fixpoint paths {A} (path : Z → A → string) (states : A → nat) (s : Z)
    (hypos : list A) : string :=
  match hypos with
  | [] => ""
  | hypo :: rest =>
      path s hypo +:+ paths path states (s + Z.of_nat (states hypo)) rest
  end.

Definition standard_text (hypos : list (Output.FullHypothesis F)) : string :=
  paths standard_path (λ hypo, S (length (Output.trgt_sentence hypo))) 2 hypos
  +:+ "1" +:+ nl.

Definition sparse_text (hypos : list (Output.FullHypothesis F)) : string :=
  paths sparse_path (λ hypo, length (Output.score_breakdown hypo)) 2 hypos
  +:+ "1" +:+ nl.

(** One compiled text per pair of a sentence index and an n-best list,
    under the file name of the index plus one. *)
Definition files {A} (pattern : Z → string) (text : A → string)
    (all_hypos : list A) (sen_indices : list Z) : list (string * string) :=
  map (λ p : Z * A, (pattern (p.1 + 1), text p.2)) (zip sen_indices all_hypos).

(** A hypothesis that the sparse-tuple handler can write: its breakdown
    has a step, and no more steps than the sentence has symbols, plus
    one. *)
Definition writable (hypo : Output.FullHypothesis F) : Prop :=
  Output.score_breakdown hypo ≠ []
  ∧ (length (Output.score_breakdown hypo)
     ≤ length (Output.trgt_sentence hypo) + 1)%nat.

End Lattice.
End Lattice.

(** * Properties *)

(** ** The Python runtime on small inputs *)

Example index_last : Py.index [10; 20; 30] (-1) = Returns 30.
Proof. reflexivity. Qed.
Example index_out : Py.index [10; 20; 30] 3 = Raises IndexError.
Proof. reflexivity. Qed.
Example slice_neg : Py.slice_from (-2) [1; 2; 3] = [2; 3].
Proof. reflexivity. Qed.
Example slice_neg_long : Py.slice_from (-5) [1; 2; 3] = [1; 2; 3].
Proof. reflexivity. Qed.
Example slice_zero : Py.slice_from 0 [1; 2; 3] = [1; 2; 3].
Proof. reflexivity. Qed.
Example range_ex : Py.range 2 5 = [2; 3; 4].
Proof. reflexivity. Qed.
Example join_ex : Py.join "," ["0"; "1"; "x"] = "0,1,x".
Proof. reflexivity. Qed.
Example str_int_ex : Py.str_int (-12) = "-12".
Proof. reflexivity. Qed.
Example replace_ex : Py.replace_char "_" "0" "nmt_2" = "nmt02".
Proof. reflexivity. Qed.


(** ** Forced decoding *)

Section ReferenceFacts.

Context {F Snap D Full : Type}.
Variable f_zero : F.
Variable f_add : F → F → F.
Variable EOS_ID : Z.
Variable binary_search : list Z → pyobj → outcome Z.
Variable max_ : list F → outcome F.
Variable initialize_predictors : list Z → D → D.
Variable get_predictor_states : D → Snap.
Variable set_predictor_states : Snap → D → D.
Variable apply_predictors : D → (list Z * list F * list (list (F * F))) * D.
Variable consume : Z → D → D.
Variable get_adjusted_score : D → @Reference.PartialHypothesis F Snap → F.
Variable generate_full_hypothesis : @Reference.PartialHypothesis F Snap → Full.
Variable add_full_hypo : Full → D → D.
Variable get_full_hypos_sorted : D → list Full.

#[local] Abbreviation expand := (Reference._expand_hypo f_add binary_search max_
  get_predictor_states set_predictor_states apply_predictors consume).
#[local] Abbreviation decode := (Reference.decode f_zero f_add EOS_ID binary_search max_
  initialize_predictors get_predictor_states set_predictor_states
  apply_predictors consume get_adjusted_score generate_full_hypothesis
  add_full_hypo get_full_hypos_sorted).
#[local] Abbreviation decode_loop := (Reference.decode_loop f_add EOS_ID binary_search
  max_ get_predictor_states set_predictor_states apply_predictors consume).

(** The name [k] is bound neither in the module nor in [builtins]. *)
Lemma load_global_k {Σ} (σ : Σ) :
  load_global Reference.module_globals "k" σ = (Raises (NameError "k"), σ).
Proof.
  unfold load_global.
  replace (Reference.module_globals !! "k") with (@None pyobj)
    by (vm_compute; reflexivity).
  replace (builtins !! "k") with (@None pyobj) by (vm_compute; reflexivity).
  reflexivity.
Qed.

(** What one call of [_expand_hypo] does in the module as written: the
    ensemble is restored and scored, then line 42 raises. *)
Lemma expand_hypo_run self hypo :
  expand Reference.module_globals (self, hypo) =
    let d := set_predictor_states (Reference.predictor_states hypo)
               (Reference.base self) in
    let trgt := Reference.self_trgt_sentence self in
    match index trgt (Z.of_nat (length (Reference.trgt_sentence hypo))) with
    | Returns _ =>
        (Raises (NameError "k"),
         (Reference.mkDecoder (apply_predictors d).2 trgt, hypo))
    | Raises e => (Raises e, (Reference.mkDecoder d trgt, hypo))
    | OutOfFuel => (OutOfFuel, (Reference.mkDecoder d trgt, hypo))
    end.
Proof.
  unfold Reference._expand_hypo, mbind, M_bind, bind, gets, modify, lift,
    Reference.on_base, Reference.call_apply_predictors; simpl.
  destruct (index _ _) as [w|e|]; try reflexivity.
  destruct (apply_predictors _) as [[[ids posterior] bd] d'] eqn:Hap; simpl.
  rewrite load_global_k. reflexivity.
Qed.

Lemma index_in_range {A} (l : list A) (i : nat) (x : A) :
  l !! i = Some x → index l (Z.of_nat i) = Returns x.
Proof.
  intros Hl. pose proof (lookup_lt_Some _ _ _ Hl) as Hlt.
  unfold index; cbv zeta.
  destruct (Z.ltb_spec (Z.of_nat i) 0); [lia|].
  destruct (Z.ltb_spec (Z.of_nat i) 0); [lia|].
  destruct (Z.leb_spec (Z.of_nat (length l)) (Z.of_nat i)); [lia|].
  simpl. by rewrite Nat2Z.id, Hl.
Qed.

Lemma index_returns_or_raises {A} (l : list A) (i : Z) :
  (∃ x, index l i = Returns x) ∨ index l i = Raises IndexError.
Proof.
  unfold index. destruct (_ || _); [by right|].
  destruct (l !! _); [left; eauto | by right].
Qed.

(** Every call of [_expand_hypo] in the module as written raises, and
    the hypothesis object is the same afterwards. *)
Lemma expand_hypo_raises self hypo :
  ∃ e self',
    expand Reference.module_globals (self, hypo) = (Raises e, (self', hypo)).
Proof.
  rewrite expand_hypo_run; simpl.
  destruct (index_returns_or_raises (Reference.self_trgt_sentence self)
              (Z.of_nat (length (Reference.trgt_sentence hypo))))
    as [[w ->] | ->]; eauto.
Qed.

(** C1.  In the module as written a forced-decoding step never gets to
    add a score, a breakdown entry or a symbol: for every decoder and
    every hypothesis the call raises, and score, breakdown and prefix of
    the hypothesis are what they were. *)
Theorem expand_hypo_adds_nothing self hypo :
  let r := expand Reference.module_globals (self, hypo) in
  (∃ e, r.1 = Raises e)
  ∧ Reference.score r.2.2 = Reference.score hypo
  ∧ Reference.score_breakdown r.2.2 = Reference.score_breakdown hypo
  ∧ Reference.trgt_sentence r.2.2 = Reference.trgt_sentence hypo.
Proof.
  destruct (expand_hypo_raises self hypo) as (e & self' & ->).
  simpl. eauto.
Qed.

(** C2.  When the required symbol is not among the candidates that
    [apply_predictors] returns, the step raises [NameError] for the name
    [k] and not [SymbolNotScoredError]: the candidates are never
    searched. *)
Theorem expand_hypo_absent_symbol self hypo w :
  index (Reference.self_trgt_sentence self)
        (Z.of_nat (length (Reference.trgt_sentence hypo))) = Returns w →
  w ∉ (apply_predictors
         (set_predictor_states (Reference.predictor_states hypo)
            (Reference.base self))).1.1.1 →
  (expand Reference.module_globals (self, hypo)).1 = Raises (NameError "k")
  ∧ (expand Reference.module_globals (self, hypo)).1
    ≠ Raises (Exception "SymbolNotScoredError").
Proof.
  intros Hw _. rewrite expand_hypo_run; simpl. rewrite Hw; simpl.
  split; [done | discriminate].
Qed.

(** C3.  The snapshot stored on the hypothesis after a step is the one it
    held before the step: it is not taken again, with or without the
    required symbol consumed. *)
Theorem expand_hypo_keeps_snapshot self hypo :
  Reference.predictor_states
    (expand Reference.module_globals (self, hypo)).2.2
  = Reference.predictor_states hypo.
Proof.
  destruct (expand_hypo_raises self hypo) as (e & self' & ->).
  reflexivity.
Qed.

(** C4.  [decode] returns no hypothesis at all: for every source, every
    target and every decoder, as soon as the loop may run once, the first
    step raises [NameError] for the name [k]. *)
Theorem decode_raises_NameError src trgt self fuel :
  (decode Reference.module_globals (S fuel) src trgt self).1
  = Raises (NameError "k").
Proof.
  unfold Reference.decode.
  set (self0 := Reference.mkDecoder _ _).
  set (hypo0 := Reference.new_hypothesis _ _).
  assert (∃ self',
    decode_loop Reference.module_globals (S fuel) (self0, hypo0)
    = (Raises (NameError "k"), (self', hypo0))) as [self' ->]; [|done].
  cbn [Reference.decode_loop]. unfold mbind at 1, M_bind at 1, bind at 1.
  unfold gets at 1. cbn [snd].
  destruct (decide _) as [Heq|_]; [discriminate Heq|].
  unfold mbind at 1, M_bind at 1, bind at 1.
  rewrite expand_hypo_run. cbn [Reference.self_trgt_sentence self0].
  replace (index _ _) with (Returns (default EOS_ID (head trgt))).
  { eauto. }
  symmetry. apply (index_in_range _ 0%nat). by destruct trgt.
Qed.

(** Were [k] bound to an object that [utils.binary_search] finds among
    the candidates, the step would go through: the snapshot it stores is
    taken before [consume], and the breakdown receives the combined score
    a second time, not the per-predictor vector. *)
Lemma expand_hypo_bound_k globals self hypo v w ids posterior bd d' ind m p :
  globals !! "k" = Some v →
  index (Reference.self_trgt_sentence self)
        (Z.of_nat (length (Reference.trgt_sentence hypo))) = Returns w →
  apply_predictors
    (set_predictor_states (Reference.predictor_states hypo)
       (Reference.base self)) = ((ids, posterior, bd), d') →
  binary_search ids v = Returns ind →
  max_ posterior = Returns m →
  index posterior ind = Returns p →
  expand globals (self, hypo) =
    (Returns tt,
     (Reference.mkDecoder (consume w d') (Reference.self_trgt_sentence self),
      Reference.mkPartial (get_predictor_states d')
        (Reference.trgt_sentence hypo ++ [w])
        (f_add (Reference.score hypo) p)
        (Reference.score_breakdown hypo ++ [Reference.Scalar p]))).
Proof.
  intros Hk Hw Hap Hbs Hmax Hp.
  assert (∀ σ : @Reference.World F Snap D,
            load_global globals "k" σ = (Returns v, σ)) as Hload.
  { intros σ. unfold load_global. by rewrite Hk. }
  unfold Reference._expand_hypo, mbind, M_bind, bind, gets, modify, lift,
    Reference.on_base, Reference.on_hypo,
    Reference.call_apply_predictors; cbn [fst snd Reference.base
      Reference.self_trgt_sentence].
  rewrite Hw, Hap, Hload, Hbs, Hmax; cbn [fst snd Reference.base].
  rewrite Hp. reflexivity.
Qed.

End ReferenceFacts.

(** The first step of forcing the target [[7]], a symbol the toy ensemble
    does not score. *)
Lemma expand_hypo_absent_symbol_witness :
  index [7; 2] (Z.of_nat (length (@nil Z))) = Returns 7
  ∧ (7 ∉ [2; 5; 9])
  ∧ (Toy._expand_hypo Reference.module_globals
       (Reference.mkDecoder [] [7; 2], Reference.mkPartial [] [] 0 [])).1
    = Raises (NameError "k")
  ∧ (Toy._expand_hypo Reference.module_globals
       (Reference.mkDecoder [] [7; 2], Reference.mkPartial [] [] 0 [])).1
    ≠ Raises (Exception "SymbolNotScoredError").
Proof.
  split; [reflexivity|]. split.
  - intros Hin. repeat (apply elem_of_cons in Hin as [Hin|Hin];
                        [discriminate Hin|]).
    by apply elem_of_nil in Hin.
  - apply (expand_hypo_absent_symbol Z.add Toy.binary_search Toy.max_
             (λ d, d) (λ s _, s) Toy.apply_predictors Toy.consume
             (Reference.mkDecoder [] [7; 2]) (Reference.mkPartial [] [] 0 [])
             7).
    + reflexivity.
    + intros Hin. repeat (apply elem_of_cons in Hin as [Hin|Hin];
                          [discriminate Hin|]).
      by apply elem_of_nil in Hin.
Defined.

(** The second step of forcing [[5; 9]] on the toy ensemble: the symbol [9]
    is scored [-1], yet the step raises and the hypothesis keeps score [-1],
    one breakdown entry, prefix [[5]] and the snapshot [[5]]; after
    [consume(9)] the ensemble would be in state [[5; 9]]. *)
Example toy_step_raises :
  Toy._expand_hypo Reference.module_globals (Toy.self1, Toy.hypo1)
  = (Raises (NameError "k"), (Toy.self1, Toy.hypo1)).
Proof. vm_compute. reflexivity. Qed.

Example toy_step_snapshot :
  Reference.predictor_states
    (Toy._expand_hypo Reference.module_globals (Toy.self1, Toy.hypo1)).2.2
  ≠ Toy.consume 9 (Reference.predictor_states Toy.hypo1).
Proof. vm_compute. discriminate. Qed.

(** With [k] bound to the required symbol the same step goes through, but
    stores the snapshot [[5]] and not [[5; 9]], and appends the number [-1]
    to the breakdown. *)
Example toy_step_bound_k :
  Toy._expand_hypo (<["k" := PyInt 9]> Reference.module_globals)
    (Toy.self1, Toy.hypo1)
  = (Returns tt,
     (Reference.mkDecoder [5; 9] [5; 9; 2],
      Reference.mkPartial [5] [5; 9] (-2)
        [Reference.Scalar (-1); Reference.Scalar (-1)])).
Proof. vm_compute. reflexivity. Qed.

(** Forcing the target [[5; 9]] of the specification's example. *)
Example toy_decode :
  (Toy.decode Reference.module_globals 10 [1; 1] [5; 9]
     (Reference.mkDecoder [] [])).1
  = Raises (NameError "k").
Proof. vm_compute. reflexivity. Qed.

(** ** Lists, strings and loops *)

Lemma str_app_assoc (a b c : string) : (a +:+ b) +:+ c = a +:+ b +:+ c.
Proof.
  induction a as [|x a IH]; [done|].
  change (String x ((a +:+ b) +:+ c) = String x (a +:+ b +:+ c)).
  by f_equal.
Qed.

Lemma str_app_nil_r (a : string) : a +:+ "" = a.
Proof.
  induction a as [|x a IH]; [done|].
  change (String x (a +:+ "") = String x a). by f_equal.
Qed.

Lemma index_head {A} (x : A) (l : list A) : index (x :: l) 0 = Returns x.
Proof. by apply (index_in_range (x :: l) 0%nat x). Qed.

Lemma range_0 (n : nat) : range 0 (Z.of_nat n) = map Z.of_nat (seq 0 n).
Proof.
  unfold range. rewrite Z.sub_0_r, Nat2Z.id.
  apply map_ext; intros i; lia.
Qed.

Lemma zip_seq_imap {A} (l : list A) (a : nat) :
  zip (map Z.of_nat (seq a (length l))) l
  = imap (λ i x, (Z.of_nat (a + i), x)) l.
Proof.
  revert a; induction l as [|x l IH]; intros a; [done|].
  rewrite imap_cons; simpl. rewrite Nat.add_0_r. f_equal.
  rewrite IH. apply imap_ext; intros i y _; simpl.
  by rewrite Nat.add_succ_r.
Qed.

Lemma enumerate_imap {A} (l : list A) :
  Output.enumerate l = imap (λ i x, (Z.of_nat i, x)) l.
Proof. unfold Output.enumerate. rewrite range_0. apply (zip_seq_imap l 0). Qed.

(** ** Sparse-tuple arc weights *)

Section WeightFacts.
Context `{Output.FloatOps F}.

Lemma weight_loop (l : list (F * F)) (a : nat) (acc : list string) :
  fold_left (λ els '(idx, score),
               (els ++ [str_int (idx + 1)])
               ++ [Output.f_str (Output.f_neg score.1)])
            (imap (λ i x, (Z.of_nat (a + i), x)) l) acc
  = acc ++ mjoin (imap (λ i s, [str_int (Z.of_nat (a + i) + 1);
                                 Output.f_str (Output.f_neg s.1)]) l).
Proof.
  revert a acc; induction l as [|x l IH]; intros a acc.
  - simpl. by rewrite app_nil_r.
  - rewrite !imap_cons. cbn [fold_left mjoin list_join].
    rewrite (imap_ext _ (λ i y, (Z.of_nat (S a + i), y)) l)
      by (intros; cbn [compose]; f_equal; lia).
    rewrite IH, Nat.add_0_r, <- !app_assoc. cbn [app fst]. do 4 f_equal.
    apply imap_ext; intros i y _; cbn [compose]. do 3 f_equal; lia.
Qed.

Lemma weight_fields_closed (score_breakdown : list (F * F)) :
  Output.FSTOutputHandler.weight_fields score_breakdown
  = Described.sparse_fields score_breakdown.
Proof.
  unfold Output.FSTOutputHandler.weight_fields, Described.sparse_fields.
  rewrite enumerate_imap. apply (weight_loop score_breakdown 0 ["0"]).
Qed.

Lemma lookup_pairs {A B} (g : nat → A → B * B) (l : list A) (i : nat) :
  let fields := mjoin (imap (λ i x, [(g i x).1; (g i x).2]) l) in
  fields !! (2 * i)%nat = (λ x, (g i x).1) <$> l !! i
  ∧ fields !! (2 * i + 1)%nat = (λ x, (g i x).2) <$> l !! i.
Proof.
  revert g i; induction l as [|x l IH]; intros g i; [done|].
  cbn zeta. rewrite imap_cons. cbn [mjoin list_join app].
  destruct i as [|i]; [done|].
  replace (2 * S i)%nat with (S (S (2 * i))) by lia.
  cbn [Nat.add lookup list_lookup]. apply (IH (g ∘ S) i).
Qed.

Lemma length_pairs {A B} (g : nat → A → list B) (l : list A) :
  (∀ i x, length (g i x) = 2%nat) →
  length (mjoin (imap g l)) = (2 * length l)%nat.
Proof.
  revert g; induction l as [|x l IH]; intros g Hg; [done|].
  rewrite imap_cons. cbn [mjoin list_join length].
  rewrite length_app, Hg, IH by (intros; apply Hg). lia.
Qed.

(** C9.  The arc weight of a step is the comma-joined list that starts with
    ["0"] and continues, predictor by predictor in breakdown order, with the
    predictor's index plus one and the negation of the primary component of
    its entry: [2n+1] fields for [n] predictors, field [2i+1] the number
    [i+1] and field [2i+2] the negated score of predictor [i] alone. *)
Theorem write_weight_sparse_tuple (score_breakdown : list (F * F)) :
  Output.FSTOutputHandler.write_weight score_breakdown
    = join "," (Described.sparse_fields score_breakdown)
  ∧ length (Described.sparse_fields score_breakdown)
    = (2 * length score_breakdown + 1)%nat
  ∧ Described.sparse_fields score_breakdown !! 0%nat = Some "0"
  ∧ ∀ i : nat,
      Described.sparse_fields score_breakdown !! (2 * i + 1)%nat
        = (λ _, str_int (Z.of_nat i + 1)) <$> score_breakdown !! i
      ∧ Described.sparse_fields score_breakdown !! (2 * i + 2)%nat
        = (λ s, Output.f_str (Output.f_neg s.1)) <$> score_breakdown !! i.
Proof.
  split; [|split; [|split; [done|]]].
  - unfold Output.FSTOutputHandler.write_weight.
    by rewrite weight_fields_closed.
  - unfold Described.sparse_fields. cbn [length].
    rewrite length_pairs by done. lia.
  - intros i. unfold Described.sparse_fields.
    replace (2 * i + 1)%nat with (S (2 * i)) by lia.
    replace (2 * i + 2)%nat with (S (2 * i + 1)) by lia.
    cbn [lookup list_lookup].
    apply (lookup_pairs
             (λ i s, (str_int (Z.of_nat i + 1),
                      Output.f_str (Output.f_neg s.1)))).
Qed.

End WeightFacts.

Example write_weight_ex :
  Output.FSTOutputHandler.write_weight [(-3, 1); (-12, 1)] = "0,1,3,2,12".
Proof. vm_compute. reflexivity. Qed.

(** ** Predictor names of the Moses n-best handler *)

Section NameFacts.

Lemma occurrences_snoc (n name : string) (seen : list string) :
  Described.occurrences n (seen ++ [name])
  = (Described.occurrences n seen + if decide (name = n) then 1 else 0)%nat.
Proof.
  unfold Described.occurrences. rewrite filter_app, length_app. f_equal.
  rewrite filter_cons, filter_nil. by destruct (decide (name = n)).
Qed.

(** The loop of [__init__], started anywhere: [name_count] holds for every
    name seen so far how often it was seen. *)
Lemma name_loop (l seen : list string) (name_count : gmap string Z)
    (names : list string) :
  (∀ n, name_count !! n
        = if decide (Described.occurrences n seen = 0)%nat then None
          else Some (Z.of_nat (Described.occurrences n seen))) →
  (fold_left Output.NBestOutputHandler.name_step l (name_count, names)).2
  = names ++ imap (λ j name, Described.moses_name (seen ++ l) (length seen + j)
                               name) l.
Proof.
  revert seen name_count names.
  induction l as [|name l IH]; intros seen name_count names Hc.
  { simpl. by rewrite app_nil_r. }
  assert (Described.moses_name (seen ++ name :: l) (length seen + 0) name
          = replace_char "_" "0"
              (if decide (Described.occurrences name seen = 0)%nat then name
               else name +:+ str_int
                      (Z.of_nat (Described.occurrences name seen) + 1)))
    as Hname.
  { unfold Described.moses_name.
    replace (take (S (length seen + 0)) (seen ++ name :: l))
      with (seen ++ [name])
      by (rewrite (cons_middle name seen l), app_assoc;
          symmetry; apply take_app_length';
          rewrite length_app; simpl; lia).
    rewrite occurrences_snoc, (decide_True (P := name = name)) by done.
    destruct (decide (Described.occurrences name seen = 0)%nat) as [->|Hne].
    - by rewrite decide_True.
    - rewrite decide_False by lia. do 3 f_equal. lia. }
  rewrite imap_cons, Hname. cbn [fold_left].
  assert (∀ c' out,
    c' = Z.of_nat (Described.occurrences name (seen ++ [name])) →
    (fold_left Output.NBestOutputHandler.name_step l
       (<[name := c']> name_count, names ++ [out])).2
    = names ++ out :: imap ((λ j n, Described.moses_name (seen ++ name :: l)
                                      (length seen + j) n) ∘ S) l) as Hrest.
  { intros c' out ->. rewrite (IH (seen ++ [name])).
    - rewrite <- app_assoc. cbn [app]. do 2 f_equal.
      apply imap_ext; intros j n _; cbn [compose].
      rewrite <- app_assoc, length_app. cbn [app length]. f_equal. lia.
    - intros n. rewrite !occurrences_snoc.
      rewrite (decide_True (P := name = name)) by done.
      destruct (decide (name = n)) as [->|Hne].
      + by rewrite lookup_insert_eq, decide_False by lia.
      + rewrite lookup_insert_ne, Nat.add_0_r by done. apply Hc. }
  unfold Output.NBestOutputHandler.name_step at 2. rewrite (Hc name).
  rewrite occurrences_snoc, (decide_True (P := name = name)) in Hrest by done.
  destruct (decide (Described.occurrences name seen = 0)%nat) as [Hz|Hnz].
  - apply Hrest. rewrite Hz. reflexivity.
  - cbn zeta. apply Hrest. lia.
Qed.

(** C10.  The names the Moses handler writes are, position by position,
    the configured names de-duplicated and with underscores replaced: at
    position [j] the name [n] stays [n] when it occurs there for the first
    time and becomes [n] followed by [k] at its [k]-th occurrence, and in
    the result every underscore has become the digit zero. *)
Theorem moses_predictor_names (path : string) (predictor_names : list string) :
  let self := Output.NBestOutputHandler.init path predictor_names in
  length (Output.NBestOutputHandler.predictor_names self)
    = length predictor_names
  ∧ ∀ j : nat,
      Output.NBestOutputHandler.predictor_names self !! j
      = Described.moses_name predictor_names j <$> predictor_names !! j.
Proof.
  cbn zeta. unfold Output.NBestOutputHandler.init.
  cbn [Output.NBestOutputHandler.predictor_names].
  rewrite (name_loop predictor_names [] ∅ []) by done.
  cbn [app length Nat.add]. split.
  - apply length_imap.
  - intros j. apply list_lookup_imap.
Qed.

End NameFacts.

Example moses_names_ex :
  Output.NBestOutputHandler.predictor_names
    (Output.NBestOutputHandler.init "nbest.txt"
       ["nmt"; "length_norm"; "nmt"; "fst"; "nmt"])
  = ["nmt"; "length0norm"; "nmt2"; "fst"; "nmt3"].
Proof. vm_compute. reflexivity. Qed.

(** De-duplication does not make the names distinct. *)
Example moses_names_clash :
  Output.NBestOutputHandler.predictor_names
    (Output.NBestOutputHandler.init "nbest.txt" ["a"; "a"; "a2"])
  = ["a"; "a2"; "a2"].
Proof. vm_compute. reflexivity. Qed.

(** ** The score handler *)

Section ScoreFacts.
Context `{Output.FloatOps F}.

Lemma comprehension_heads (score : list (list (F * F))) :
  Forall (λ s, s ≠ []) score →
  Output.comprehension (λ s, e ← index s 0; mret (Output.f_str e.1)) score
  = Returns (map (λ e : F * F, Output.f_str e.1) (omap head score)).
Proof.
  induction 1 as [|s score Hs _ IH]; [done|].
  destruct s as [|e s]; [done|].
  cbn [Output.comprehension omap list_omap head].
  rewrite index_head, IH. reflexivity.
Qed.

(** C6, as the code has it.  [write_hypos] of the score handler does
    nothing, whatever the n-best lists and whatever the state of the
    handler.  The literal list is written by [write_score]: called with a
    breakdown in which every step has a first predictor, on a handler whose
    file is open, it appends one line, the list of the primary components
    of the first predictor, one element per step. *)
Theorem score_handler_writes_in_write_score
    (all_hypos : list (list (Output.FullHypothesis F)))
    (sen_indices : option (list Z)) (w : Output.ScoreOutputHandler.World)
    (score : list (list (F * F))) (path content : string)
    (disk : gmap string string) :
  Forall (λ s, s ≠ []) score →
  Output.ScoreOutputHandler.write_hypos all_hypos sen_indices w
    = (Returns tt, w)
  ∧ Output.ScoreOutputHandler.write_score score
      (Output.ScoreOutputHandler.mk path (Some content), disk)
    = (Returns tt,
       (Output.ScoreOutputHandler.mk path
          (Some (content +:+ Described.score_text score +:+ nl)), disk)).
Proof.
  intros Hscore. split; [reflexivity|].
  unfold Output.ScoreOutputHandler.write_score,
    Output.ScoreOutputHandler.score_line, mbind, M_bind, bind, gets, lift,
    modify.
  cbn [fst snd Output.ScoreOutputHandler.f Output.ScoreOutputHandler.path].
  rewrite comprehension_heads by done. reflexivity.
Qed.

End ScoreFacts.

(** One input whose only hypothesis has the steps [-1] and [-3]: the line
    [[-1, -3]] is not written by [write_hypos], the file stays empty. *)
Lemma score_write_hypos_counterexample :
  let hypo := Output.mkHypothesis [5; 2] (-4) [[(-1, 1)]; [(-3, 1)]] in
  let w := (Output.ScoreOutputHandler.mk "scores.txt" (Some ""),
            ({["scores.txt" := ""]} : gmap string string)) in
  let w' := (Output.ScoreOutputHandler.write_hypos [[hypo]] (Some [0]) w).2 in
  Output.ScoreOutputHandler.f w'.1 = Some ""
  ∧ Output.ScoreOutputHandler.f w'.1 ≠ Some ("[-1, -3]" +:+ nl)
  ∧ w'.2 !! "scores.txt" = Some "".
Proof.
  cbn zeta. split; [reflexivity|]. split.
  - cbn. intros Heq. discriminate Heq.
  - vm_compute. reflexivity.
Qed.

Lemma score_handler_writes_in_write_score_witness :
  Forall (λ s : list (Z * Z), s ≠ []) [[(-1, 1)]; [(-3, 1)]]
  ∧ Output.ScoreOutputHandler.write_hypos
      [[Output.mkHypothesis [5; 2] (-4) [[(-1, 1)]; [(-3, 1)]]]] (Some [0])
      (Output.ScoreOutputHandler.mk "scores.txt" (Some ""), ∅)
    = (Returns tt, (Output.ScoreOutputHandler.mk "scores.txt" (Some ""), ∅))
  ∧ Output.ScoreOutputHandler.write_score [[(-1, 1)]; [(-3, 1)]]
      (Output.ScoreOutputHandler.mk "scores.txt" (Some ""), ∅)
    = (Returns tt,
       (Output.ScoreOutputHandler.mk "scores.txt"
          (Some ("" +:+ Described.score_text [[(-1, 1)]; [(-3, 1)]] +:+ nl)),
        ∅)).
Proof.
  assert (Forall (λ s : list (Z * Z), s ≠ []) [[(-1, 1)]; [(-3, 1)]]) as Hne
    by (repeat constructor; discriminate).
  split; [exact Hne|].
  exact (score_handler_writes_in_write_score
           [[Output.mkHypothesis [5; 2] (-4) [[(-1, 1)]; [(-3, 1)]]]]
           (Some [0])
           (Output.ScoreOutputHandler.mk "scores.txt" (Some ""), ∅)
           [[(-1, 1)]; [(-3, 1)]] "scores.txt" "" ∅ Hne).
Defined.

Example write_score_ex :
  (Output.ScoreOutputHandler.write_score [[(-1, 1)]; [(-3, 1)]]
     (Output.ScoreOutputHandler.mk "scores.txt" (Some ""), ∅)).2.1
  = Output.ScoreOutputHandler.mk "scores.txt" (Some ("[-1, -3]" +:+ nl)).
Proof. vm_compute. reflexivity. Qed.

(** A step without predictors makes [write_score] raise before it writes. *)
Example write_score_empty_step :
  Output.ScoreOutputHandler.write_score [[(-1, 1)]; []]
    (Output.ScoreOutputHandler.mk "scores.txt" (Some ""), ∅)
  = (Raises IndexError,
     (Output.ScoreOutputHandler.mk "scores.txt" (Some ""), ∅)).
Proof. vm_compute. reflexivity. Qed.

(** ** The Moses n-best handler *)

Lemma comprehension_imap {A B} (g : Z → outcome B) (h : nat → A → B)
    (l : list A) (a : nat) :
  (∀ i x, l !! i = Some x → g (Z.of_nat (a + i)) = Returns (h (a + i)%nat x)) →
  Output.comprehension g (map Z.of_nat (seq a (length l)))
  = Returns (imap (λ i, h (a + i)%nat) l).
Proof.
  revert a; induction l as [|x l IH]; intros a Hg; [done|].
  rewrite imap_cons. cbn [length seq map Output.comprehension].
  rewrite <- (Nat.add_0_r a) at 1. rewrite (Hg 0%nat x) by done.
  rewrite (IH (S a)).
  - cbn [mbind Output.outcome_bind mret Output.outcome_ret].
    do 2 f_equal. apply imap_ext; intros i y _; cbn [compose].
    by rewrite Nat.add_succ_r.
  - intros i y Hy. replace (S a + i)%nat with (a + S i)%nat by lia.
    by apply (Hg (S i)).
Qed.

Lemma for_each_append {A} (xs : list A) (body : A → M string unit)
    (g : A → string) :
  (∀ x c, x ∈ xs → body x c = (Returns tt, c +:+ g x)) →
  ∀ c, Output.for_each xs body c
       = (Returns tt, c +:+ Described.concat_str (map g xs)).
Proof.
  induction xs as [|x xs IH]; intros Hbody c.
  - cbn. by rewrite str_app_nil_r.
  - cbn [Output.for_each map Described.concat_str foldr].
    unfold mbind, M_bind, bind. rewrite Hbody by left.
    rewrite IH by (intros; apply Hbody; by right).
    by rewrite str_app_assoc.
Qed.

Section MosesFacts.
Context `{Output.FloatOps F}.
Variable io_decode : list Z → string.

Lemma primary_components (bd : list (list (F * F))) (i : nat) :
  Forall (λ s, i < length s)%nat bd →
  Output.comprehension (λ s, e ← index s (Z.of_nat i); mret e.1) bd
  = Returns (omap (λ s : list (F * F), fst <$> s !! i) bd).
Proof.
  induction 1 as [|s bd Hs _ IH]; [done|].
  destruct (lookup_lt_is_Some_2 s i Hs) as [e He].
  cbn [Output.comprehension omap list_omap].
  rewrite (index_in_range s i e He), IH, He. reflexivity.
Qed.

Lemma format_line_closed (self : Output.NBestOutputHandler.t) (idx : Z)
    (hypo : Output.FullHypothesis F) :
  Forall (λ s, length (Output.NBestOutputHandler.predictor_names self)
               ≤ length s)%nat (Output.score_breakdown hypo) →
  Output.NBestOutputHandler.format_line io_decode self idx hypo
  = Returns (Described.moses_line io_decode
               (Output.NBestOutputHandler.predictor_names self) idx hypo).
Proof.
  intros Hwide. unfold Output.NBestOutputHandler.format_line. cbn zeta.
  rewrite range_0.
  rewrite (comprehension_imap _
             (λ i name, name +:+ "= "
                        +:+ Output.fmt_f (Described.predictor_total i hypo))
             _ 0); [reflexivity|].
  intros i name Hname. cbn [Nat.add].
  unfold Output.NBestOutputHandler.predictor_field.
  rewrite (index_in_range _ i name Hname), primary_components; [done|].
  eapply Forall_impl; [exact Hwide|]. intros s Hs.
  pose proof (lookup_lt_Some _ _ _ Hname). simpl in *. lia.
Qed.

(** C5.  When the sentence indices are aligned with the n-best lists and
    every step of every breakdown holds an entry for each predictor name,
    the Moses handler writes, for every n-best list and every hypothesis in
    it, in order, the line [index ||| text ||| name= value ... ||| total]:
    the index is the one the caller supplied for that list, and the value
    next to the name of predictor [i] is the sum over all steps of the
    primary component of entry [i]. *)
Theorem moses_nbest_lines (self : Output.NBestOutputHandler.t)
    (all_hypos : list (list (Output.FullHypothesis F)))
    (sen_indices : list Z) (disk : gmap string string) :
  length sen_indices = length all_hypos →
  (∀ hypos hypo s,
     hypos ∈ all_hypos → hypo ∈ hypos → s ∈ Output.score_breakdown hypo →
     (length (Output.NBestOutputHandler.predictor_names self)
      ≤ length s)%nat) →
  Output.NBestOutputHandler.write_hypos io_decode self all_hypos sen_indices
    disk
  = (Returns tt,
     <[Output.NBestOutputHandler.path self :=
         Described.moses_file io_decode
           (Output.NBestOutputHandler.predictor_names self)
           all_hypos sen_indices]> disk)
  ∧ (zip sen_indices all_hypos).*1 = sen_indices
  ∧ (zip sen_indices all_hypos).*2 = all_hypos.
Proof.
  intros Hlen Hwide. split; [|split].
  - unfold Output.NBestOutputHandler.write_hypos,
      Output.NBestOutputHandler.write_lines, Described.moses_file.
    rewrite (for_each_append _ _
      (λ ih, Described.concat_str
               (map (λ hypo, Described.moses_line io_decode
                               (Output.NBestOutputHandler.predictor_names self)
                               ih.1 hypo +:+ nl) ih.2))); [done|].
    intros [idx hypos] c Hin. unfold mbind at 1, M_bind at 1, bind at 1.
    apply elem_of_zip_r in Hin. cbn [fst snd] in *.
    rewrite (for_each_append _ _
      (λ hypo, Described.moses_line io_decode
                 (Output.NBestOutputHandler.predictor_names self) idx hypo
               +:+ nl)); [done|].
    intros hypo c' Hhypo.
    unfold mbind, M_bind, bind, lift, Output.write, modify.
    rewrite format_line_closed.
    + by rewrite str_app_assoc.
    + apply Forall_forall. intros s Hs. by apply (Hwide hypos hypo s).
  - apply fst_zip. lia.
  - apply snd_zip. lia.
Qed.

End MosesFacts.

Ltac elem_cases H :=
  repeat first
    [ apply elem_of_nil in H; destruct H
    | apply elem_of_cons in H; destruct H as [->|H] ].

Lemma moses_nbest_lines_witness :
  let self := Output.NBestOutputHandler.init "nbest.txt" ["nmt"; "nmt"] in
  length [0; 1; 2] = length Toy.all_hypos
  ∧ Output.NBestOutputHandler.write_hypos Toy.io_decode self Toy.all_hypos
      [0; 1; 2] ∅
    = (Returns tt,
       <[Output.NBestOutputHandler.path self :=
           Described.moses_file Toy.io_decode
             (Output.NBestOutputHandler.predictor_names self)
             Toy.all_hypos [0; 1; 2]]> ∅).
Proof.
  cbn zeta. split; [reflexivity|].
  refine (proj1 (moses_nbest_lines Toy.io_decode
                   (Output.NBestOutputHandler.init "nbest.txt" ["nmt"; "nmt"])
                   Toy.all_hypos [0; 1; 2] ∅ eq_refl _)).
  intros hypos hypo s Hhypos Hhypo Hs.
  elem_cases Hhypos; elem_cases Hhypo; elem_cases Hs; vm_compute; lia.
Defined.

Example moses_file_ex :
  Described.moses_file Toy.io_decode ["nmt"; "nmt2"] [[Toy.hypo_b]; [Toy.hypo_c]]
    [0; 1]
  = "0 ||| 5 2 ||| nmt= -4.000000 nmt2= -3.000000 ||| -7.000000" +:+ nl
    +:+ "1 ||| 9 2 ||| nmt= -7.000000 nmt2= -2.000000 ||| -9.000000" +:+ nl.
Proof. vm_compute. reflexivity. Qed.

Example moses_write_ex :
  (Output.NBestOutputHandler.write_hypos Toy.io_decode
     (Output.NBestOutputHandler.init "nbest.txt" ["nmt"; "nmt"])
     [[Toy.hypo_b]; [Toy.hypo_c]] [0; 1] ∅).2 !! "nbest.txt"
  = Some ("0 ||| 5 2 ||| nmt= -4.000000 nmt2= -3.000000 ||| -7.000000" +:+ nl
    +:+ "1 ||| 9 2 ||| nmt= -7.000000 nmt2= -2.000000 ||| -9.000000" +:+ nl).
Proof. vm_compute. reflexivity. Qed.

(** A step that holds fewer entries than there are predictor names stops
    the handler with [IndexError]; the lines before it stay written. *)
Example moses_short_step :
  Output.NBestOutputHandler.write_hypos Toy.io_decode
    (Output.NBestOutputHandler.init "nbest.txt" ["nmt"; "fst"])
    [[Toy.hypo_b; Output.mkHypothesis [2] (-1) [[(-1, 1)]]]] [0] ∅
  = (Raises IndexError,
     {["nbest.txt" :=
         "0 ||| 5 2 ||| nmt= -4.000000 fst= -3.000000 ||| -7.000000" +:+ nl]}).
Proof. vm_compute. reflexivity. Qed.

(** ** The per-rank handler *)

Lemma index_last_elem {A} (l : list A) :
  l ≠ [] → ∃ x, last l = Some x ∧ index l (-1) = Returns x.
Proof.
  intros Hne. destruct (last l) as [x|] eqn:Hlast.
  2:{ apply last_None in Hlast. done. }
  exists x. split; [done|].
  rewrite last_lookup in Hlast. pose proof (lookup_lt_Some _ _ _ Hlast).
  unfold index; cbv zeta.
  destruct (Z.ltb_spec (-1) 0); [|lia].
  destruct (Z.ltb_spec (-1 + Z.of_nat (length l)) 0); [lia|].
  destruct (Z.leb_spec (Z.of_nat (length l)) (-1 + Z.of_nat (length l)));
    [lia|].
  cbn [orb].
  replace (Z.to_nat (-1 + Z.of_nat (length l))) with (pred (length l)) by lia.
  by rewrite Hlast.
Qed.

Lemma imap_id {A} (l : list A) : imap (λ _ x, x) l = l.
Proof.
  apply list_eq; intros i. rewrite list_lookup_imap. by destruct (l !! i).
Qed.

Lemma imap_imap {A B C} (f : nat → B → C) (g : nat → A → B) (l : list A) :
  imap f (imap g l) = imap (λ i x, f i (g i x)) l.
Proof.
  apply list_eq; intros i. rewrite !list_lookup_imap. by destruct (l !! i).
Qed.

(** A loop over the positions [a .. a+k-1] that alters the file at its
    position alters each of these files once. *)
Lemma for_each_alter (g : nat → string → string)
    (body : Z → M (list string) unit) (k a : nat) (files : list string) :
  (∀ i fs, (a ≤ i < a + k)%nat → length fs = length files →
           body (Z.of_nat i) fs = (Returns tt, alter (g i) i fs)) →
  Output.for_each (map Z.of_nat (seq a k)) body files
  = (Returns tt,
     imap (λ i c, if decide (a ≤ i < a + k)%nat then g i c else c) files).
Proof.
  revert a files; induction k as [|k IH]; intros a files Hbody.
  - cbn. f_equal. rewrite <- (imap_id files) at 1.
    apply imap_ext; intros i c _. by rewrite decide_False by lia.
  - cbn [seq map Output.for_each]. unfold mbind, M_bind, bind.
    rewrite Hbody by lia.
    rewrite IH.
    + f_equal. apply list_eq; intros j.
      rewrite !list_lookup_imap, list_lookup_alter.
      destruct (decide (a = j)) as [->|Hne]; destruct (files !! j); simpl;
        try done; f_equal; repeat case_decide; (done || lia).
    + intros i fs Hi Hfs. apply Hbody; [lia|].
      by rewrite Hfs, length_alter.
Qed.

Lemma write_to_run (i : nat) (s : string) (files : list string) (c : string) :
  files !! i = Some c →
  Output.NBestSeparateOutputHandler.write_to (Z.of_nat i) s files
  = (Returns tt, alter (λ c, c +:+ s) i files).
Proof.
  intros Hc. unfold Output.NBestSeparateOutputHandler.write_to,
    mbind, M_bind, bind, get, lift, modify.
  by rewrite (index_in_range files i c Hc), Nat2Z.id.
Qed.

Section SeparateFacts.
Context {F : Type}.
Variable io_decode : list Z → string.

#[local] Abbreviation hypothesis := (Output.FullHypothesis F).

Lemma padded_snoc (n : nat) (hypos : list hypothesis) (h : hypothesis) :
  last hypos = Some h → (length hypos < n)%nat →
  Described.padded n (hypos ++ [h]) = Described.padded n hypos.
Proof.
  intros Hlast Hlt. unfold Described.padded.
  rewrite last_snoc, Hlast, length_app. cbn [length].
  replace (n - length hypos)%nat with (S (n - (length hypos + 1))) by lia.
  by rewrite <- app_assoc.
Qed.

Lemma pad_enough (fuel n : nat) (hypos : list hypothesis) :
  hypos ≠ [] → (n - length hypos ≤ fuel)%nat →
  Output.NBestSeparateOutputHandler.pad fuel n hypos
  = Returns (Described.padded n hypos).
Proof.
  revert hypos; induction fuel as [|fuel IH]; intros hypos Hne Hfuel;
    destruct (index_last_elem hypos Hne) as (h & Hlast & Hidx);
    cbn [Output.NBestSeparateOutputHandler.pad];
    (destruct (decide (length hypos < n)%nat) as [Hlt|Hge]; [try lia|]).
  - unfold Described.padded. rewrite Hlast.
    replace (n - length hypos)%nat with 0%nat by lia.
    by rewrite app_nil_r.
  - rewrite Hidx. cbn [mbind Output.outcome_bind].
    rewrite IH.
    + by rewrite padded_snoc.
    + by destruct hypos.
    + rewrite length_app. cbn [length]. lia.
  - unfold Described.padded. rewrite Hlast.
    replace (n - length hypos)%nat with 0%nat by lia.
    by rewrite app_nil_r.
Qed.

Lemma padded_lookup (n i : nat) (hypos : list hypothesis) :
  hypos ≠ [] → (i < n)%nat →
  Described.padded n hypos !! i = Described.rank_or_last i hypos
  ∧ is_Some (Described.rank_or_last i hypos).
Proof.
  intros Hne Hi. destruct (index_last_elem hypos Hne) as (h & Hlast & _).
  unfold Described.padded, Described.rank_or_last. rewrite Hlast.
  destruct (hypos !! i) as [x|] eqn:Hx.
  - rewrite lookup_app_l by (by eapply lookup_lt_Some). by rewrite Hx.
  - apply lookup_ge_None in Hx. rewrite lookup_app_r by done.
    rewrite lookup_replicate_2 by lia. done.
Qed.

Lemma write_ranks_run (n : nat) (hypos : list hypothesis)
    (files : list string) :
  hypos ≠ [] → length files = n →
  Output.NBestSeparateOutputHandler.write_ranks io_decode
    (Described.padded n hypos) files
  = (Returns tt,
     imap (λ i c, c +:+ Described.rank_line io_decode i hypos) files).
Proof.
  intros Hne Hn. unfold Output.NBestSeparateOutputHandler.write_ranks.
  unfold mbind at 1, M_bind at 1, bind at 1, get at 1.
  rewrite range_0.
  rewrite (for_each_alter
             (λ i c, c +:+ Described.rank_line io_decode i hypos)).
  - f_equal. apply imap_ext; intros i c Hc.
    rewrite decide_True; [done|]. apply lookup_lt_Some in Hc. lia.
  - intros i fs Hi Hfs.
    destruct (padded_lookup n i hypos Hne) as [Hpad [h Hrank]]; [lia|].
    rewrite Hrank in Hpad.
    destruct (lookup_lt_is_Some_2 fs i) as [c Hc]; [lia|].
    assert (alter (λ c, c +:+ io_decode (Output.trgt_sentence h)) i fs !! i
            = Some (c +:+ io_decode (Output.trgt_sentence h))) as Hc'
      by (by rewrite list_lookup_alter_eq, Hc).
    unfold mbind, M_bind, bind, lift.
    rewrite (index_in_range _ i h Hpad), (write_to_run i _ fs c Hc).
    rewrite (write_to_run i _ _ _ Hc'). f_equal.
    rewrite list_alter_alter_eq. apply list_alter_ext; [|done].
    intros c0 _. cbn [compose]. unfold Described.rank_line.
    rewrite Hrank. cbn [from_option]. by rewrite str_app_assoc.
Qed.

Lemma each_input_run (all_hypos : list (list hypothesis))
    (files : list string) :
  Forall (λ hypos, hypos ≠ []) all_hypos →
  Output.NBestSeparateOutputHandler.each_input io_decode all_hypos files
  = (Returns (map (Described.padded (length files)) all_hypos),
     imap (λ i c, c +:+ Described.rank_file io_decode i all_hypos) files).
Proof.
  intros Hall; revert files.
  induction Hall as [|hypos all_hypos Hne _ IH]; intros files.
  - cbn. f_equal. rewrite <- (imap_id files) at 1.
    apply imap_ext; intros i c _. by rewrite str_app_nil_r.
  - cbn [Output.NBestSeparateOutputHandler.each_input].
    unfold mbind, M_bind, bind, gets, lift.
    rewrite pad_enough by (done || lia).
    rewrite (write_ranks_run (length files)) by done.
    rewrite IH, length_imap, imap_imap. cbn [map]. f_equal.
    apply imap_ext; intros i c _.
    unfold Described.rank_file. cbn [map Described.concat_str foldr].
    by rewrite str_app_assoc.
Qed.

(** C7, as the code has it.  On a handler whose files have been opened and
    for n-best lists none of which is empty, [write_hypos] raises nothing
    and appends to every file exactly one line per input: to the file of
    rank [i] the text of the hypothesis of rank [i], or of the last
    hypothesis of the input when its list has fewer than [i+1] entries.
    The lists themselves are left padded to the number of files. *)
Theorem separate_files_aligned (self : Output.NBestSeparateOutputHandler.t)
    (all_hypos : list (list hypothesis)) (sen_indices : option (list Z))
    (files : list string) :
  Output.NBestSeparateOutputHandler.f self = Some files →
  Forall (λ hypos, hypos ≠ []) all_hypos →
  let opened :=
    if decide (files = [])
    then map (λ _, "") (Output.NBestSeparateOutputHandler.paths self)
    else files in
  Output.NBestSeparateOutputHandler.write_hypos io_decode all_hypos
    sen_indices self
  = (Returns (map (Described.padded (length opened)) all_hypos),
     Output.NBestSeparateOutputHandler.mk
       (Output.NBestSeparateOutputHandler.paths self)
       (Some (imap (λ i c, c +:+ Described.rank_file io_decode i all_hypos)
                   opened)))
  ∧ ∀ i : nat,
      length (map (Described.rank_line io_decode i) all_hypos)
      = length all_hypos.
Proof.
  intros Hf Hall opened. split; [|intros; apply length_map].
  unfold Output.NBestSeparateOutputHandler.write_hypos. rewrite Hf.
  subst opened. destruct (decide (files = [])) as [->|Hfiles].
  - cbn [Output.NBestSeparateOutputHandler.open_file
         Output.NBestSeparateOutputHandler.f
         Output.NBestSeparateOutputHandler.paths].
    by rewrite each_input_run.
  - rewrite Hf. by rewrite each_input_run.
Qed.

End SeparateFacts.

(** Two ranks, two inputs, the second of which has an empty n-best list:
    the first input is written, then padding the empty list raises
    [IndexError], and both files are one line short. *)
Lemma separate_files_empty_list :
  Output.NBestSeparateOutputHandler.write_hypos Toy.io_decode
    [[Toy.hypo_b]; []] None
    (Output.NBestSeparateOutputHandler.open_file
       (Output.NBestSeparateOutputHandler.init "nbest" 2))
  = (Raises IndexError,
     Output.NBestSeparateOutputHandler.mk ["nbest_0.txt"; "nbest_1.txt"]
       (Some ["5 2" +:+ nl; "5 2" +:+ nl])).
Proof. vm_compute. reflexivity. Qed.

(** Three ranks and the n-best lists of sizes 3, 1 and 2. *)
Lemma separate_files_aligned_witness :
  let self := Output.NBestSeparateOutputHandler.open_file
                (Output.NBestSeparateOutputHandler.init "nbest" 3) in
  Output.NBestSeparateOutputHandler.f self = Some [""; ""; ""]
  ∧ Forall (λ hypos, hypos ≠ []) Toy.all_hypos
  ∧ Output.NBestSeparateOutputHandler.write_hypos Toy.io_decode
      Toy.all_hypos None self
    = (Returns (map (Described.padded 3) Toy.all_hypos),
       Output.NBestSeparateOutputHandler.mk
         (Output.NBestSeparateOutputHandler.paths self)
         (Some (imap (λ i c, c +:+ Described.rank_file Toy.io_decode i
                                     Toy.all_hypos)
                     [""; ""; ""]))).
Proof.
  cbn zeta.
  assert (Forall (λ hypos : list (Output.FullHypothesis Z), hypos ≠ [])
            Toy.all_hypos) as Hall
    by (repeat constructor; discriminate).
  split; [reflexivity|]. split; [exact Hall|].
  exact (proj1 (separate_files_aligned Toy.io_decode
                  (Output.NBestSeparateOutputHandler.open_file
                     (Output.NBestSeparateOutputHandler.init "nbest" 3))
                  Toy.all_hypos None [""; ""; ""] eq_refl Hall)).
Defined.

Example separate_files_ex :
  (Output.NBestSeparateOutputHandler.write_hypos Toy.io_decode
     Toy.all_hypos None
     (Output.NBestSeparateOutputHandler.open_file
        (Output.NBestSeparateOutputHandler.init "nbest" 3))).2
  = Output.NBestSeparateOutputHandler.mk
      ["nbest_0.txt"; "nbest_1.txt"; "nbest_2.txt"]
      (Some [ "5 9 2" +:+ nl +:+ "5 2" +:+ nl +:+ "9 2" +:+ nl;
              "5 2" +:+ nl +:+ "5 2" +:+ nl +:+ "5 9 2" +:+ nl;
              "9 2" +:+ nl +:+ "5 2" +:+ nl +:+ "5 9 2" +:+ nl ]).
Proof. vm_compute. reflexivity. Qed.

(** [__init__] does not assign [self.f]: on a handler that nobody opened,
    the test [not self.f] raises. *)
Example separate_files_unopened :
  (Output.NBestSeparateOutputHandler.write_hypos Toy.io_decode
     Toy.all_hypos None
     (Output.NBestSeparateOutputHandler.init "nbest" 3)).1
  = Raises (AttributeError "f").
Proof. vm_compute. reflexivity. Qed.

(** ** The n-gram handler: the dictionary of n-grams *)

#[local] Abbreviation mark := Output.NgramOutputHandler.mark.
#[local] Abbreviation indices_of := Output.NgramOutputHandler.indices_of.

Lemma indices_of_mark (k k' : string) (i : Z) (d : list (string * list Z)) :
  indices_of k' (mark k i d)
  = if decide (k = k')
    then (if decide (i ∈ indices_of k d) then indices_of k d
          else indices_of k d ++ [i])
    else indices_of k' d.
Proof.
  induction d as [|[k0 ixs] d IH].
  - cbn. destruct (decide (k = k')); [|done].
    rewrite decide_False; [done|]. apply not_elem_of_nil.
  - cbn [Output.NgramOutputHandler.mark Output.NgramOutputHandler.indices_of].
    destruct (decide (k0 = k)) as [->|Hk0].
    + cbn [Output.NgramOutputHandler.indices_of].
      destruct (decide (k = k')); [|done]. by destruct (decide (i ∈ ixs)).
    + cbn [Output.NgramOutputHandler.indices_of].
      destruct (decide (k0 = k')) as [->|Hk0'].
      * by rewrite decide_False by done.
      * apply IH.
Qed.

Lemma keys_mark (k : string) (i : Z) (d : list (string * list Z)) :
  NoDup d.*1 → NoDup (mark k i d).*1 ∧ ∀ k', k' ∈ (mark k i d).*1 → k' = k ∨ k' ∈ d.*1.
Proof.
  induction d as [|[k0 ixs] d IH]; intros Hnd.
  - cbn. split; [apply NoDup_singleton|]. intros k' Hk'.
    apply list_elem_of_singleton in Hk'. by left.
  - cbn [Output.NgramOutputHandler.mark].
    destruct (decide (k0 = k)) as [->|Hk0]; cbn [fmap list_fmap fst].
    + split; [done|]. intros k' Hk'. by right.
    + apply NoDup_cons in Hnd as [Hk0d Hnd]. cbn [fst] in *.
      destruct (IH Hnd) as [IH1 IH2]. split.
      * apply NoDup_cons. split; [|done]. intros Hin.
        destruct (IH2 _ Hin) as [->|Hin']; done.
      * intros k' Hk'. apply elem_of_cons in Hk' as [->|Hk'].
        -- right. left.
        -- destruct (IH2 _ Hk') as [->|Hin']; [by left|]. right. by right.
Qed.

Lemma entry_indices (k : string) (ixs : list Z) (d : list (string * list Z)) :
  NoDup d.*1 → (k, ixs) ∈ d → indices_of k d = ixs.
Proof.
  induction d as [|[k0 ixs0] d IH]; intros Hnd Hin.
  - by apply elem_of_nil in Hin.
  - apply NoDup_cons in Hnd as [Hk0 Hnd]. cbn [fst] in *.
    cbn [Output.NgramOutputHandler.indices_of].
    apply elem_of_cons in Hin as [Heq|Hin].
    + injection Heq as -> ->. by rewrite decide_True.
    + rewrite decide_False; [by apply IH|]. intros ->. apply Hk0.
      apply list_elem_of_fmap. by exists (k, ixs).
Qed.

(** Marking the keys [ks] for hypothesis [m], which no key lists yet, adds
    [m] once to each of these keys and leaves the others alone. *)
Lemma indices_of_marks (ks : list string) (m : Z) (d : list (string * list Z)) :
  (∀ k, m ∉ indices_of k d) →
  ∀ k, indices_of k (fold_left (λ d k, mark k m d) ks d)
       = if decide (k ∈ ks) then indices_of k d ++ [m] else indices_of k d.
Proof.
  intros Hfresh. induction ks as [|k1 ks IH] using rev_ind; intros k.
  - cbn. rewrite decide_False; [done|]. apply not_elem_of_nil.
  - rewrite fold_left_app. cbn [fold_left]. rewrite indices_of_mark.
    destruct (decide (k1 = k)) as [->|Hne].
    + rewrite IH. rewrite (decide_True (P := k ∈ ks ++ [k]))
        by (apply elem_of_app; right; left).
      destruct (decide (k ∈ ks)).
      * rewrite decide_True; [done|]. apply elem_of_app. right. left.
      * rewrite decide_False; [done|]. apply Hfresh.
    + rewrite IH. destruct (decide (k ∈ ks)) as [Hin|Hnin].
      * rewrite decide_True; [done|]. apply elem_of_app. by left.
      * rewrite decide_False; [done|]. intros Hin.
        apply elem_of_app in Hin as [Hin|Hin]; [done|].
        apply list_elem_of_singleton in Hin. done.
Qed.

Lemma keys_marks (ks : list string) (m : Z) (d : list (string * list Z)) :
  NoDup d.*1 → NoDup (fold_left (λ d k, mark k m d) ks d).*1.
Proof.
  revert d; induction ks as [|k ks IH]; intros d Hnd; [done|].
  cbn [fold_left]. apply IH. by apply keys_mark.
Qed.

Lemma elem_of_range (lo hi x : Z) : lo ≤ x < hi → x ∈ range lo hi.
Proof.
  intros Hx. unfold range. apply list_elem_of_fmap.
  exists (Z.to_nat (x - lo)). split; [lia|].
  apply elem_of_seq. lia.
Qed.

Lemma fold_marks_map {A} (g : A → string) (m : Z) (xs : list A)
    (d : list (string * list Z)) :
  fold_left (λ d x, mark (g x) m d) xs d
  = fold_left (λ d k, mark k m d) (map g xs) d.
Proof. revert d; induction xs as [|x xs IH]; intros d; [done|]. apply IH. Qed.

Lemma fold_marks_nested {A B} (g : A → B → string) (m : Z) (xs : list A)
    (ys : list B) (d : list (string * list Z)) :
  fold_left (λ d x, fold_left (λ d y, mark (g x y) m d) ys d) xs d
  = fold_left (λ d k, mark k m d) (flat_map (λ x, map (g x) ys) xs) d.
Proof.
  revert d; induction xs as [|x xs IH]; intros d; [done|].
  cbn [fold_left flat_map]. rewrite fold_left_app, IH.
  by rewrite (fold_marks_map (g x)).
Qed.

Section CollectFacts.
Context {F : Type}.
Variable GO_ID EOS_ID : Z.

#[local] Abbreviation collect_hypo :=
  (@Output.NgramOutputHandler.collect_hypo F GO_ID EOS_ID).
#[local] Abbreviation collect :=
  (@Output.NgramOutputHandler.collect F GO_ID EOS_ID).
#[local] Abbreviation keys self hypo :=
  (Described.ngrams_of (Output.NgramOutputHandler.min_order self)
     (Output.NgramOutputHandler.max_order self)
     ([GO_ID] ++ Output.trgt_sentence hypo ++ [EOS_ID])).

Lemma collect_hypo_marks self d m (hypo : Output.FullHypothesis F) :
  collect_hypo self d (m, hypo)
  = fold_left (λ d k, mark k m d) (keys self hypo) d.
Proof.
  unfold Output.NgramOutputHandler.collect_hypo, Described.ngrams_of.
  cbv zeta.
  apply (fold_marks_nested
           (λ pos order, Output.NgramOutputHandler.ngram_of
                           (slice_to pos ([GO_ID] ++ Output.trgt_sentence hypo
                                          ++ [EOS_ID])) order)).
Qed.

(** With order 1 among the orders, every hypothesis yields the n-gram that
    consists of the end-of-sequence symbol alone. *)
Lemma eos_unigram_extracted self (hypo : Output.FullHypothesis F) :
  Output.NgramOutputHandler.min_order self ≤ 1
    ≤ Output.NgramOutputHandler.max_order self →
  str_int EOS_ID ∈ keys self hypo.
Proof.
  intros Horder. unfold Described.ngrams_of.
  set (sen_eos := [GO_ID] ++ Output.trgt_sentence hypo ++ [EOS_ID]).
  apply list_elem_of_In, in_flat_map.
  exists (Z.of_nat (length sen_eos)). split.
  { apply list_elem_of_In, elem_of_range. subst sen_eos.
    rewrite !length_app. simpl. lia. }
  apply list_elem_of_In, list_elem_of_fmap. exists 1. split.
  2:{ apply elem_of_range. lia. }
  unfold Output.NgramOutputHandler.ngram_of, slice_to, slice_from; cbv zeta.
  change (Z.opp 1) with (-1).
  assert (length sen_eos = S (S (length (Output.trgt_sentence hypo)))) as Hlen
    by (subst sen_eos; rewrite !length_app; simpl; lia).
  destruct (Z.ltb_spec (Z.of_nat (length sen_eos)) 0); [lia|].
  rewrite Z.min_id, Nat2Z.id, firstn_all.
  destruct (Z.ltb_spec (-1) 0); [|lia].
  replace (Z.to_nat (Z.max 0 (-1 + Z.of_nat (length sen_eos))))
    with (length ([GO_ID] ++ Output.trgt_sentence hypo))
    by (rewrite Hlen, length_app; simpl; lia).
  subst sen_eos. rewrite app_assoc, drop_app_length. reflexivity.
Qed.

Lemma collect_snoc self (hypos : list (Output.FullHypothesis F)) hypo :
  collect self (hypos ++ [hypo])
  = collect_hypo self (collect self hypos) (Z.of_nat (length hypos), hypo).
Proof.
  unfold Output.NgramOutputHandler.collect.
  rewrite !enumerate_imap, imap_app, fold_left_app. cbn [imap fold_left].
  by rewrite Nat.add_0_r.
Qed.

(** The dictionary after the collecting loops: its keys are distinct, it
    lists only hypotheses of the n-best list, and under the n-gram of the
    end-of-sequence symbol it lists all of them, in order. *)
Lemma collect_indices self (hypos : list (Output.FullHypothesis F)) :
  NoDup (collect self hypos).*1
  ∧ (∀ k i, i ∈ indices_of k (collect self hypos) →
            0 ≤ i < Z.of_nat (length hypos))
  ∧ (Output.NgramOutputHandler.min_order self ≤ 1
       ≤ Output.NgramOutputHandler.max_order self →
     indices_of (str_int EOS_ID) (collect self hypos)
     = map Z.of_nat (seq 0 (length hypos))).
Proof.
  induction hypos as [|hypo hypos (Hnd & Hbound & Heos)] using rev_ind.
  { split; [apply NoDup_nil_2|]. split; [|done].
    intros k i Hi. by apply elem_of_nil in Hi. }
  rewrite collect_snoc, collect_hypo_marks, length_app. cbn [length].
  assert (∀ k, Z.of_nat (length hypos) ∉ indices_of k (collect self hypos))
    as Hfresh by (intros k Hin; apply Hbound in Hin; lia).
  split; [by apply keys_marks|]. split.
  - intros k i. rewrite indices_of_marks by done.
    destruct (decide (k ∈ keys self hypo)); intros Hi.
    + apply elem_of_app in Hi as [Hi|Hi]; [apply Hbound in Hi; lia|].
      apply list_elem_of_singleton in Hi. lia.
    + apply Hbound in Hi. lia.
  - intros Horder. rewrite indices_of_marks by done.
    rewrite decide_True by (by apply eos_unigram_extracted).
    rewrite Heos by done. by rewrite seq_app, map_app.
Qed.

End CollectFacts.

(** ** The n-gram handler *)

Lemma comprehension_index_total {A} (l : list A) (ixs : list Z) :
  Forall (λ i, 0 ≤ i < Z.of_nat (length l)) ixs →
  ∃ xs, Output.comprehension (index l) ixs = Returns xs.
Proof.
  induction 1 as [|i ixs Hi _ [xs IH]]; [by exists []|].
  destruct (lookup_lt_is_Some_2 l (Z.to_nat i)) as [x Hx]; [lia|].
  exists (x :: xs). cbn [Output.comprehension].
  rewrite <- (Z2Nat.id i) at 1 by lia.
  by rewrite (index_in_range l _ x Hx), IH.
Qed.

Lemma comprehension_index_all {A} (l : list A) :
  Output.comprehension (index l) (map Z.of_nat (seq 0 (length l)))
  = Returns l.
Proof.
  rewrite (comprehension_imap (index l) (λ _ x, x) l 0).
  - by rewrite imap_id.
  - intros i x Hx. by apply index_in_range.
Qed.

Lemma comprehension_each {A B} (g : A → outcome B) (xs : list A) :
  (∀ x, x ∈ xs → ∃ y, g x = Returns y) →
  ∃ ys, Output.comprehension g xs = Returns ys
        ∧ ∀ y, y ∈ ys → ∃ x, x ∈ xs ∧ g x = Returns y.
Proof.
  induction xs as [|x xs IH]; intros Hg.
  - exists []. split; [done|]. intros y Hy. by apply elem_of_nil in Hy.
  - destruct (Hg x) as [y Hy]; [left|].
    destruct IH as (ys & Hys & Hsrc); [intros; apply Hg; by right|].
    exists (y :: ys). cbn [Output.comprehension]. rewrite Hy, Hys.
    split; [done|]. intros y' Hy'. apply elem_of_cons in Hy' as [->|Hy'].
    + exists x. split; [left | done].
    + destruct (Hsrc y' Hy') as (x' & Hx' & Hgx'). exists x'.
      split; [by right | done].
Qed.

Section NgramFacts.
Context {F : Type}.
Variable f_exp : F → F.
Variable f_lt : F → F → bool.
Variable f_one : F.
Variable fmt_f : F → string.
Variable log_sum : list F → F.

#[local] Abbreviation posterior :=
  (Output.NgramOutputHandler.posterior f_exp f_lt f_one log_sum).


End NgramFacts.

(** The dictionary of the two-hypothesis list [5 2] and [9 2] for orders 1
    and 2, with start symbol 1 and end symbol 2: every hypothesis is listed
    under ["2"]. *)
Example collect_ex :
  Output.NgramOutputHandler.collect 1 2
    (Output.NgramOutputHandler.mk "ngrams" 1 2) [Toy.hypo_b; Toy.hypo_c]
  = [("1", [0; 1]); ("5", [0]); ("1 5", [0]); ("2", [0; 1]); ("5 2", [0]);
     ("2 2", [0; 1]); ("9", [1]); ("1 9", [1]); ("9 2", [1])].
Proof. vm_compute. reflexivity. Qed.

(** Without order 1 the key ["2"] can still arise, from the slice
    [hist[1:]] of order [-1], and then lists only the hypotheses with an
    empty sentence. *)
Example collect_without_unigrams :
  Output.NgramOutputHandler.indices_of "2"
    (Output.NgramOutputHandler.collect 1 2
       (Output.NgramOutputHandler.mk "ngrams" (-1) 0)
       [Output.mkHypothesis [] 0 []; Toy.hypo_c])
  = [0].
Proof. vm_compute. reflexivity. Qed.

(** * Further properties of the code *)

(** ** Loops in general *)

Lemma for_each_fold {Σ A} (xs : list A) (body : A → M Σ unit)
    (step : Σ → A → Σ) :
  (∀ x σ, x ∈ xs → body x σ = (Returns tt, step σ x)) →
  ∀ σ, Output.for_each xs body σ = (Returns tt, fold_left step xs σ).
Proof.
  induction xs as [|x xs IH]; intros Hbody σ; [done|].
  cbn [Output.for_each fold_left]. unfold mbind, M_bind, bind.
  rewrite Hbody by left. apply IH. intros; apply Hbody; by right.
Qed.

(** A loop whose body raises at [x] stops there: the turns before [x] have
    taken effect, the turns after it never run. *)
Lemma for_each_raises {Σ A} (pre post : list A) (x : A)
    (body : A → M Σ unit) (step : Σ → A → Σ) (e : exn) (stop : Σ → Σ) :
  (∀ y σ, y ∈ pre → body y σ = (Returns tt, step σ y)) →
  (∀ σ, body x σ = (Raises e, stop σ)) →
  ∀ σ, Output.for_each (pre ++ x :: post) body σ
       = (Raises e, stop (fold_left step pre σ)).
Proof.
  induction pre as [|y pre IH]; intros Hpre Hx σ.
  - cbn [app Output.for_each fold_left]. unfold mbind, M_bind, bind.
    by rewrite Hx.
  - cbn [app Output.for_each fold_left]. unfold mbind, M_bind, bind.
    rewrite Hpre by left. apply IH; [|done].
    intros; apply Hpre; by right.
Qed.

Lemma index_out_of_range {A} (l : list A) (i : nat) :
  (length l ≤ i)%nat → index l (Z.of_nat i) = Raises IndexError.
Proof.
  intros Hi. unfold index; cbv zeta.
  destruct (Z.ltb_spec (Z.of_nat i) 0); [lia|].
  destruct (Z.ltb_spec (Z.of_nat i) 0); [lia|].
  destruct (Z.leb_spec (Z.of_nat (length l)) (Z.of_nat i)); [done|lia].
Qed.

Lemma concat_str_app (xs ys : list string) :
  Described.concat_str (xs ++ ys)
  = Described.concat_str xs +:+ Described.concat_str ys.
Proof.
  induction xs as [|x xs IH]; [done|].
  cbn [app Described.concat_str foldr]. unfold Described.concat_str in IH.
  by rewrite IH, str_app_assoc.
Qed.

(** ** Forced decoding, further *)

Section ReferenceMore.
Context {F Snap D Full : Type}.
Variable f_zero : F.
Variable f_add : F → F → F.
Variable EOS_ID : Z.
Variable binary_search : list Z → pyobj → outcome Z.
Variable max_ : list F → outcome F.
Variable initialize_predictors : list Z → D → D.
Variable get_predictor_states : D → Snap.
Variable set_predictor_states : Snap → D → D.
Variable apply_predictors : D → (list Z * list F * list (list (F * F))) * D.
Variable consume : Z → D → D.
Variable get_adjusted_score : D → @Reference.PartialHypothesis F Snap → F.
Variable generate_full_hypothesis : @Reference.PartialHypothesis F Snap → Full.
Variable add_full_hypo : Full → D → D.
Variable get_full_hypos_sorted : D → list Full.

(** X1.  A hypothesis whose prefix is already as long as the target makes
    [_expand_hypo] raise [IndexError] at line 40, whatever the module
    namespace holds: the ensemble has been restored to the hypothesis's
    snapshot, but it is not asked for scores and the hypothesis is not
    touched. *)
Theorem expand_hypo_past_target (globals : gmap string pyobj)
    (self : @Reference.ReferenceDecoder D)
    (hypo : @Reference.PartialHypothesis F Snap) :
  (length (Reference.self_trgt_sentence self)
   ≤ length (Reference.trgt_sentence hypo))%nat →
  Reference._expand_hypo f_add binary_search max_ get_predictor_states
    set_predictor_states apply_predictors consume globals (self, hypo)
  = (Raises IndexError,
     (Reference.mkDecoder
        (set_predictor_states (Reference.predictor_states hypo)
           (Reference.base self))
        (Reference.self_trgt_sentence self),
      hypo)).
Proof.
  intros Hlen.
  unfold Reference._expand_hypo, mbind, M_bind, bind, gets, modify, lift,
    Reference.on_base; cbn [fst snd Reference.base Reference.self_trgt_sentence].
  by rewrite index_out_of_range.
Qed.

(** X2.  What [decode] leaves behind when it fails: the target with the
    end-of-sequence symbol appended, whether or not it was there already,
    and an ensemble that was initialised, restored to its initial snapshot
    and asked for scores once.  No symbol was consumed and no finished
    hypothesis was added. *)
Theorem decode_leaves_decoder (src trgt : list Z)
    (self : @Reference.ReferenceDecoder D) (fuel : nat) :
  let d0 := initialize_predictors src (Reference.base self) in
  (Reference.decode f_zero f_add EOS_ID binary_search max_
     initialize_predictors get_predictor_states set_predictor_states
     apply_predictors consume get_adjusted_score generate_full_hypothesis
     add_full_hypo get_full_hypos_sorted Reference.module_globals (S fuel)
     src trgt self).2
  = Reference.mkDecoder
      (apply_predictors (set_predictor_states (get_predictor_states d0) d0)).2
      (trgt ++ [EOS_ID]).
Proof.
  cbv zeta. unfold Reference.decode.
  cbn [Reference.decode_loop Reference.base Reference.self_trgt_sentence].
  unfold mbind at 1, M_bind at 1, bind at 1. unfold gets at 1. cbn [snd].
  destruct (decide _) as [Heq|_]; [discriminate Heq|].
  unfold mbind at 1, M_bind at 1, bind at 1.
  rewrite expand_hypo_run.
  cbn [Reference.self_trgt_sentence Reference.base Reference.trgt_sentence
       Reference.new_hypothesis Reference.predictor_states length].
  replace (index (trgt ++ [EOS_ID]) (Z.of_nat 0))
    with (Returns (default EOS_ID (head trgt)))
    by (symmetry; apply (index_in_range _ 0%nat); by destruct trgt).
  reflexivity.
Qed.

End ReferenceMore.

Lemma expand_hypo_past_target_witness :
  (length [5; 2] ≤ length [5; 2])%nat
  ∧ Toy._expand_hypo Reference.module_globals
      (Reference.mkDecoder [] [5; 2], Reference.mkPartial [5; 2] [5; 2] (-4) [])
    = (Raises IndexError,
       (Reference.mkDecoder [5; 2] [5; 2],
        Reference.mkPartial [5; 2] [5; 2] (-4) [])).
Proof.
  split; [apply le_n|].
  exact (expand_hypo_past_target Z.add Toy.binary_search Toy.max_
           (λ d, d) (λ s _, s) Toy.apply_predictors Toy.consume
           Reference.module_globals
           (Reference.mkDecoder [] [5; 2])
           (Reference.mkPartial [5; 2] [5; 2] (-4) []) (le_n 2)).
Defined.

(** ** The text handler *)

Section TextFacts.
Context {F : Type}.
Variable io_decode : list Z → string.

#[local] Abbreviation text_mk := (@Output.TextOutputHandler.mk).
#[local] Abbreviation text_write_hypos :=
  (@Output.TextOutputHandler.write_hypos F io_decode).

Lemma rank_line_head (h : Output.FullHypothesis F) hs :
  Described.rank_line io_decode 0 (h :: hs)
  = io_decode (Output.trgt_sentence h) +:+ nl.
Proof. reflexivity. Qed.

(** One turn of the loop on the open file. *)
Lemma text_turn (p c : string) (disk : gmap string string)
    (hypos : list (Output.FullHypothesis F)) :
  hypos ≠ [] →
  (hypo ← lift (index hypos 0);
   Output.TextOutputHandler.write_open (io_decode (Output.trgt_sentence hypo));;
   Output.TextOutputHandler.write_open nl;;
   Output.TextOutputHandler.flush)
    (text_mk p (Output.TextOutputHandler.Bound (Some c)), disk)
  = (Returns tt,
     (text_mk p (Output.TextOutputHandler.Bound
                   (Some (c +:+ Described.rank_line io_decode 0 hypos))),
      disk)).
Proof.
  destruct hypos as [|h hs]; [done|]. intros _.
  rewrite rank_line_head.
  unfold mbind, M_bind, bind, lift. rewrite index_head.
  unfold Output.TextOutputHandler.write_open, Output.TextOutputHandler.flush,
    mbind, M_bind, bind, get, modify;
    cbn [fst snd Output.TextOutputHandler.f Output.TextOutputHandler.path].
  by rewrite str_app_assoc.
Qed.

(** X3.  On an open file and for n-best lists none of which is empty, the
    text handler appends one line per input, the text of its first
    hypothesis: what the per-rank handler writes to its file of rank 0. *)
Theorem text_handler_first_best (p c : string) (disk : gmap string string)
    (all_hypos : list (list (Output.FullHypothesis F)))
    (sen_indices : option (list Z)) :
  Forall (λ hypos, hypos ≠ []) all_hypos →
  text_write_hypos all_hypos sen_indices
    (text_mk p (Output.TextOutputHandler.Bound (Some c)), disk)
  = (Returns tt,
     (text_mk p (Output.TextOutputHandler.Bound
                   (Some (c +:+ Described.rank_file io_decode 0 all_hypos))),
      disk)).
Proof.
  intros Hall. unfold Output.TextOutputHandler.write_hypos.
  unfold mbind at 1, M_bind at 1, bind at 1, gets at 1.
  cbn [fst Output.TextOutputHandler.f].
  revert c. induction Hall as [|hypos all_hypos Hne _ IH]; intros c.
  - cbn. by rewrite str_app_nil_r.
  - cbn [Output.for_each]. unfold mbind at 1, M_bind at 1, bind at 1.
    rewrite (text_turn p c disk hypos Hne), IH.
    unfold Described.rank_file. cbn [map Described.concat_str foldr].
    by rewrite str_app_assoc.
Qed.

(** X4.  When [self.f] is [None], the handler opens the file itself, but
    still flushes [self.f]: with a first input that has a hypothesis it
    raises [AttributeError] after the first line, and that line is all the
    file holds, however many inputs follow. *)
Theorem text_handler_none_file (p : string) (disk : gmap string string)
    (h : Output.FullHypothesis F) (hs : list (Output.FullHypothesis F))
    (rest : list (list (Output.FullHypothesis F)))
    (sen_indices : option (list Z)) :
  text_write_hypos ((h :: hs) :: rest) sen_indices
    (text_mk p (Output.TextOutputHandler.Bound None), disk)
  = (Raises (AttributeError "flush"),
     (text_mk p (Output.TextOutputHandler.Bound None),
      <[p := io_decode (Output.trgt_sentence h) +:+ nl]> disk)).
Proof.
  unfold Output.TextOutputHandler.write_hypos.
  unfold mbind at 1, M_bind at 1, bind at 1, gets at 1.
  cbn [fst Output.TextOutputHandler.f Output.TextOutputHandler.path
       Output.for_each].
  unfold mbind, M_bind, bind, modify, lift. rewrite index_head.
  unfold Output.TextOutputHandler.write_at, Output.TextOutputHandler.flush,
    mbind, M_bind, bind, get, modify;
    cbn [fst snd Output.TextOutputHandler.f].
  rewrite !lookup_insert_eq, !insert_insert_eq. reflexivity.
Qed.

(** X5.  An empty n-best list stops the text handler with [IndexError]:
    the lines of the inputs before it are written, those of the inputs
    after it are not. *)
Theorem text_handler_empty_list (p c : string) (disk : gmap string string)
    (before after : list (list (Output.FullHypothesis F)))
    (sen_indices : option (list Z)) :
  Forall (λ hypos, hypos ≠ []) before →
  text_write_hypos (before ++ [] :: after) sen_indices
    (text_mk p (Output.TextOutputHandler.Bound (Some c)), disk)
  = (Raises IndexError,
     (text_mk p (Output.TextOutputHandler.Bound
                   (Some (c +:+ Described.rank_file io_decode 0 before))),
      disk)).
Proof.
  intros Hall. unfold Output.TextOutputHandler.write_hypos.
  unfold mbind at 1, M_bind at 1, bind at 1, gets at 1.
  cbn [fst Output.TextOutputHandler.f].
  revert c. induction Hall as [|hypos before Hne _ IH]; intros c.
  - cbn. by rewrite str_app_nil_r.
  - cbn [app Output.for_each]. unfold mbind at 1, M_bind at 1, bind at 1.
    rewrite (text_turn p c disk hypos Hne), IH.
    unfold Described.rank_file. cbn [map Described.concat_str foldr].
    by rewrite str_app_assoc.
Qed.

End TextFacts.

Lemma text_handler_first_best_witness :
  Forall (λ hypos : list (Output.FullHypothesis Z), hypos ≠ []) Toy.all_hypos
  ∧ Output.TextOutputHandler.write_hypos Toy.io_decode Toy.all_hypos None
      (Output.TextOutputHandler.mk "out.txt"
         (Output.TextOutputHandler.Bound (Some "")), ∅)
    = (Returns tt,
       (Output.TextOutputHandler.mk "out.txt"
          (Output.TextOutputHandler.Bound
             (Some ("" +:+ Described.rank_file Toy.io_decode 0 Toy.all_hypos))),
        ∅)).
Proof.
  assert (Forall (λ hypos : list (Output.FullHypothesis Z), hypos ≠ [])
            Toy.all_hypos) as Hall
    by (repeat constructor; discriminate).
  split; [exact Hall|].
  exact (text_handler_first_best Toy.io_decode "out.txt" "" ∅ Toy.all_hypos
           None Hall).
Defined.

Lemma text_handler_empty_list_witness :
  Forall (λ hypos : list (Output.FullHypothesis Z), hypos ≠ []) [[Toy.hypo_b]]
  ∧ Output.TextOutputHandler.write_hypos Toy.io_decode
      ([[Toy.hypo_b]] ++ [] :: [[Toy.hypo_c]]) None
      (Output.TextOutputHandler.mk "out.txt"
         (Output.TextOutputHandler.Bound (Some "")), ∅)
    = (Raises IndexError,
       (Output.TextOutputHandler.mk "out.txt"
          (Output.TextOutputHandler.Bound
             (Some ("" +:+ Described.rank_file Toy.io_decode 0
                             [[Toy.hypo_b]]))),
        ∅)).
Proof.
  assert (Forall (λ hypos : list (Output.FullHypothesis Z), hypos ≠ [])
            [[Toy.hypo_b]]) as Hall
    by (repeat constructor; discriminate).
  split; [exact Hall|].
  exact (text_handler_empty_list Toy.io_decode "out.txt" "" ∅ [[Toy.hypo_b]]
           [[Toy.hypo_c]] None Hall).
Defined.

Example text_handler_ex :
  (Output.TextOutputHandler.write_hypos Toy.io_decode Toy.all_hypos None
     (Output.TextOutputHandler.open_file
        (Output.TextOutputHandler.init "out.txt", ∅)).2).2.1
  = Output.TextOutputHandler.mk "out.txt"
      (Output.TextOutputHandler.Bound
         (Some ("5 9 2" +:+ nl +:+ "5 2" +:+ nl +:+ "9 2" +:+ nl))).
Proof. vm_compute. reflexivity. Qed.

Example text_handler_unopened :
  (Output.TextOutputHandler.write_hypos Toy.io_decode Toy.all_hypos None
     (Output.TextOutputHandler.init "out.txt", ∅)).1
  = Raises (AttributeError "f").
Proof. vm_compute. reflexivity. Qed.

(** ** The score handler, further *)

Section ScoreMore.
Context `{Output.FloatOps F}.

Lemma comprehension_heads_raise (score : list (list (F * F))) :
  Exists (λ s, s = []) score →
  Output.comprehension (λ s, e ← index s 0; mret (Output.f_str e.1)) score
  = Raises IndexError.
Proof.
  induction score as [|s score IH]; intros Hex.
  - by apply Exists_nil in Hex.
  - cbn [Output.comprehension]. destruct s as [|e s]; [done|].
    rewrite index_head. apply Exists_cons in Hex as [Hex|Hex]; [done|].
    by rewrite IH.
Qed.

(** X6.  When [self.f] is [None], every call of [write_score] opens the
    file anew: after two calls the file holds the line of the second call
    only. *)
Theorem write_score_none_keeps_last (p : string) (disk : gmap string string)
    (score1 score2 : list (list (F * F))) :
  Forall (λ s, s ≠ []) score1 →
  Forall (λ s, s ≠ []) score2 →
  Output.ScoreOutputHandler.write_score score2
    (Output.ScoreOutputHandler.write_score score1
       (Output.ScoreOutputHandler.mk p None, disk)).2
  = (Returns tt,
     (Output.ScoreOutputHandler.mk p None,
      <[p := Described.score_text score2 +:+ nl]> disk)).
Proof.
  intros H1 H2.
  unfold Output.ScoreOutputHandler.write_score,
    Output.ScoreOutputHandler.score_line, mbind, M_bind, bind, gets, lift,
    modify.
  cbn [fst snd Output.ScoreOutputHandler.f Output.ScoreOutputHandler.path].
  rewrite !comprehension_heads by done.
  cbn [mbind Output.outcome_bind mret Output.outcome_ret fst snd
       Output.ScoreOutputHandler.f Output.ScoreOutputHandler.path].
  by rewrite !insert_insert_eq.
Qed.

(** X7.  A breakdown with a step that holds no predictor entry makes
    [write_score] raise [IndexError] before anything is written to the
    open file. *)
Theorem write_score_empty_step_raises (p c : string)
    (disk : gmap string string) (score : list (list (F * F))) :
  Exists (λ s, s = []) score →
  Output.ScoreOutputHandler.write_score score
    (Output.ScoreOutputHandler.mk p (Some c), disk)
  = (Raises IndexError, (Output.ScoreOutputHandler.mk p (Some c), disk)).
Proof.
  intros Hex.
  unfold Output.ScoreOutputHandler.write_score,
    Output.ScoreOutputHandler.score_line, mbind, M_bind, bind, gets, lift.
  cbn [fst snd Output.ScoreOutputHandler.f Output.ScoreOutputHandler.path].
  by rewrite comprehension_heads_raise.
Qed.

End ScoreMore.

Lemma write_score_none_keeps_last_witness :
  Forall (λ s : list (Z * Z), s ≠ []) [[(-1, 1)]; [(-3, 1)]]
  ∧ Forall (λ s : list (Z * Z), s ≠ []) [[(-2, 1)]]
  ∧ Output.ScoreOutputHandler.write_score [[(-2, 1)]]
      (Output.ScoreOutputHandler.write_score [[(-1, 1)]; [(-3, 1)]]
         (Output.ScoreOutputHandler.mk "scores.txt" None, ∅)).2
    = (Returns tt,
       (Output.ScoreOutputHandler.mk "scores.txt" None,
        <["scores.txt" := Described.score_text [[(-2, 1)]] +:+ nl]> ∅)).
Proof.
  assert (Forall (λ s : list (Z * Z), s ≠ []) [[(-1, 1)]; [(-3, 1)]]) as H1
    by (repeat constructor; discriminate).
  assert (Forall (λ s : list (Z * Z), s ≠ []) [[(-2, 1)]]) as H2
    by (repeat constructor; discriminate).
  split; [exact H1|]. split; [exact H2|].
  exact (write_score_none_keeps_last "scores.txt" ∅ _ _ H1 H2).
Defined.

Lemma write_score_empty_step_raises_witness :
  Exists (λ s : list (Z * Z), s = []) [[(-1, 1)]; []]
  ∧ Output.ScoreOutputHandler.write_score [[(-1, 1)]; []]
      (Output.ScoreOutputHandler.mk "scores.txt" (Some "[-4]"), ∅)
    = (Raises IndexError,
       (Output.ScoreOutputHandler.mk "scores.txt" (Some "[-4]"), ∅)).
Proof.
  assert (Exists (λ s : list (Z * Z), s = []) [[(-1, 1)]; []]) as Hex
    by (right; left; reflexivity).
  split; [exact Hex|].
  exact (write_score_empty_step_raises "scores.txt" "[-4]" ∅ _ Hex).
Defined.

(** ** Strings, further *)

Lemma str_length_app (a b : string) :
  String.length (a +:+ b) = (String.length a + String.length b)%nat.
Proof.
  induction a as [|x a IH]; [done|].
  change (S (String.length (a +:+ b))
          = S (String.length a + String.length b)). by rewrite IH.
Qed.

Lemma str_app_inj_r (a b c : string) : a +:+ c = b +:+ c → a = b.
Proof.
  revert b; induction a as [|x a IH]; intros [|y b] Heq; [done| | |].
  - apply (f_equal String.length) in Heq.
    rewrite !str_length_app in Heq. cbn [String.length] in Heq. lia.
  - apply (f_equal String.length) in Heq.
    rewrite !str_length_app in Heq. cbn [String.length] in Heq. lia.
  - change (String x (a +:+ c) = String y (b +:+ c)) in Heq.
    injection Heq as -> Heq. f_equal. by apply IH.
Qed.

(** File names built from a number between a fixed beginning and a fixed
    end differ when the numbers differ. *)
Lemma numbered_name_inj (before after : string) :
  Inj (=) (=) (λ i : Z, before +:+ str_int i +:+ after).
Proof.
  intros i j Heq. apply (inj (String.append before)) in Heq.
  apply str_app_inj_r in Heq. by apply (inj pretty) in Heq.
Qed.

Lemma NoDup_range (lo hi : Z) : NoDup (range lo hi).
Proof.
  unfold range. apply NoDup_fmap_2; [|apply NoDup_seq].
  intros i j Hij. lia.
Qed.

(** ** The per-rank handler, further *)

Section SeparateMore.
Context {F : Type}.
Variable io_decode : list Z → string.

#[local] Abbreviation hypothesis := (Output.FullHypothesis F).

(** X8.  The files of the per-rank handler have pairwise different names,
    so no rank overwrites another. *)
Theorem separate_paths_distinct (path : string) (N : Z) :
  NoDup (Output.NBestSeparateOutputHandler.paths
           (Output.NBestSeparateOutputHandler.init path N)).
Proof.
  cbn [Output.NBestSeparateOutputHandler.init
       Output.NBestSeparateOutputHandler.paths].
  apply NoDup_fmap_2_strong; [|apply NoDup_range].
  intros i j _ _ Heq. apply (inj (String.append path)) in Heq.
  by apply (numbered_name_inj "_" ".txt") in Heq.
Qed.

Lemma each_input_stops (before after : list (list hypothesis))
    (files : list string) :
  files ≠ [] →
  Forall (λ hypos, hypos ≠ []) before →
  Output.NBestSeparateOutputHandler.each_input io_decode
    (before ++ [] :: after) files
  = (Raises IndexError,
     imap (λ i c, c +:+ Described.rank_file io_decode i before) files).
Proof.
  intros Hfiles Hall; revert files Hfiles.
  induction Hall as [|hypos before Hne _ IH]; intros files Hfiles.
  - cbn [app Output.NBestSeparateOutputHandler.each_input].
    unfold mbind, M_bind, bind, gets, lift.
    destruct files as [|c files]; [done|].
    cbn [length Output.NBestSeparateOutputHandler.pad].
    rewrite decide_True by (simpl; lia).
    cbn [mbind Output.outcome_bind]. f_equal.
    rewrite <- (imap_id (c :: files)) at 1.
    apply imap_ext; intros i c' _. by rewrite str_app_nil_r.
  - cbn [app Output.NBestSeparateOutputHandler.each_input].
    unfold mbind, M_bind, bind, gets, lift.
    rewrite pad_enough by (done || lia).
    rewrite (write_ranks_run io_decode (length files)) by done.
    rewrite IH by (by destruct files). rewrite imap_imap. f_equal.
    apply imap_ext; intros i c _.
    unfold Described.rank_file. cbn [map Described.concat_str foldr].
    by rewrite str_app_assoc.
Qed.

(** X9.  With at least one file open, an empty n-best list stops the
    per-rank handler with [IndexError]: every file has received the lines
    of the inputs before the empty list and none of those after it. *)
Theorem separate_empty_list_raises
    (self : Output.NBestSeparateOutputHandler.t)
    (before after : list (list hypothesis)) (sen_indices : option (list Z))
    (files : list string) :
  Output.NBestSeparateOutputHandler.f self = Some files →
  files ≠ [] →
  Forall (λ hypos, hypos ≠ []) before →
  Output.NBestSeparateOutputHandler.write_hypos io_decode
    (before ++ [] :: after) sen_indices self
  = (Raises IndexError,
     Output.NBestSeparateOutputHandler.mk
       (Output.NBestSeparateOutputHandler.paths self)
       (Some (imap (λ i c, c +:+ Described.rank_file io_decode i before)
                   files))).
Proof.
  intros Hf Hfiles Hall.
  unfold Output.NBestSeparateOutputHandler.write_hypos.
  rewrite Hf, decide_False, Hf by done. by rewrite each_input_stops.
Qed.

Lemma padded_shape (n : nat) (hypos : list hypothesis) :
  hypos ≠ [] →
  hypos `prefix_of` Described.padded n hypos
  ∧ length (Described.padded n hypos) = (length hypos `max` n)%nat.
Proof.
  intros Hne. destruct (index_last_elem hypos Hne) as (h & Hlast & _).
  unfold Described.padded. rewrite Hlast. split.
  - by apply prefix_app_r.
  - rewrite length_app, length_replicate. lia.
Qed.

(** X10.  The per-rank handler changes the caller's n-best lists: after
    the call every list begins with its own hypotheses and has at least as
    many entries as there are files; a list that was long enough is as
    long as before. *)
Theorem separate_lists_padded (self : Output.NBestSeparateOutputHandler.t)
    (all_hypos : list (list hypothesis)) (sen_indices : option (list Z))
    (files : list string) :
  Output.NBestSeparateOutputHandler.f self = Some files →
  files ≠ [] →
  Forall (λ hypos, hypos ≠ []) all_hypos →
  ∃ lists,
    (Output.NBestSeparateOutputHandler.write_hypos io_decode all_hypos
       sen_indices self).1 = Returns lists
    ∧ Forall2 (λ old new, old `prefix_of` new
                          ∧ length new = (length old `max` length files)%nat)
              all_hypos lists.
Proof.
  intros Hf Hfiles Hall.
  exists (map (Described.padded (length files)) all_hypos). split.
  - unfold Output.NBestSeparateOutputHandler.write_hypos.
    rewrite Hf, decide_False, Hf by done. by rewrite each_input_run.
  - apply Forall2_fmap_r, Forall_Forall2_diag.
    eapply Forall_impl; [exact Hall|]. intros hypos Hne.
    by apply padded_shape.
Qed.

Lemma rank_file_app (i : nat) (xs ys : list (list hypothesis)) :
  Described.rank_file io_decode i (xs ++ ys)
  = Described.rank_file io_decode i xs +:+ Described.rank_file io_decode i ys.
Proof. unfold Described.rank_file. by rewrite map_app, concat_str_app. Qed.

(** X11.  Two calls in a row write what one call with the inputs of both
    writes: the handler keeps its files open and appends. *)
Theorem separate_calls_compose (self : Output.NBestSeparateOutputHandler.t)
    (first second : list (list hypothesis)) (sen_indices : option (list Z))
    (files : list string) :
  Output.NBestSeparateOutputHandler.f self = Some files →
  Forall (λ hypos, hypos ≠ []) first →
  Forall (λ hypos, hypos ≠ []) second →
  (Output.NBestSeparateOutputHandler.write_hypos io_decode second sen_indices
     (Output.NBestSeparateOutputHandler.write_hypos io_decode first
        sen_indices self).2).2
  = (Output.NBestSeparateOutputHandler.write_hypos io_decode
       (first ++ second) sen_indices self).2.
Proof.
  intros Hf H1 H2.
  assert (Forall (λ hypos : list hypothesis, hypos ≠ []) (first ++ second))
    as H12 by (by apply Forall_app).
  unfold Output.NBestSeparateOutputHandler.write_hypos. rewrite Hf.
  set (opened := if decide (files = [])
                 then map (λ _, "")
                        (Output.NBestSeparateOutputHandler.paths self)
                 else files).
  assert (Output.NBestSeparateOutputHandler.f
            (if decide (files = [])
             then Output.NBestSeparateOutputHandler.open_file self
             else self) = Some opened
          ∧ Output.NBestSeparateOutputHandler.paths
              (if decide (files = [])
               then Output.NBestSeparateOutputHandler.open_file self
               else self)
            = Output.NBestSeparateOutputHandler.paths self) as [Hop Hpaths].
  { subst opened. by destruct (decide (files = [])). }
  rewrite Hop, Hpaths, !each_input_run by done.
  cbn [snd Output.NBestSeparateOutputHandler.f
       Output.NBestSeparateOutputHandler.paths].
  set (files1 := imap _ opened).
  assert (imap (λ i c, c +:+ Described.rank_file io_decode i second) files1
          = imap (λ i c, c +:+ Described.rank_file io_decode i
                                 (first ++ second)) opened) as Hfinal.
  { subst files1. rewrite imap_imap. apply imap_ext; intros i c _.
    by rewrite rank_file_app, str_app_assoc. }
  destruct (decide (files1 = [])) as [Hnil|Hnn].
  - assert (opened = []) as Hopened.
    { apply (f_equal length) in Hnil. subst files1.
      rewrite length_imap in Hnil. by destruct opened. }
    assert (Output.NBestSeparateOutputHandler.paths self = [] ∨ files ≠ [])
      as Hcase.
    { subst opened. destruct (decide (files = [])); [left|by right].
      by destruct (Output.NBestSeparateOutputHandler.paths self). }
    cbn [Output.NBestSeparateOutputHandler.open_file
         Output.NBestSeparateOutputHandler.f
         Output.NBestSeparateOutputHandler.paths].
    rewrite each_input_run by done. cbn [snd]. do 2 f_equal.
    rewrite Hopened. destruct Hcase as [->|Hfiles]; [done|].
    subst opened. by rewrite decide_False in Hopened.
  - cbn [Output.NBestSeparateOutputHandler.f
         Output.NBestSeparateOutputHandler.paths].
    rewrite each_input_run by done. cbn [snd]. by rewrite Hfinal.
Qed.

End SeparateMore.

Lemma toy_lists_nonempty :
  Forall (λ hypos : list (Output.FullHypothesis Z), hypos ≠ []) Toy.all_hypos.
Proof. repeat constructor; discriminate. Defined.

Lemma toy_files_nonempty : [""; ""; ""] ≠ @nil string.
Proof. discriminate. Defined.

Lemma separate_empty_list_raises_witness :
  let self := Output.NBestSeparateOutputHandler.open_file
                (Output.NBestSeparateOutputHandler.init "nbest" 3) in
  Output.NBestSeparateOutputHandler.write_hypos Toy.io_decode
    (Toy.all_hypos ++ [] :: [[Toy.hypo_a]]) None self
  = (Raises IndexError,
     Output.NBestSeparateOutputHandler.mk
       (Output.NBestSeparateOutputHandler.paths self)
       (Some (imap (λ i c, c +:+ Described.rank_file Toy.io_decode i
                                   Toy.all_hypos)
                   [""; ""; ""]))).
Proof.
  exact (separate_empty_list_raises Toy.io_decode
           (Output.NBestSeparateOutputHandler.open_file
              (Output.NBestSeparateOutputHandler.init "nbest" 3))
           Toy.all_hypos [[Toy.hypo_a]] None [""; ""; ""] eq_refl
           toy_files_nonempty toy_lists_nonempty).
Defined.

Lemma separate_lists_padded_witness :
  ∃ lists,
    (Output.NBestSeparateOutputHandler.write_hypos Toy.io_decode Toy.all_hypos
       None
       (Output.NBestSeparateOutputHandler.open_file
          (Output.NBestSeparateOutputHandler.init "nbest" 3))).1
    = Returns lists
    ∧ Forall2 (λ old new, old `prefix_of` new
                          ∧ length new
                            = (length old `max` length [""; ""; ""])%nat)
              Toy.all_hypos lists.
Proof.
  exact (separate_lists_padded Toy.io_decode
           (Output.NBestSeparateOutputHandler.open_file
              (Output.NBestSeparateOutputHandler.init "nbest" 3))
           Toy.all_hypos None [""; ""; ""] eq_refl toy_files_nonempty
           toy_lists_nonempty).
Defined.

Lemma separate_calls_compose_witness :
  let self := Output.NBestSeparateOutputHandler.open_file
                (Output.NBestSeparateOutputHandler.init "nbest" 3) in
  (Output.NBestSeparateOutputHandler.write_hypos Toy.io_decode Toy.all_hypos
     None
     (Output.NBestSeparateOutputHandler.write_hypos Toy.io_decode
        Toy.all_hypos None self).2).2
  = (Output.NBestSeparateOutputHandler.write_hypos Toy.io_decode
       (Toy.all_hypos ++ Toy.all_hypos) None self).2.
Proof.
  exact (separate_calls_compose Toy.io_decode
           (Output.NBestSeparateOutputHandler.open_file
              (Output.NBestSeparateOutputHandler.init "nbest" 3))
           Toy.all_hypos Toy.all_hypos None [""; ""; ""] eq_refl
           toy_lists_nonempty toy_lists_nonempty).
Defined.

Example separate_lists_padded_ex :
  (Output.NBestSeparateOutputHandler.write_hypos Toy.io_decode Toy.all_hypos
     None
     (Output.NBestSeparateOutputHandler.open_file
        (Output.NBestSeparateOutputHandler.init "nbest" 3))).1
  = Returns [ [Toy.hypo_a; Toy.hypo_b; Toy.hypo_c];
              [Toy.hypo_b; Toy.hypo_b; Toy.hypo_b];
              [Toy.hypo_c; Toy.hypo_a; Toy.hypo_a] ].
Proof. vm_compute. reflexivity. Qed.

(** ** Predictor names, further *)

Lemma replace_char_get (old new : ascii) (s : string) (i : nat) :
  String.get i (replace_char old new s)
  = (λ c, if Ascii.eqb c old then new else c) <$> String.get i s.
Proof.
  revert i; induction s as [|c s IH]; intros i; [done|].
  destruct i as [|i]; [done|]. apply IH.
Qed.

Lemma replace_char_id (old new : ascii) (s : string) :
  (∀ i, String.get i s ≠ Some old) → replace_char old new s = s.
Proof.
  induction s as [|c s IH]; intros Hs; [done|].
  cbn [replace_char]. rewrite IH by (intros i; apply (Hs (S i))).
  destruct (Ascii.eqb_spec c old) as [->|_]; [|done].
  by destruct (Hs 0%nat).
Qed.

Lemma occurrences_absent (name : string) (names : list string) :
  name ∉ names → Described.occurrences name names = 0%nat.
Proof.
  intros Hnot. unfold Described.occurrences.
  induction names as [|n names IH]; [done|].
  apply not_elem_of_cons in Hnot as [Hne Hnot].
  rewrite filter_cons, decide_False by done. by apply IH.
Qed.

Lemma occurrences_first (names : list string) (j : nat) (name : string) :
  NoDup names → names !! j = Some name →
  Described.occurrences name (take (S j) names) = 1%nat.
Proof.
  intros Hnd Hj. rewrite (take_S_r _ _ _ Hj), occurrences_snoc.
  rewrite (decide_True (P := name = name)) by done.
  rewrite occurrences_absent; [done|].
  intros Hin. apply list_elem_of_lookup in Hin as [i Hi].
  pose proof (lookup_lt_Some _ _ _ Hi) as Hlt.
  rewrite length_take in Hlt. rewrite lookup_take_lt in Hi by lia.
  assert (i = j) by (by eapply NoDup_lookup). lia.
Qed.

(** The loops of the two [__init__] methods run in step: same counts, and
    the Moses names are the CSV names with the underscores replaced. *)
Lemma name_loops_in_step (l : list string) (name_count : gmap string Z)
    (names : list string) :
  fold_left Output.NBestOutputHandler.name_step l
    (name_count, replace_char "_" "0" <$> names)
  = ((fold_left Output.TimeCSVOutputHandler.name_step l
        (name_count, names)).1,
     replace_char "_" "0"
       <$> (fold_left Output.TimeCSVOutputHandler.name_step l
              (name_count, names)).2).
Proof.
  revert name_count names; induction l as [|name l IH];
    intros name_count names; [done|].
  cbn [fold_left].
  unfold Output.NBestOutputHandler.name_step at 2,
    Output.TimeCSVOutputHandler.name_step at 2 4.
  destruct (name_count !! name) as [c|]; cbv zeta.
  - rewrite <- IH. by rewrite fmap_app.
  - rewrite <- IH. by rewrite fmap_app.
Qed.

(** X12.  The names of the Moses handler are those of the CSV handler with
    every underscore replaced by the digit zero: the two handlers number
    repeated predictors alike. *)
Theorem moses_names_from_csv_names (path path' : string)
    (predictor_names : list string) :
  Output.NBestOutputHandler.predictor_names
    (Output.NBestOutputHandler.init path predictor_names)
  = replace_char "_" "0"
      <$> Output.TimeCSVOutputHandler.predictor_names
            (Output.TimeCSVOutputHandler.init path' predictor_names).
Proof.
  unfold Output.NBestOutputHandler.init, Output.TimeCSVOutputHandler.init.
  cbn [Output.NBestOutputHandler.predictor_names
       Output.TimeCSVOutputHandler.predictor_names].
  by rewrite (name_loops_in_step predictor_names ∅ []).
Qed.

(** X13.  No name of the Moses handler contains an underscore. *)
Theorem moses_names_no_underscore (path : string)
    (predictor_names : list string) (name : string) (i : nat) :
  name ∈ Output.NBestOutputHandler.predictor_names
           (Output.NBestOutputHandler.init path predictor_names) →
  String.get i name ≠ Some "_"%char.
Proof.
  unfold Output.NBestOutputHandler.init.
  cbn [Output.NBestOutputHandler.predictor_names].
  rewrite (name_loops_in_step predictor_names ∅ []). cbn [snd].
  intros Hin. apply list_elem_of_fmap in Hin as (n & -> & _).
  rewrite replace_char_get. destruct (String.get i n) as [c|]; [|done].
  cbn [fmap option_fmap option_map].
  destruct (Ascii.eqb_spec c "_"%char) as [->|Hne]; [done|].
  intros [= ->]. done.
Qed.

(** X14.  Names that are pairwise different and hold no underscore pass
    through the Moses handler unchanged. *)
Theorem moses_names_unchanged (path : string) (predictor_names : list string) :
  NoDup predictor_names →
  (∀ name i, name ∈ predictor_names → String.get i name ≠ Some "_"%char) →
  Output.NBestOutputHandler.predictor_names
    (Output.NBestOutputHandler.init path predictor_names)
  = predictor_names.
Proof.
  intros Hnd Hclean. unfold Output.NBestOutputHandler.init.
  cbn [Output.NBestOutputHandler.predictor_names].
  rewrite (name_loop predictor_names [] ∅ []) by done.
  cbn [app length Nat.add].
  rewrite <- (imap_id predictor_names) at 2.
  apply imap_ext; intros j name Hj. unfold Described.moses_name.
  rewrite (occurrences_first _ _ _ Hnd Hj), decide_True by done.
  apply replace_char_id. intros i. apply Hclean.
  apply list_elem_of_lookup. eauto.
Qed.

Lemma moses_names_no_underscore_witness :
  "length0norm" ∈ Output.NBestOutputHandler.predictor_names
                    (Output.NBestOutputHandler.init "nbest.txt"
                       ["nmt"; "length_norm"; "nmt"])
  ∧ String.get 6 "length0norm" ≠ Some "_"%char.
Proof.
  assert ("length0norm" ∈ Output.NBestOutputHandler.predictor_names
                            (Output.NBestOutputHandler.init "nbest.txt"
                               ["nmt"; "length_norm"; "nmt"])) as Hin
    by (vm_compute; right; left).
  split; [exact Hin|].
  exact (moses_names_no_underscore "nbest.txt" ["nmt"; "length_norm"; "nmt"]
           "length0norm" 6 Hin).
Defined.

Lemma moses_names_unchanged_witness :
  Output.NBestOutputHandler.predictor_names
    (Output.NBestOutputHandler.init "nbest.txt" ["nmt"; "fst"])
  = ["nmt"; "fst"].
Proof.
  refine (moses_names_unchanged "nbest.txt" ["nmt"; "fst"] _ _).
  - apply (bool_decide_unpack _). vm_compute. reflexivity.
  - intros name i Hin. elem_cases Hin.
    + do 4 (destruct i as [|i]; [discriminate|]). discriminate.
    + do 4 (destruct i as [|i]; [discriminate|]). discriminate.
Defined.

(** ** Loops that may raise *)

Lemma zip_take_r {A B} (xs : list A) (ys : list B) :
  zip xs ys = zip xs (take (length xs) ys).
Proof.
  revert ys; induction xs as [|x xs IH]; intros [|y ys]; cbn; try done.
  by rewrite <- IH.
Qed.

Lemma comprehension_raises {A B} (g : A → outcome B) (e : exn)
    (xs : list A) (x : A) :
  (∀ y, y ∈ xs → (∃ z, g y = Returns z) ∨ g y = Raises e) →
  x ∈ xs → g x = Raises e →
  Output.comprehension g xs = Raises e.
Proof.
  induction xs as [|y xs IH]; intros Hall Hin Hx.
  - by apply elem_of_nil in Hin.
  - cbn [Output.comprehension].
    destruct (Hall y) as [[z Hz]| ->]; [left| |done].
    rewrite Hz. cbn [mbind Output.outcome_bind].
    apply elem_of_cons in Hin as [->|Hin]; [congruence|].
    rewrite IH; [done| |done..]. intros; apply Hall; by right.
Qed.

Lemma for_each_must_raise {Σ A} (body : A → M Σ unit) (e : exn)
    (xs : list A) (x : A) :
  (∀ y σ, y ∈ xs → (body y σ).1 = Returns tt ∨ (body y σ).1 = Raises e) →
  x ∈ xs → (∀ σ, (body x σ).1 = Raises e) →
  ∀ σ, (Output.for_each xs body σ).1 = Raises e.
Proof.
  induction xs as [|y xs IH]; intros Hall Hin Hx σ.
  - by apply elem_of_nil in Hin.
  - cbn [Output.for_each]. unfold mbind, M_bind, bind.
    destruct (body y σ) as [r σ'] eqn:Hy.
    destruct (Hall y σ) as [Hr|Hr]; [left| |]; rewrite Hy in Hr;
      cbn [fst] in Hr; subst r; [|done].
    apply elem_of_cons in Hin as [->|Hin].
    + specialize (Hx σ). rewrite Hy in Hx. discriminate Hx.
    + apply IH; [|done..]. intros; apply Hall; by right.
Qed.

Lemma for_each_returns_or_raises {Σ A} (body : A → M Σ unit) (e : exn)
    (xs : list A) :
  (∀ y σ, y ∈ xs → (body y σ).1 = Returns tt ∨ (body y σ).1 = Raises e) →
  ∀ σ, (Output.for_each xs body σ).1 = Returns tt
       ∨ (Output.for_each xs body σ).1 = Raises e.
Proof.
  induction xs as [|y xs IH]; intros Hall σ; [by left|].
  cbn [Output.for_each]. unfold mbind, M_bind, bind.
  destruct (body y σ) as [r σ'] eqn:Hy.
  destruct (Hall y σ) as [Hr|Hr]; [left| |]; rewrite Hy in Hr;
    cbn [fst] in Hr; subst r; [|by right].
  apply IH. intros; apply Hall; by right.
Qed.

(** ** The Moses n-best handler, further *)

Section MosesMore.
Context `{Output.FloatOps F}.
Variable io_decode : list Z → string.

(** X15.  N-best lists for which the caller supplies no sentence index are
    dropped without notice: the handler writes what it writes for the
    lists that have an index. *)
Theorem moses_surplus_lists_dropped (self : Output.NBestOutputHandler.t)
    (all_hypos : list (list (Output.FullHypothesis F)))
    (sen_indices : list Z) (disk : gmap string string) :
  Output.NBestOutputHandler.write_hypos io_decode self all_hypos sen_indices
    disk
  = Output.NBestOutputHandler.write_hypos io_decode self
      (take (length sen_indices) all_hypos) sen_indices disk.
Proof.
  unfold Output.NBestOutputHandler.write_hypos,
    Output.NBestOutputHandler.write_lines.
  by rewrite <- zip_take_r.
Qed.

Lemma predictor_field_outcome (self : Output.NBestOutputHandler.t)
    (hypo : Output.FullHypothesis F) (i : Z) :
  (∃ s, Output.NBestOutputHandler.predictor_field self hypo i = Returns s)
  ∨ Output.NBestOutputHandler.predictor_field self hypo i = Raises IndexError.
Proof.
  unfold Output.NBestOutputHandler.predictor_field.
  destruct (index_returns_or_raises
              (Output.NBestOutputHandler.predictor_names self) i)
    as [[name ->]| ->]; [|by right].
  cbn [mbind Output.outcome_bind].
  induction (Output.score_breakdown hypo) as [|s bd IH].
  { left. eauto. }
  cbn [Output.comprehension].
  destruct (index_returns_or_raises s i) as [[e ->]| ->]; [|by right].
  cbn [mbind Output.outcome_bind].
  destruct (Output.comprehension _ bd) as [xs| |];
    cbn [mbind Output.outcome_bind mret Output.outcome_ret] in *.
  - left. eauto.
  - destruct IH as [[? IH]|IH]; [discriminate IH|]. by right.
  - destruct IH as [[? IH]|IH]; discriminate IH.
Qed.

Lemma predictor_field_short (self : Output.NBestOutputHandler.t)
    (hypo : Output.FullHypothesis F) (s : list (F * F)) :
  s ∈ Output.score_breakdown hypo →
  (length s < length (Output.NBestOutputHandler.predictor_names self))%nat →
  Output.NBestOutputHandler.predictor_field self hypo
    (Z.of_nat (length s)) = Raises IndexError.
Proof.
  intros Hs Hshort. unfold Output.NBestOutputHandler.predictor_field.
  destruct (lookup_lt_is_Some_2
              (Output.NBestOutputHandler.predictor_names self) (length s))
    as [name Hname]; [done|].
  rewrite (index_in_range _ _ _ Hname). cbn [mbind Output.outcome_bind].
  rewrite (comprehension_raises _ IndexError _ s); [done| |done|].
  - intros s' _.
    destruct (index_returns_or_raises s' (Z.of_nat (length s)))
      as [[e ->]| ->]; [left; eauto | by right].
  - by rewrite index_out_of_range.
Qed.

Lemma format_line_outcome (self : Output.NBestOutputHandler.t) (idx : Z)
    (hypo : Output.FullHypothesis F) :
  (∃ s, Output.NBestOutputHandler.format_line io_decode self idx hypo
        = Returns s)
  ∨ Output.NBestOutputHandler.format_line io_decode self idx hypo
    = Raises IndexError.
Proof.
  unfold Output.NBestOutputHandler.format_line. cbv zeta.
  induction (range 0 _) as [|i rest IH].
  { left. eauto. }
  cbn [Output.comprehension].
  destruct (predictor_field_outcome self hypo i) as [[s ->]| ->];
    [|by right].
  cbn [mbind Output.outcome_bind].
  destruct (Output.comprehension _ rest) as [xs| |];
    cbn [mbind Output.outcome_bind mret Output.outcome_ret] in *.
  - left. eauto.
  - destruct IH as [[? IH]|IH]; [discriminate IH|]. by right.
  - destruct IH as [[? IH]|IH]; discriminate IH.
Qed.

Lemma format_line_short (self : Output.NBestOutputHandler.t) (idx : Z)
    (hypo : Output.FullHypothesis F) (s : list (F * F)) :
  s ∈ Output.score_breakdown hypo →
  (length s < length (Output.NBestOutputHandler.predictor_names self))%nat →
  Output.NBestOutputHandler.format_line io_decode self idx hypo
  = Raises IndexError.
Proof.
  intros Hs Hshort. unfold Output.NBestOutputHandler.format_line. cbv zeta.
  rewrite (comprehension_raises _ IndexError _ (Z.of_nat (length s)));
    [done| | |].
  - intros i _. apply predictor_field_outcome.
  - apply elem_of_range. lia.
  - by apply predictor_field_short.
Qed.

(** X16.  One step that holds fewer entries than there are predictor
    names, anywhere in an n-best list that has a sentence index, makes the
    Moses handler raise [IndexError]. *)
Theorem moses_short_step_raises (self : Output.NBestOutputHandler.t)
    (all_hypos : list (list (Output.FullHypothesis F)))
    (sen_indices : list Z) (disk : gmap string string)
    (j : nat) (idx : Z) (hypos : list (Output.FullHypothesis F))
    (hypo : Output.FullHypothesis F) (s : list (F * F)) :
  sen_indices !! j = Some idx →
  all_hypos !! j = Some hypos →
  hypo ∈ hypos →
  s ∈ Output.score_breakdown hypo →
  (length s < length (Output.NBestOutputHandler.predictor_names self))%nat →
  (Output.NBestOutputHandler.write_hypos io_decode self all_hypos sen_indices
     disk).1 = Raises IndexError.
Proof.
  intros Hidx Hhypos Hhypo Hs Hshort.
  assert (∀ idx' (h : Output.FullHypothesis F) (c : string),
    ((line ← lift (Output.NBestOutputHandler.format_line io_decode self
                     idx' h);
      Output.write line;; Output.write nl) c).1 = Returns tt
    ∨ ((line ← lift (Output.NBestOutputHandler.format_line io_decode self
                       idx' h);
        Output.write line;; Output.write nl) c).1 = Raises IndexError)
    as Hline.
  { intros idx' h c. unfold mbind, M_bind, bind, lift.
    destruct (format_line_outcome self idx' h) as [[l ->]| ->];
      [by left | by right]. }
  assert (∀ c, (Output.NBestOutputHandler.write_lines io_decode self
                  all_hypos sen_indices c).1 = Raises IndexError) as Hw.
  { unfold Output.NBestOutputHandler.write_lines.
    apply (for_each_must_raise _ IndexError _ (idx, hypos)).
    - intros [idx' hypos'] c _.
      pose proof (for_each_returns_or_raises _ IndexError hypos'
                    (λ h c' _, Hline idx' h c') c) as Hfe.
      set (loop := Output.for_each hypos' _) in *.
      unfold mbind, M_bind, bind. destruct (loop c) as [r c'].
      cbn [fst] in Hfe. destruct Hfe as [->| ->]; [by left | by right].
    - apply list_elem_of_lookup. exists j. by apply lookup_zip_Some.
    - intros c.
      assert (∀ c', ((line ← lift (Output.NBestOutputHandler.format_line
                                     io_decode self idx hypo);
                      Output.write line;; Output.write nl) c').1
                    = Raises IndexError) as Hhere.
      { intros c'. unfold mbind, M_bind, bind, lift.
        by rewrite (format_line_short self idx hypo s). }
      pose proof (for_each_must_raise _ IndexError hypos hypo
                    (λ h c' _, Hline idx h c') Hhypo Hhere c) as Hfe.
      set (loop := Output.for_each hypos _) in *.
      unfold mbind, M_bind, bind. destruct (loop c) as [r c'].
      cbn [fst] in Hfe. by subst r. }
  unfold Output.NBestOutputHandler.write_hypos. specialize (Hw "").
  destruct (Output.NBestOutputHandler.write_lines _ _ _ _ _) as [r c].
  exact Hw.
Qed.

End MosesMore.

Lemma moses_short_step_raises_witness :
  (Output.NBestOutputHandler.write_hypos Toy.io_decode
     (Output.NBestOutputHandler.init "nbest.txt" ["nmt"; "fst"])
     [[Toy.hypo_b; Output.mkHypothesis [2] (-1) [[(-1, 1)]]]] [0] ∅).1
  = Raises IndexError.
Proof.
  refine (moses_short_step_raises Toy.io_decode
            (Output.NBestOutputHandler.init "nbest.txt" ["nmt"; "fst"])
            [[Toy.hypo_b; Output.mkHypothesis [2] (-1) [[(-1, 1)]]]] [0] ∅
            0 0 [Toy.hypo_b; Output.mkHypothesis [2] (-1) [[(-1, 1)]]]
            (Output.mkHypothesis [2] (-1) [[(-1, 1)]]) [(-1, 1)]
            eq_refl eq_refl _ _ _).
  - right. left.
  - left.
  - vm_compute. lia.
Defined.

(** ** The n-gram handler, further *)

Lemma comprehension_app {A B} (g : A → outcome B) (xs ys : list A)
    (xs' ys' : list B) :
  Output.comprehension g xs = Returns xs' →
  Output.comprehension g ys = Returns ys' →
  Output.comprehension g (xs ++ ys) = Returns (xs' ++ ys').
Proof.
  revert xs'; induction xs as [|x xs IH]; intros xs' Hxs Hys.
  - injection Hxs as <-. done.
  - cbn [app Output.comprehension] in *.
    destruct (g x) as [y| |]; try discriminate Hxs.
    cbn [mbind Output.outcome_bind] in *.
    destruct (Output.comprehension g xs) as [zs| |]; try discriminate Hxs.
    injection Hxs as <-. by rewrite (IH zs).
Qed.

Lemma comprehension_ext {A B} (g g' : A → outcome B) (xs : list A) :
  (∀ x, x ∈ xs → g x = g' x) →
  Output.comprehension g xs = Output.comprehension g' xs.
Proof.
  induction xs as [|x xs IH]; intros Hg; [done|].
  cbn [Output.comprehension]. rewrite Hg by left.
  rewrite IH; [done|]. intros; apply Hg; by right.
Qed.

Lemma index_app_l {A} (l k : list A) (i : Z) :
  0 ≤ i < Z.of_nat (length l) → index (l ++ k) i = index l i.
Proof.
  intros Hi. destruct (lookup_lt_is_Some_2 l (Z.to_nat i)) as [x Hx]; [lia|].
  rewrite <- (Z2Nat.id i) by lia.
  rewrite (index_in_range l _ x Hx).
  apply index_in_range. by rewrite lookup_app_l by lia.
Qed.

Lemma indices_of_mark_nonempty (k k' : string) (i : Z)
    (d : list (string * list Z)) :
  (∀ e, e ∈ d → e.2 ≠ []) → ∀ e, e ∈ mark k i d → e.2 ≠ [].
Proof.
  induction d as [|[k0 ixs] d IH]; intros Hd e He.
  - cbn in He. apply list_elem_of_singleton in He as ->. done.
  - cbn [Output.NgramOutputHandler.mark] in He.
    destruct (decide (k0 = k)) as [->|Hne].
    + apply elem_of_cons in He as [->|He]; [|apply Hd; by right].
      cbn [snd]. destruct (decide (i ∈ ixs)); [apply (Hd (k, ixs)); left|].
      by destruct ixs.
    + apply elem_of_cons in He as [->|He]; [apply (Hd (k0, ixs)); left|].
      apply IH; [|done]. intros; apply Hd; by right.
Qed.

Section NgramMore.
Context {F : Type}.
Variable f_sub : F → F → F.
Variable f_exp : F → F.
Variable f_lt : F → F → bool.
Variable f_one : F.
Variable fmt_f : F → string.
Variable log_sum : list F → F.
Variable GO_ID EOS_ID : Z.

#[local] Abbreviation collect' :=
  (@Output.NgramOutputHandler.collect F GO_ID EOS_ID).
#[local] Abbreviation keys' self hypo :=
  (Described.ngrams_of (Output.NgramOutputHandler.min_order self)
     (Output.NgramOutputHandler.max_order self)
     ([GO_ID] ++ Output.trgt_sentence hypo ++ [EOS_ID])).
#[local] Abbreviation containing' self :=
  (Described.containing (Output.NgramOutputHandler.min_order self)
     (Output.NgramOutputHandler.max_order self) GO_ID EOS_ID).

Lemma collect_nonempty self (hypos : list (Output.FullHypothesis F)) :
  ∀ e, e ∈ collect' self hypos → e.2 ≠ [].
Proof.
  induction hypos as [|hypo hypos IH] using rev_ind.
  { intros e He. by apply elem_of_nil in He. }
  rewrite collect_snoc, collect_hypo_marks.
  induction (keys' self hypo) as [|k ks IHk] using rev_ind; [done|].
  rewrite fold_left_app. cbn [fold_left].
  by apply (indices_of_mark_nonempty k k).
Qed.

(** Reading any list that is aligned with the n-best list at the indices
    recorded for an n-gram yields its entries for the hypotheses that
    contain the n-gram, in order. *)
Lemma read_at_indices {B} (g : Output.FullHypothesis F → B) self
    (hypos : list (Output.FullHypothesis F)) (k : string) :
  Output.comprehension (index (map g hypos))
    (indices_of k (collect' self hypos))
  = Returns (map g (containing' self k hypos)).
Proof.
  induction hypos as [|hypo hypos IH] using rev_ind; [done|].
  destruct (collect_indices GO_ID EOS_ID self hypos) as (_ & Hbound & _).
  rewrite collect_snoc, collect_hypo_marks, indices_of_marks
    by (intros k' Hin; apply Hbound in Hin; lia).
  assert (Output.comprehension (index (map g (hypos ++ [hypo])))
            (indices_of k (collect' self hypos))
          = Returns (map g (containing' self k hypos))) as Hold.
  { rewrite <- IH. apply comprehension_ext. intros i Hi.
    rewrite map_app. apply index_app_l. rewrite length_map.
    by apply (Hbound k). }
  unfold Described.containing. rewrite filter_app, filter_cons, filter_nil.
  destruct (decide (k ∈ keys' self hypo)) as [Hin|Hnin].
  - rewrite (map_app g (filter _ hypos) [hypo]).
    apply comprehension_app; [exact Hold|].
    cbn [Output.comprehension map].
    rewrite (index_in_range _ (length hypos) (g hypo)); [done|].
    change (map g (hypos ++ [hypo])) with (g <$> (hypos ++ [hypo])).
    rewrite list_lookup_fmap, lookup_app_r by done.
    by rewrite Nat.sub_diag.
  - by rewrite app_nil_r.
Qed.

#[local] Abbreviation posteriors' :=
  (Output.NgramOutputHandler.posteriors f_sub f_exp f_lt f_one log_sum
     GO_ID EOS_ID).

Lemma posterior_closed self (hypos : list (Output.FullHypothesis F))
    (k : string) :
  Output.NgramOutputHandler.posterior f_exp f_lt f_one log_sum
    (Output.NgramOutputHandler.normed f_sub log_sum hypos)
    (indices_of k (collect' self hypos))
  = Returns
      (Output.NgramOutputHandler.py_min f_lt f_one
         (f_exp (log_sum
                   (map (λ h, f_sub (Output.total_score h)
                                (log_sum (map Output.total_score hypos)))
                        (containing' self k hypos))))).
Proof.
  unfold Output.NgramOutputHandler.posterior,
    Output.NgramOutputHandler.normed.
  by rewrite read_at_indices.
Qed.

(** The probability of every n-gram, read off the hypotheses that contain
    it. *)
Lemma posteriors_closed self (hypos : list (Output.FullHypothesis F)) :
  let total := log_sum (map Output.total_score hypos) in
  posteriors' self hypos
  = Returns
      (map (λ e : string * list Z,
              (e.1,
               Output.NgramOutputHandler.py_min f_lt f_one
                 (f_exp (log_sum
                           (map (λ h, f_sub (Output.total_score h) total)
                                (containing' self e.1 hypos))))))
           (collect' self hypos)).
Proof.
  cbv zeta. unfold Output.NgramOutputHandler.posteriors.
  destruct (collect_indices GO_ID EOS_ID self hypos) as (Hnd & _ & _).
  assert (∀ e, e ∈ collect' self hypos →
               e.2 = indices_of e.1 (collect' self hypos)) as Hix.
  { intros [k ixs] He. symmetry. by apply entry_indices. }
  revert Hix. generalize (collect' self hypos) at 1 3 4 as d.
  induction d as [|e d IH]; intros Hix; [done|].
  cbn [Output.comprehension map].
  rewrite (Hix e) by left. rewrite posterior_closed.
  cbn [mbind Output.outcome_bind mret Output.outcome_ret].
  rewrite IH by (intros; apply Hix; by right). reflexivity.
Qed.

(** X17.  Reading the normalised scores at the collected indices never
    raises: every distinct n-gram of the dictionary gets exactly one
    probability, in the order in which the n-grams were first met. *)
Theorem ngram_each_written_once self
    (hypos : list (Output.FullHypothesis F)) :
  ∃ entries : list (string * F),
    posteriors' self hypos = Returns entries
    ∧ entries.*1 = (collect' self hypos).*1
    ∧ NoDup entries.*1.
Proof.
  eexists. split; [apply posteriors_closed|].
  destruct (collect_indices GO_ID EOS_ID self hypos) as (Hnd & _ & _).
  assert (∀ (g : string * list Z → F) (d : list (string * list Z)),
            (map (λ e, (e.1, g e)) d).*1 = d.*1) as Hkeys.
  { intros g d. induction d as [|e d IH]; [done|].
    cbn [map fmap list_fmap fst] in *. by rewrite IH. }
  rewrite Hkeys. done.
Qed.

Lemma filter_all {A} (P : A → Prop) `{∀ x, Decision (P x)} (l : list A) :
  Forall P l → filter P l = l.
Proof.
  induction 1 as [|x l Hx _ IH]; [done|].
  rewrite filter_cons, decide_True by done. by f_equal.
Qed.


#[local] Abbreviation whole_list hypos :=
  (Output.NgramOutputHandler.py_min f_lt f_one
     (f_exp (log_sum (Output.NgramOutputHandler.normed f_sub log_sum hypos)))).

(** The value of an n-gram that every hypothesis contains is computed
    from the normalised scores of the whole list. *)
Lemma posterior_of_all self (hypos : list (Output.FullHypothesis F))
    (k : string) :
  Forall (λ hypo, k ∈ keys' self hypo) hypos →
  Output.NgramOutputHandler.py_min f_lt f_one
    (f_exp (log_sum
              (map (λ h, f_sub (Output.total_score h)
                           (log_sum (map Output.total_score hypos)))
                   (containing' self k hypos))))
  = whole_list hypos.
Proof.
  intros Hall. unfold Described.containing. by rewrite filter_all.
Qed.

(** X18.  The value written for an n-gram is computed from the normalised
    scores of exactly the hypotheses that contain the n-gram, each taken
    once and in the order of the n-best list: it is
    [min(1.0, np.exp(utils.log_sum(xs)))] for the list [xs] of these
    scores.  How often the n-gram occurs in a hypothesis plays no part. *)
Theorem ngram_posterior_of_containing self
    (hypos : list (Output.FullHypothesis F)) :
  ∃ entries : list (string * F),
    posteriors' self hypos = Returns entries
    ∧ Forall (λ e : string * F,
                e.2 = Output.NgramOutputHandler.py_min f_lt f_one
                        (f_exp (log_sum
                                  (map (λ h, f_sub (Output.total_score h)
                                               (log_sum (map Output.total_score
                                                             hypos)))
                                       (containing' self e.1 hypos)))))
             entries.
Proof.
  eexists. split; [apply posteriors_closed|].
  apply Forall_forall. intros e He.
  apply list_elem_of_fmap in He as (e0 & -> & _). reflexivity.
Qed.

(** X19.  An n-gram that occurs in every hypothesis of the n-best list is
    written with the value computed from the normalised scores of the
    whole list, [min(1.0, np.exp(utils.log_sum(normed_scores)))]: all such
    n-grams get the same value, the start symbol alone among them. *)
Theorem ngram_in_every_hypothesis self
    (hypos : list (Output.FullHypothesis F)) :
  ∃ entries : list (string * F),
    posteriors' self hypos = Returns entries
    ∧ ∀ e, e ∈ entries →
        Forall (λ hypo, e.1 ∈ keys' self hypo) hypos →
        e.2 = whole_list hypos.
Proof.
  eexists. split; [apply posteriors_closed|].
  intros e He Hall.
  apply list_elem_of_fmap in He as (e0 & -> & _). cbn [fst snd] in *.
  by apply posterior_of_all.
Qed.


End NgramMore.

Lemma comprehension_length {A B} (g : A → outcome B) (xs : list A)
    (ys : list B) :
  Output.comprehension g xs = Returns ys → length ys = length xs.
Proof.
  revert ys; induction xs as [|x xs IH]; intros ys Hys.
  - by injection Hys as <-.
  - cbn [Output.comprehension] in Hys.
    destruct (g x) as [y| |]; try discriminate Hys.
    cbn [mbind Output.outcome_bind] in Hys.
    destruct (Output.comprehension g xs) as [zs| |]; try discriminate Hys.
    injection Hys as <-. cbn [length]. by rewrite (IH zs).
Qed.

(** ** The end-of-sequence unigram outside order 1 *)


(** With the integer stand-ins and the orders 1 and 2, the unigram of the
    end-of-sequence symbol is written with the value of the whole list. *)
Example ngram_toy_ex :
  Output.NgramOutputHandler.posteriors Z.sub Toy.f_exp Z.ltb 1 Toy.log_sum
    1 2 (Output.NgramOutputHandler.mk "ngrams" 1 2) [Toy.hypo_b; Toy.hypo_c]
  = Returns [("1", 1); ("5", 1); ("1 5", 1); ("2", 1); ("5 2", 1);
             ("2 2", 1); ("9", 0); ("1 9", 0); ("9 2", 0)].
Proof. vm_compute. reflexivity. Qed.

(** ** Files named by sentence index *)

Lemma fold_insert_other {A} (key val : A → string) (xs : list A)
    (disk : gmap string string) (k : string) :
  (∀ y, y ∈ xs → key y ≠ k) →
  fold_left (λ d y, <[key y := val y]> d) xs disk !! k = disk !! k.
Proof.
  revert disk; induction xs as [|x xs IH]; intros disk Hk; [done|].
  cbn [fold_left]. rewrite IH by (intros; apply Hk; by right).
  apply lookup_insert_ne, Hk. left.
Qed.

Lemma fold_insert_lookup {A} (key val : A → string) (xs : list A)
    (disk : gmap string string) (j : nat) (x : A) :
  NoDup (key <$> xs) → xs !! j = Some x →
  fold_left (λ d y, <[key y := val y]> d) xs disk !! key x = Some (val x).
Proof.
  revert disk j; induction xs as [|y xs IH]; intros disk j Hnd Hx; [done|].
  cbn [fmap list_fmap] in Hnd. apply NoDup_cons in Hnd as [Hy Hnd].
  cbn [fold_left]. destruct j as [|j].
  - injection Hx as ->. rewrite fold_insert_other; [apply lookup_insert_eq|].
    intros z Hz Heq. apply Hy. rewrite <- Heq.
    apply list_elem_of_fmap. by exists z.
  - by apply (IH _ j).
Qed.

Section NgramFiles.
Context {F : Type}.
Variable f_sub : F → F → F.
Variable f_exp : F → F.
Variable f_lt : F → F → bool.
Variable f_one : F.
Variable fmt_f : F → string.
Variable log_sum : list F → F.
Variable GO_ID EOS_ID : Z.
Variable format_int : string → Z → outcome string.

#[local] Abbreviation write_ngrams' :=
  (Output.NgramOutputHandler.write_ngrams f_sub f_exp f_lt f_one fmt_f
     log_sum GO_ID EOS_ID).

Lemma write_ngrams_returns (self : Output.NgramOutputHandler.t)
    (hypos : list (Output.FullHypothesis F)) (c : string) :
  (write_ngrams' self hypos c).1 = Returns tt.
Proof.
  pose proof (posteriors_closed f_sub f_exp f_lt f_one log_sum GO_ID EOS_ID
                self hypos) as Hclosed.
  cbv zeta in Hclosed. unfold Output.NgramOutputHandler.posteriors in Hclosed.
  unfold Output.NgramOutputHandler.write_ngrams. cbv zeta.
  revert Hclosed c.
  generalize (Output.NgramOutputHandler.normed f_sub log_sum hypos) as scores.
  generalize (Output.NgramOutputHandler.collect GO_ID EOS_ID self hypos)
    as d.
  induction d as [|[k ixs] d IH]; intros scores Hclosed c; [done|].
  cbn [Output.comprehension Output.for_each fst snd map] in *.
  destruct (Output.NgramOutputHandler.posterior _ _ _ _ scores ixs)
    as [p| |] eqn:Hp; cbn [mbind Output.outcome_bind] in Hclosed;
    try discriminate Hclosed.
  destruct (Output.comprehension _ d) as [rest| |] eqn:Hrest;
    cbn [mbind Output.outcome_bind mret Output.outcome_ret] in Hclosed;
    try discriminate Hclosed.
  injection Hclosed as _ Hclosed.
  unfold mbind at 1, M_bind at 1, bind at 1.
  unfold mbind at 1, M_bind at 1, bind at 1, lift at 1.
  unfold Output.write at 1, modify at 1.
  apply (IH scores). by rewrite Hrest, Hclosed.
Qed.

(** X20.  The n-gram handler writes one file per input and names it by
    the sentence index plus one.  When formatting [self.file_pattern]
    with an integer [n] gives [path/n.txt], as it does for a path without
    a percent sign, and the indices are pairwise different and aligned
    with the n-best lists, none of them empty, the file [path/(idx+1).txt]
    holds the lines of the n-best list that came with index [idx], and the
    loops of the handler raise nothing. *)
Theorem ngram_files_one_based (self : Output.NgramOutputHandler.t)
    (all_hypos : list (list (Output.FullHypothesis F)))
    (sen_indices : list Z) (disk : gmap string string) (j : nat) (idx : Z)
    (hypos : list (Output.FullHypothesis F)) :
  (∀ n, format_int (Output.NgramOutputHandler.file_pattern self) n
        = Returns (Output.NgramOutputHandler.path self +:+ "/"
                   +:+ str_int n +:+ ".txt")) →
  length sen_indices = length all_hypos →
  NoDup sen_indices →
  Forall (λ hypos, hypos ≠ []) all_hypos →
  sen_indices !! j = Some idx →
  all_hypos !! j = Some hypos →
  let r := Output.NgramOutputHandler.write_hypos f_sub f_exp f_lt f_one fmt_f
             log_sum GO_ID EOS_ID format_int self all_hypos sen_indices
             disk in
  r.1 = Returns tt
  ∧ r.2 !! (Output.NgramOutputHandler.path self +:+ "/"
            +:+ str_int (idx + 1) +:+ ".txt")
    = Some (write_ngrams' self hypos "").2.
Proof.
  intros Hfmt Hlen Hnd _ Hidx Hhypos. cbv zeta.
  unfold Output.NgramOutputHandler.write_hypos.
  rewrite (for_each_fold _ _
    (λ (d : gmap string string) (ih : Z * list (Output.FullHypothesis F)),
       <[Output.NgramOutputHandler.path self +:+ "/"
         +:+ str_int (ih.1 + 1) +:+ ".txt" :=
           (write_ngrams' self ih.2 "").2]> d)).
  2:{ intros [idx' hypos'] d _. cbn [fst snd]. cbv zeta. rewrite Hfmt.
      pose proof (write_ngrams_returns self hypos' "") as Hret.
      destruct (write_ngrams' self hypos' "") as [r c].
      cbn [fst snd] in *. by subst r. }
  split; [done|]. cbn [snd].
  apply (fold_insert_lookup
           (λ ih : Z * list (Output.FullHypothesis F),
              Output.NgramOutputHandler.path self +:+ "/"
              +:+ str_int (ih.1 + 1) +:+ ".txt")
           (λ ih, (write_ngrams' self ih.2 "").2)
           _ disk j (idx, hypos)).
  - assert (∀ l : list (Z * list (Output.FullHypothesis F)),
              (λ ih : Z * list (Output.FullHypothesis F),
                 Output.NgramOutputHandler.path self +:+ "/"
                 +:+ str_int (ih.1 + 1) +:+ ".txt") <$> l
              = (λ i, Output.NgramOutputHandler.path self +:+ "/"
                      +:+ str_int (i + 1) +:+ ".txt")
                  <$> l.*1) as Hkeys
      by (intros l; by rewrite <- list_fmap_compose).
    rewrite Hkeys, fst_zip by lia.
    apply NoDup_fmap_2_strong; [|done].
    intros a b _ _ Heq.
    apply (inj (String.append (Output.NgramOutputHandler.path self))) in Heq.
    apply (numbered_name_inj "/" ".txt") in Heq. lia.
  - by apply lookup_zip_Some.
Qed.

End NgramFiles.

Lemma ngram_files_one_based_witness :
  let self := Output.NgramOutputHandler.mk "ngrams" 1 2 in
  let r := Output.NgramOutputHandler.write_hypos Z.sub Toy.f_exp Z.ltb 1
             str_int Toy.log_sum 1 2 Toy.format_int self
             [[Toy.hypo_a]; [Toy.hypo_b; Toy.hypo_c]] [0; 7] ∅ in
  r.1 = Returns tt
  ∧ r.2 !! ("ngrams" +:+ "/" +:+ str_int (7 + 1) +:+ ".txt")
    = Some (Output.NgramOutputHandler.write_ngrams Z.sub Toy.f_exp Z.ltb 1
              str_int Toy.log_sum 1 2 self [Toy.hypo_b; Toy.hypo_c] "").2.
Proof.
  refine (ngram_files_one_based Z.sub Toy.f_exp Z.ltb 1 str_int Toy.log_sum
            1 2 Toy.format_int (Output.NgramOutputHandler.mk "ngrams" 1 2)
            [[Toy.hypo_a]; [Toy.hypo_b; Toy.hypo_c]] [0; 7] ∅ 1 7
            [Toy.hypo_b; Toy.hypo_c]
            _ eq_refl _ _ eq_refl eq_refl).
  - intros n. reflexivity.
  - apply NoDup_cons. split.
    + intros Hin. apply list_elem_of_singleton in Hin. discriminate Hin.
    + apply NoDup_singleton.
  - repeat constructor; discriminate.
Defined.

(** ** The CSV handler *)


Lemma for_each_app {Σ A} (xs ys : list A) (body : A → M Σ unit) (σ : Σ) :
  Output.for_each (xs ++ ys) body σ
  = (Output.for_each xs body;; Output.for_each ys body) σ.
Proof.
  revert σ; induction xs as [|x xs IH]; intros σ; [done|].
  cbn [app Output.for_each]. unfold mbind, M_bind, bind in *.
  destruct (body x σ) as [[| |] σ']; [apply IH|done..].
Qed.

(** A loop whose every turn appends a text of its own appends the texts of
    all turns. *)
Lemma for_each_appends {A} (xs : list A) (body : A → M string unit) :
  (∀ x, x ∈ xs → ∃ s, ∀ c, body x c = (Returns tt, c +:+ s)) →
  ∃ s, ∀ c, Output.for_each xs body c = (Returns tt, c +:+ s).
Proof.
  induction xs as [|x xs IH]; intros Hbody.
  - exists "". intros c. cbn. by rewrite str_app_nil_r.
  - destruct (Hbody x) as [s Hs]; [left|].
    destruct IH as [s' Hs']; [intros; apply Hbody; by right|].
    exists (s +:+ s'). intros c. cbn [Output.for_each].
    unfold mbind, M_bind, bind. by rewrite Hs, Hs', str_app_assoc.
Qed.

Lemma py_max_bounds (xs : list Z) (m : Z) :
  Output.TimeCSVOutputHandler.py_max xs = Returns m → ∀ x, x ∈ xs → x ≤ m.
Proof.
  destruct xs as [|x0 xs]; [discriminate|]. intros [= <-].
  assert (∀ l a, a ≤ fold_left Z.max l a
                 ∧ ∀ x, x ∈ l → x ≤ fold_left Z.max l a) as Hfold.
  { induction l as [|y l IH]; intros a.
    - split; [cbn; lia|]. intros x Hx. by apply elem_of_nil in Hx.
    - cbn [fold_left]. destruct (IH (a `max` y)) as [IH1 IH2]. split; [lia|].
      intros x Hx. apply elem_of_cons in Hx as [->|Hx]; [lia|by apply IH2]. }
  intros x Hx. destruct (Hfold xs x0) as [H0 Hrest].
  apply elem_of_cons in Hx as [->|Hx]; [done|by apply Hrest].
Qed.

Section CsvFacts.
Context `{Output.FloatOps F}.

#[local] Abbreviation csv := Output.TimeCSVOutputHandler.t.

Lemma csv_cells_append (self : csv) (pos : nat)
    (hypo : Output.FullHypothesis F) :
  Forall (λ s, length (Output.TimeCSVOutputHandler.predictor_names self)
               ≤ length s)%nat (Output.score_breakdown hypo) →
  ∃ s, ∀ c, Output.TimeCSVOutputHandler.write_cells self (Z.of_nat pos)
              hypo c = (Returns tt, c +:+ s).
Proof.
  intros Hwide. unfold Output.TimeCSVOutputHandler.write_cells. cbv zeta.
  destruct (Z.leb_spec (Z.of_nat (length (Output.score_breakdown hypo)))
              (Z.of_nat pos)) as [Hle|Hgt].
  { eexists. intros c. reflexivity. }
  destruct (lookup_lt_is_Some_2 (Output.score_breakdown hypo) pos)
    as [step Hstep]; [lia|].
  assert (length (Output.TimeCSVOutputHandler.predictor_names self)
          ≤ length step)%nat as Hstepwide.
  { rewrite Forall_forall in Hwide. apply Hwide.
    apply list_elem_of_lookup. eauto. }
  destruct (for_each_appends
              (range 0 (Z.of_nat (length (Output.TimeCSVOutputHandler.predictor_names self))))
              (λ pred_idx,
                 xs ← lift (Output.comprehension
                              (λ s, e ← index s pred_idx; mret e.1)
                              (slice_to (Z.of_nat pos + 1)
                                 (Output.score_breakdown hypo)));
                 Output.write (Output.FSTOutputHandler.tab
                               +:+ Output.fmt_f (Output.sum xs))))
    as [s1 Hs1].
  { intros i Hi. rewrite range_0 in Hi.
    apply list_elem_of_fmap in Hi as (i' & -> & Hi'%elem_of_seq).
    assert (∃ xs, Output.comprehension
                    (λ s, e ← index s (Z.of_nat i'); mret e.1)
                    (slice_to (Z.of_nat pos + 1)
                       (Output.score_breakdown hypo)) = Returns xs)
      as [xs Hxs].
    { eexists. apply primary_components.
      unfold slice_to; cbv zeta. apply Forall_take.
      eapply Forall_impl; [exact Hwide|]. intros s Hs. simpl in *. lia. }
    eexists. intros c. cbn beta. rewrite Hxs. reflexivity. }
  destruct (for_each_appends
              (range 0 (Z.of_nat (length (Output.TimeCSVOutputHandler.predictor_names self))))
              (λ pred_idx,
                 step ← lift (index (Output.score_breakdown hypo)
                                    (Z.of_nat pos));
                 e ← lift (index step pred_idx);
                 Output.write (Output.FSTOutputHandler.tab
                               +:+ Output.fmt_f e.2)))
    as [s2 Hs2].
  { intros i Hi. rewrite range_0 in Hi.
    apply list_elem_of_fmap in Hi as (i' & -> & Hi'%elem_of_seq).
    destruct (lookup_lt_is_Some_2 step i') as [e He]; [lia|].
    eexists. intros c. cbn beta. rewrite (index_in_range _ _ _ Hstep).
    unfold mbind at 1, M_bind at 1, bind at 1, lift at 1.
    rewrite (index_in_range _ _ _ He). reflexivity. }
  exists (s1 +:+ s2). intros c. unfold mbind at 1, M_bind at 1, bind at 1.
  by rewrite Hs1, Hs2, str_app_assoc.
Qed.

Lemma csv_row_append (self : csv) (hypos : list (Output.FullHypothesis F))
    (pos : nat) :
  Forall (λ hypo,
            Forall (λ s, length (Output.TimeCSVOutputHandler.predictor_names
                                   self) ≤ length s)%nat
                   (Output.score_breakdown hypo)) hypos →
  ∃ s, ∀ c,
    (Output.write (str_int (Z.of_nat pos));;
     Output.for_each hypos
       (Output.TimeCSVOutputHandler.write_cells self (Z.of_nat pos));;
     Output.write nl) c
    = (Returns tt, c +:+ s).
Proof.
  intros Hwide.
  destruct (for_each_appends hypos
              (Output.TimeCSVOutputHandler.write_cells self (Z.of_nat pos)))
    as [s Hs].
  { intros hypo Hhypo. apply csv_cells_append.
    rewrite Forall_forall in Hwide. by apply Hwide. }
  exists (str_int (Z.of_nat pos) +:+ s +:+ nl). intros c.
  unfold mbind, M_bind, bind, Output.write, modify. rewrite Hs.
  by rewrite !str_app_assoc.
Qed.

Lemma csv_placeholders (self : csv) (hypos : list (Output.FullHypothesis F))
    (pos : Z) (c : string) :
  Forall (λ hypo, Z.of_nat (length (Output.score_breakdown hypo)) ≤ pos)
         hypos →
  Output.for_each hypos (Output.TimeCSVOutputHandler.write_cells self pos) c
  = (Returns tt,
     c +:+ Output.TimeCSVOutputHandler.repeat_str
             (Output.TimeCSVOutputHandler.placeholder self) (length hypos)).
Proof.
  intros Hshort; revert c. induction Hshort as [|hypo hypos Hh _ IH];
    intros c.
  - cbn. by rewrite str_app_nil_r.
  - cbn [Output.for_each length Output.TimeCSVOutputHandler.repeat_str].
    unfold mbind, M_bind, bind.
    unfold Output.TimeCSVOutputHandler.write_cells at 1. cbv zeta.
    destruct (Z.leb_spec (Z.of_nat (length (Output.score_breakdown hypo)))
                pos); [|lia].
    unfold Output.write at 1, modify at 1. rewrite IH.
    by rewrite str_app_assoc.
Qed.

Lemma csv_header_returns (self : csv) (hypo_count : Z) :
  ∃ s, ∀ c, Output.TimeCSVOutputHandler.write_header self hypo_count c
            = (Returns tt, c +:+ s).
Proof.
  unfold Output.TimeCSVOutputHandler.write_header.
  destruct (for_each_appends
              (range 0 hypo_count)
              (λ i,
                 Output.write
                   (join "" (map (λ n, Output.FSTOutputHandler.tab +:+ n
                                       +:+ "-" +:+ str_int (i + 1))
                               (Output.TimeCSVOutputHandler.predictor_names
                                  self)));;
                 Output.write
                   (join "" (map (λ n, Output.FSTOutputHandler.tab +:+ n
                                       +:+ "-" +:+ str_int (i + 1)
                                       +:+ "_weight")
                               (Output.TimeCSVOutputHandler.predictor_names
                                  self)))))
    as [s Hs].
  { intros i _. eexists. intros c.
    unfold mbind, M_bind, bind, Output.write, modify.
    by rewrite str_app_assoc. }
  exists ("Time" +:+ s +:+ nl). intros c.
  unfold mbind, M_bind, bind, Output.write at 1, modify at 1.
  rewrite Hs. unfold Output.write, modify. by rewrite !str_app_assoc.
Qed.

(** The file of a non-empty n-best list whose steps hold an entry for
    each predictor name is written without an exception. *)
Lemma csv_file_returns (self : csv) (hypos : list (Output.FullHypothesis F)) :
  hypos ≠ [] →
  Forall (λ hypo,
            Forall (λ s, length (Output.TimeCSVOutputHandler.predictor_names
                                   self) ≤ length s)%nat
                   (Output.score_breakdown hypo)) hypos →
  (Output.TimeCSVOutputHandler.write_file self hypos "").1 = Returns tt.
Proof.
  intros Hne Hwide. unfold Output.TimeCSVOutputHandler.write_file.
  destruct (csv_header_returns self (Z.of_nat (length hypos))) as [h Hh].
  unfold mbind at 1, M_bind at 1, bind at 1. rewrite Hh.
  unfold mbind at 1, M_bind at 1, bind at 1, lift at 1.
  destruct hypos as [|hypo hypos]; [done|].
  cbn [map Output.TimeCSVOutputHandler.py_max].
  set (max_len := fold_left Z.max _ _).
  destruct (for_each_appends (range 0 (max_len + 1))
              (λ pos,
                 Output.write (str_int pos);;
                 Output.for_each (hypo :: hypos)
                   (Output.TimeCSVOutputHandler.write_cells self pos);;
                 Output.write nl)) as [rows Hrows].
  { intros pos Hpos. unfold range in Hpos.
    apply list_elem_of_fmap in Hpos as (q & -> & _).
    rewrite Z.add_0_l. by apply csv_row_append. }
  by rewrite Hrows.
Qed.

Variable format_int : string → Z → outcome string.

(** X21.  An empty n-best list stops the CSV handler with [ValueError],
    raised by [max] of an empty list, when the file names can be formatted
    and the lists before it are non-empty with steps that hold an entry
    for each predictor name.  The file of that input has been created and
    holds the word [Time] and a newline; the other files are those that
    the call on the lists before it leaves, so no later input is looked
    at. *)
Theorem csv_empty_list_raises (self : csv) (name : Z → string)
    (before after : list (list (Output.FullHypothesis F)))
    (idxs idxs' : list Z) (sen_idx : Z) (disk : gmap string string) :
  (∀ n, format_int (Output.TimeCSVOutputHandler.file_pattern self) n
        = Returns (name n)) →
  length idxs = length before →
  Forall (λ hypos,
            hypos ≠ []
            ∧ Forall (λ hypo,
                        Forall (λ s,
                                  length (Output.TimeCSVOutputHandler.predictor_names
                                            self) ≤ length s)%nat
                               (Output.score_breakdown hypo)) hypos)
         before →
  Output.TimeCSVOutputHandler.write_hypos format_int self
    (before ++ [] :: after) (idxs ++ sen_idx :: idxs') disk
  = (Raises (Exception "ValueError"),
     <[name (sen_idx + 1) := "Time" +:+ nl]>
       (Output.TimeCSVOutputHandler.write_hypos format_int self before idxs
          disk).2).
Proof.
  intros Hfmt Hlen Hgood. unfold Output.TimeCSVOutputHandler.write_hypos.
  rewrite zip_with_app by done. cbn [zip_with].
  set (step := λ (disk : gmap string string)
                 (p : Z * list (Output.FullHypothesis F)),
         <[name (p.1 + 1)
           := (Output.TimeCSVOutputHandler.write_file self p.2 "").2]> disk).
  assert (∀ p σ, p ∈ zip idxs before →
            match format_int (Output.TimeCSVOutputHandler.file_pattern self)
                    (p.1 + 1) with
            | Returns name =>
                let '(r, content) :=
                  Output.TimeCSVOutputHandler.write_file self p.2 "" in
                (r, <[name := content]> σ)
            | Raises e => (Raises e, σ)
            | OutOfFuel => (OutOfFuel, σ)
            end = (Returns tt, step σ p)) as Hturn.
  { intros [idx hypos] σ Hin. apply elem_of_zip_r in Hin.
    rewrite Forall_forall in Hgood. destruct (Hgood hypos Hin) as [Hne Hwide].
    pose proof (csv_file_returns self hypos Hne Hwide) as Hret.
    cbn [fst snd]. rewrite Hfmt. subst step. cbn [fst snd].
    destruct (Output.TimeCSVOutputHandler.write_file self hypos "")
      as [r content].
    cbn [fst] in Hret. by subst r. }
  rewrite (for_each_fold (zip idxs before) _ step).
  2:{ intros [idx hypos] σ Hin. exact (Hturn (idx, hypos) σ Hin). }
  cbn [snd].
  apply (for_each_raises _ _ _ _ step _
           (λ disk, <[name (sen_idx + 1) := "Time" +:+ nl]> disk)).
  - intros [idx hypos] σ Hin. exact (Hturn (idx, hypos) σ Hin).
  - intros σ. cbv zeta. rewrite Hfmt. reflexivity.
Qed.

(** X22.  When no breakdown is longer than its sentence and every step
    holds an entry for each predictor name, the CSV handler raises nothing
    for a non-empty n-best list, and the last row of the file, the one of
    position [max_len], holds nothing but placeholders: the loop over the
    positions runs one position past the longest sentence. *)
Theorem csv_last_row_placeholders (self : csv)
    (hypos : list (Output.FullHypothesis F)) (max_len : Z) :
  Output.TimeCSVOutputHandler.py_max
    (map (λ hypo, Z.of_nat (length (Output.trgt_sentence hypo))) hypos)
  = Returns max_len →
  Forall (λ hypo, (length (Output.score_breakdown hypo)
                   ≤ length (Output.trgt_sentence hypo))%nat) hypos →
  Forall (λ hypo,
            Forall (λ s, length (Output.TimeCSVOutputHandler.predictor_names
                                   self) ≤ length s)%nat
                   (Output.score_breakdown hypo)) hypos →
  ∃ rows,
    Output.TimeCSVOutputHandler.write_file self hypos ""
    = (Returns tt,
       rows +:+ str_int max_len
       +:+ Output.TimeCSVOutputHandler.repeat_str
             (Output.TimeCSVOutputHandler.placeholder self) (length hypos)
       +:+ nl).
Proof.
  intros Hmax Hshort Hwide.
  assert (0 ≤ max_len) as Hnonneg.
  { destruct hypos as [|h hypos]; [discriminate Hmax|].
    pose proof (py_max_bounds _ _ Hmax
                  (Z.of_nat (length (Output.trgt_sentence h)))) as Hb.
    cbn [map] in Hb. specialize (Hb ltac:(left)). lia. }
  assert (Forall (λ hypo, Z.of_nat (length (Output.score_breakdown hypo))
                          ≤ max_len) hypos) as Hlast.
  { apply Forall_forall. intros hypo Hhypo.
    rewrite Forall_forall in Hshort. specialize (Hshort hypo Hhypo).
    pose proof (py_max_bounds _ _ Hmax
                  (Z.of_nat (length (Output.trgt_sentence hypo)))) as Hb.
    specialize (Hb ltac:(apply list_elem_of_fmap; by exists hypo)). lia. }
  unfold Output.TimeCSVOutputHandler.write_file.
  unfold mbind at 1, M_bind at 1, bind at 1.
  destruct (Output.TimeCSVOutputHandler.write_header self _ "")
    as [r header] eqn:Hheader.
  assert (r = Returns tt) as ->.
  { unfold Output.TimeCSVOutputHandler.write_header in Hheader.
    destruct (for_each_appends
                (range 0 (Z.of_nat (length hypos)))
                (λ i,
                   Output.write
                     (join "" (map (λ n, Output.FSTOutputHandler.tab +:+ n
                                         +:+ "-" +:+ str_int (i + 1))
                                 (Output.TimeCSVOutputHandler.predictor_names
                                    self)));;
                   Output.write
                     (join "" (map (λ n, Output.FSTOutputHandler.tab +:+ n
                                         +:+ "-" +:+ str_int (i + 1)
                                         +:+ "_weight")
                                 (Output.TimeCSVOutputHandler.predictor_names
                                    self)))))
      as [s Hs].
    { intros i _. eexists. intros c.
      unfold mbind, M_bind, bind, Output.write, modify.
      by rewrite str_app_assoc. }
    unfold mbind, M_bind, bind, Output.write at 1, modify at 1 in Hheader.
    rewrite Hs in Hheader. unfold Output.write, modify in Hheader.
    by injection Hheader as <- _. }
  unfold mbind at 1, M_bind at 1, bind at 1, lift at 1. rewrite Hmax.
  replace (range 0 (max_len + 1))
    with (map Z.of_nat (seq 0 (Z.to_nat max_len)) ++ [max_len]).
  2:{ replace (max_len + 1) with (Z.of_nat (S (Z.to_nat max_len))) by lia.
      rewrite range_0, seq_S, map_app. cbn [map Nat.add]. do 2 f_equal. lia. }
  rewrite for_each_app. unfold mbind at 1, M_bind at 1, bind at 1.
  destruct (for_each_appends (map Z.of_nat (seq 0 (Z.to_nat max_len)))
              (λ pos,
                 Output.write (str_int pos);;
                 Output.for_each hypos
                   (Output.TimeCSVOutputHandler.write_cells self pos);;
                 Output.write nl)) as [rows Hrows].
  { intros pos Hpos. apply list_elem_of_fmap in Hpos as (p & -> & _).
    by apply csv_row_append. }
  rewrite Hrows. exists (header +:+ rows).
  cbn [Output.for_each]. unfold mbind, M_bind, bind, Output.write, modify.
  rewrite csv_placeholders by done.
  by rewrite !str_app_assoc.
Qed.

End CsvFacts.

Lemma csv_last_row_placeholders_witness :
  ∃ rows,
    Output.TimeCSVOutputHandler.write_file
      (Output.TimeCSVOutputHandler.init "csv" ["nmt"; "fst"])
      [Toy.hypo_a; Toy.hypo_b] ""
    = (Returns tt,
       rows +:+ str_int 3
       +:+ Output.TimeCSVOutputHandler.repeat_str
             (Output.TimeCSVOutputHandler.placeholder
                (Output.TimeCSVOutputHandler.init "csv" ["nmt"; "fst"]))
             (length [Toy.hypo_a; Toy.hypo_b])
       +:+ nl).
Proof.
  refine (csv_last_row_placeholders
            (Output.TimeCSVOutputHandler.init "csv" ["nmt"; "fst"])
            [Toy.hypo_a; Toy.hypo_b] 3 eq_refl _ _).
  - repeat constructor.
  - repeat constructor.
Defined.

Example csv_file_ex :
  (Output.TimeCSVOutputHandler.write_file
     (Output.TimeCSVOutputHandler.init "csv" ["nmt"; "nmt"])
     [Toy.hypo_b] "").2
  = "Time" +:+ Output.FSTOutputHandler.tab +:+ "nmt-1"
    +:+ Output.FSTOutputHandler.tab +:+ "nmt2-1"
    +:+ Output.FSTOutputHandler.tab +:+ "nmt-1_weight"
    +:+ Output.FSTOutputHandler.tab +:+ "nmt2-1_weight" +:+ nl
    +:+ "0" +:+ Output.FSTOutputHandler.tab +:+ "-1.000000"
    +:+ Output.FSTOutputHandler.tab +:+ "-2.000000"
    +:+ Output.FSTOutputHandler.tab +:+ "1.000000"
    +:+ Output.FSTOutputHandler.tab +:+ "1.000000" +:+ nl
    +:+ "1" +:+ Output.FSTOutputHandler.tab +:+ "-4.000000"
    +:+ Output.FSTOutputHandler.tab +:+ "-3.000000"
    +:+ Output.FSTOutputHandler.tab +:+ "1.000000"
    +:+ Output.FSTOutputHandler.tab +:+ "1.000000" +:+ nl
    +:+ "2" +:+ Output.FSTOutputHandler.tab +:+ "-"
    +:+ Output.FSTOutputHandler.tab +:+ "-"
    +:+ Output.FSTOutputHandler.tab +:+ "-"
    +:+ Output.FSTOutputHandler.tab +:+ "-" +:+ nl.
Proof. vm_compute. reflexivity. Qed.

(** ** The lattice handlers *)

(** A loop that writes one line per turn and takes one fresh state per
    turn. *)
Lemma labels_loop {A} (xs : list A)
    (body : A → M Output.FSTOutputHandler.Compiler unit)
    (line : Z → A → string) :
  (∀ x c, x ∈ xs → body x c = (Returns tt, (c.1 +:+ line c.2 x, c.2 + 1))) →
  ∀ c, Output.for_each xs body c
       = (Returns tt,
          (c.1 +:+ Described.concat_str
                     (imap (λ i x, line (c.2 + Z.of_nat i) x) xs),
           c.2 + Z.of_nat (length xs))).
Proof.
  induction xs as [|x xs IH]; intros Hbody c.
  - cbn. rewrite str_app_nil_r, Z.add_0_r. by destruct c.
  - rewrite imap_cons.
    cbn [length Output.for_each Described.concat_str foldr].
    unfold mbind, M_bind, bind. rewrite Hbody by left.
    rewrite IH by (intros; apply Hbody; by right).
    cbn [fst snd]. rewrite str_app_assoc, Z.add_0_r.
    f_equal. f_equal; [|lia]. do 2 f_equal.
    unfold Described.concat_str. f_equal.
    apply imap_ext. intros i y _. cbn. f_equal. lia.
Qed.

Lemma paths_loop {A} (path : Z → A → string) (states : A → nat)
    (body : A → M Output.FSTOutputHandler.Compiler unit) (hypos : list A) :
  (∀ h c, h ∈ hypos →
     body h c = (Returns tt, (c.1 +:+ path c.2 h, c.2 + Z.of_nat (states h)))) →
  ∀ c, ∃ n, Output.for_each hypos body c
            = (Returns tt, (c.1 +:+ Lattice.paths path states c.2 hypos, n)).
Proof.
  induction hypos as [|h hypos IH]; intros Hbody c.
  - exists c.2. cbn. rewrite str_app_nil_r. by destruct c.
  - destruct (IH (λ h' c' Hin, Hbody h' c' (list_elem_of_further _ _ _ Hin))
                (c.1 +:+ path c.2 h, c.2 + Z.of_nat (states h))) as [n Hn].
    exists n. cbn [Output.for_each Lattice.paths].
    unfold mbind, M_bind, bind. rewrite Hbody by left.
    rewrite Hn. cbn [fst snd]. by rewrite str_app_assoc.
Qed.

(** A loop each of whose turns records one call records them in order. *)
Lemma files_loop {A} (xs : list A) (body : A → M (list (string * string)) unit)
    (g : A → string * string) :
  (∀ x calls, x ∈ xs → body x calls = (Returns tt, calls ++ [g x])) →
  ∀ calls, Output.for_each xs body calls = (Returns tt, calls ++ map g xs).
Proof.
  induction xs as [|x xs IH]; intros Hbody calls.
  - cbn. by rewrite app_nil_r.
  - cbn [Output.for_each map]. unfold mbind, M_bind, bind.
    rewrite Hbody by left. rewrite IH by (intros; apply Hbody; by right).
    by rewrite <- app_assoc.
Qed.

Section LatticeFacts.
Context `{Output.FloatOps F}.
Variable GO_ID EOS_ID : Z.
Variable format_int : string → Z → outcome string.

#[local] Abbreviation standard_write_hypos :=
  (Output.StandardFSTOutputHandler.write_hypos GO_ID EOS_ID format_int).
#[local] Abbreviation sparse_write_hypos :=
  (Output.FSTOutputHandler.write_hypos GO_ID EOS_ID format_int).

Lemma standard_write_path (hypo : Output.FullHypothesis F)
    (c : Output.FSTOutputHandler.Compiler) :
  Output.StandardFSTOutputHandler.write_path GO_ID EOS_ID hypo c
  = (Returns tt,
     (c.1 +:+ Lattice.standard_path GO_ID EOS_ID c.2 hypo,
      c.2 + Z.of_nat (S (length (Output.trgt_sentence hypo))))).
Proof.
  unfold Output.StandardFSTOutputHandler.write_path.
  unfold mbind at 1, M_bind at 1, bind at 1.
  unfold Output.FSTOutputHandler.c_write at 1, modify at 1.
  unfold mbind at 1, M_bind at 1, bind at 1.
  unfold Output.FSTOutputHandler.next_free_id_incr at 1, modify at 1.
  unfold mbind at 1, M_bind at 1, bind at 1.
  rewrite (labels_loop _ _
             (λ nf sym, Output.FSTOutputHandler.arc_line (nf - 1) nf sym sym
                          None)) by done.
  unfold Output.FSTOutputHandler.c_write, modify. cbn [fst snd].
  unfold Lattice.standard_path, Lattice.chain.
  rewrite !str_app_assoc. f_equal. f_equal; [|lia]. do 2 f_equal.
  f_equal; [|f_equal; lia].
  f_equal. apply imap_ext. intros i sym _. cbn. f_equal; lia.
Qed.

Lemma standard_compiler_text (hypos : list (Output.FullHypothesis F)) :
  ∃ n, Output.StandardFSTOutputHandler.compiler_text GO_ID EOS_ID hypos ("", 2)
       = (Returns tt, (Lattice.standard_text GO_ID EOS_ID hypos, n)).
Proof.
  unfold Output.StandardFSTOutputHandler.compiler_text.
  destruct (paths_loop (Lattice.standard_path GO_ID EOS_ID)
              (λ hypo, S (length (Output.trgt_sentence hypo)))
              (Output.StandardFSTOutputHandler.write_path GO_ID EOS_ID) hypos
              (λ h c _, standard_write_path h c) ("", 2)) as [n Hn].
  exists n. unfold mbind, M_bind, bind. rewrite Hn.
  unfold Output.FSTOutputHandler.c_write, modify. cbn [fst snd].
  unfold Lattice.standard_text. by rewrite str_app_assoc.
Qed.


(** X23.  When the file names can be formatted, the standard lattice
    handler raises nothing.  It hands one text to the compiler per pair of
    a sentence index and an n-best list, surplus indices or lists being
    dropped, for the file named by formatting [self.file_pattern] with the
    index plus one.  A hypothesis becomes a chain of its own from state 0
    to state 1 through as many fresh states as the sentence has symbols,
    plus one; only the first arc carries a weight, the negated total
    score.  [unk_id] plays no part. *)
Theorem standard_fst_files (self : Output.StandardFSTOutputHandler.t)
    (name : Z → string)
    (all_hypos : list (list (Output.FullHypothesis F)))
    (sen_indices : list Z) (calls : list (string * string)) :
  (∀ n, format_int (Output.StandardFSTOutputHandler.file_pattern self) n
        = Returns (name n)) →
  standard_write_hypos self all_hypos sen_indices calls
  = (Returns tt,
     calls ++ Lattice.files name (Lattice.standard_text GO_ID EOS_ID)
                all_hypos sen_indices).
Proof.
  intros Hfmt.
  unfold Output.StandardFSTOutputHandler.write_hypos, Lattice.files.
  apply files_loop. intros [idx hypos] calls' _.
  destruct (standard_compiler_text hypos) as [n Hn]. cbv zeta.
  rewrite Hn, Hfmt. reflexivity.
Qed.

(** The loop over the positions [a .. a+k-1] of a list of labels. *)
Lemma positions_loop (labels : list Z) (a : nat)
    (body : Z → M Output.FSTOutputHandler.Compiler unit)
    (line : Z → nat → Z → string) :
  (∀ i sym c, labels !! i = Some sym →
     body (Z.of_nat (a + i)) c
     = (Returns tt, (c.1 +:+ line c.2 (a + i)%nat sym, c.2 + 1))) →
  ∀ c, Output.for_each (map Z.of_nat (seq a (length labels))) body c
       = (Returns tt,
          (c.1 +:+ Described.concat_str
                     (imap (λ i sym, line (c.2 + Z.of_nat i) (a + i)%nat sym)
                           labels),
           c.2 + Z.of_nat (length labels))).
Proof.
  revert a; induction labels as [|sym labels IH]; intros a Hbody c.
  - cbn. rewrite str_app_nil_r, Z.add_0_r. by destruct c.
  - rewrite imap_cons.
    cbn [length seq map Output.for_each Described.concat_str foldr].
    unfold mbind, M_bind, bind.
    rewrite <- (Nat.add_0_r a) at 1. rewrite (Hbody 0%nat sym) by done.
    rewrite (IH (S a)).
    2:{ intros i s c' Hi. replace (S a + i)%nat with (a + S i)%nat by lia.
        by apply Hbody. }
    cbn [fst snd]. rewrite str_app_assoc, Z.add_0_r.
    f_equal. f_equal; [|lia]. do 2 f_equal.
    unfold Described.concat_str. f_equal.
    apply imap_ext. intros i y _. cbn. f_equal; lia.
Qed.

Lemma sparse_write_path (hypo : Output.FullHypothesis F)
    (c : Output.FSTOutputHandler.Compiler) :
  Lattice.writable hypo →
  Output.FSTOutputHandler.write_path GO_ID EOS_ID hypo c
  = (Returns tt,
     (c.1 +:+ Lattice.sparse_path GO_ID EOS_ID c.2 hypo,
      c.2 + Z.of_nat (length (Output.score_breakdown hypo)))).
Proof.
  intros [Hne Hlen].
  assert (0 < length (Output.score_breakdown hypo))%nat as Hpos.
  { destruct (Output.score_breakdown hypo); [done|cbn; lia]. }
  unfold Output.FSTOutputHandler.write_path, Lattice.sparse_path. cbv zeta.
  set (n := (length (Output.score_breakdown hypo) - 1)%nat).
  replace (Z.of_nat (length (Output.score_breakdown hypo)) - 1)
    with (Z.of_nat n) by lia.
  rewrite range_0.
  assert (length (take n (Output.trgt_sentence hypo)) = n) as Hn
    by (rewrite length_take; lia).
  unfold mbind at 1, M_bind at 1, bind at 1.
  unfold Output.FSTOutputHandler.c_write at 1, modify at 1.
  unfold mbind at 1, M_bind at 1, bind at 1.
  unfold Output.FSTOutputHandler.next_free_id_incr at 1, modify at 1.
  unfold mbind at 1, M_bind at 1, bind at 1.
  replace (seq 0 n) with (seq 0 (length (take n (Output.trgt_sentence hypo))))
    by (by rewrite Hn).
  rewrite (positions_loop _ 0 _
             (λ nf i sym,
                Output.FSTOutputHandler.arc_line (nf - 1) nf sym sym
                  (Output.FSTOutputHandler.write_weight
                     <$> Output.score_breakdown hypo !! i))).
  2:{ intros i sym c' Hi. apply lookup_take_Some in Hi as [Hi Hlt].
      destruct (lookup_lt_is_Some_2 (Output.score_breakdown hypo) i)
        as [step Hstep]; [lia|].
      cbn [Nat.add].
      unfold mbind at 1, M_bind at 1, bind at 1, lift at 1.
      rewrite (index_in_range _ _ _ Hi).
      unfold mbind at 1, M_bind at 1, bind at 1, lift at 1.
      rewrite (index_in_range _ _ _ Hstep). rewrite Hstep.
      reflexivity. }
  destruct (index_last_elem _ Hne) as (x & Hlast & Hx).
  unfold mbind, M_bind, bind, lift. rewrite Hx, Hlast.
  unfold Output.FSTOutputHandler.c_write, modify. cbn [fst snd fmap option_fmap option_map].
  unfold Lattice.chain.
  rewrite !str_app_assoc, Hn. f_equal. f_equal; [|lia]. do 2 f_equal.
  f_equal; [|f_equal; lia].
  f_equal. apply imap_ext. intros i sym _. cbn. f_equal; lia.
Qed.

Lemma sparse_compiler_text (hypos : list (Output.FullHypothesis F)) :
  Forall Lattice.writable hypos →
  ∃ n, Output.FSTOutputHandler.compiler_text GO_ID EOS_ID hypos ("", 2)
       = (Returns tt, (Lattice.sparse_text GO_ID EOS_ID hypos, n)).
Proof.
  intros Hall. unfold Output.FSTOutputHandler.compiler_text.
  destruct (paths_loop (Lattice.sparse_path GO_ID EOS_ID)
              (λ hypo, length (Output.score_breakdown hypo))
              (Output.FSTOutputHandler.write_path GO_ID EOS_ID) hypos)
    with (c := (("", 2) : Output.FSTOutputHandler.Compiler)) as [n Hn].
  { intros h c Hin. apply sparse_write_path.
    by apply (proj1 (Forall_forall _ _) Hall). }
  exists n. unfold mbind, M_bind, bind. rewrite Hn.
  unfold Output.FSTOutputHandler.c_write, modify. cbn [fst snd].
  unfold Lattice.sparse_text. by rewrite str_app_assoc.
Qed.

(** X24.  When the file names can be formatted and every hypothesis has a
    breakdown with at least one step and at most one step more than its
    sentence has symbols, the sparse-tuple handler hands one text to the
    compiler per pair of a sentence index and an n-best list.  The path of
    a hypothesis has as many arcs after the unweighted first one as the
    breakdown has steps: the symbols come from the sentence, the last arc
    is always labelled EOS and weighted with the last step, and the
    symbols of the sentence from the position of the last step on are not
    written. *)
Theorem sparse_fst_files (self : Output.FSTOutputHandler.t)
    (name : Z → string)
    (all_hypos : list (list (Output.FullHypothesis F)))
    (sen_indices : list Z) (calls : list (string * string)) :
  (∀ n, format_int (Output.FSTOutputHandler.file_pattern self) n
        = Returns (name n)) →
  Forall (Forall Lattice.writable) all_hypos →
  sparse_write_hypos self all_hypos sen_indices calls
  = (Returns tt,
     calls ++ Lattice.files name (Lattice.sparse_text GO_ID EOS_ID)
                all_hypos sen_indices).
Proof.
  intros Hfmt Hall.
  unfold Output.FSTOutputHandler.write_hypos, Lattice.files.
  apply files_loop. intros [idx hypos] calls' Hin.
  apply elem_of_zip_r in Hin.
  destruct (sparse_compiler_text hypos) as [n Hn].
  { by apply (proj1 (Forall_forall _ _) Hall). }
  cbv zeta. rewrite Hn, Hfmt. reflexivity.
Qed.

(** The only exception that writing a path can raise is [IndexError]. *)
Lemma sparse_arc_outcome (hypo : Output.FullHypothesis F) (pos : Z)
    (c : Output.FSTOutputHandler.Compiler) :
  let body pos : M Output.FSTOutputHandler.Compiler unit :=
    sym ← lift (index (Output.trgt_sentence hypo) pos);
    step ← lift (index (Output.score_breakdown hypo) pos);
    Output.FSTOutputHandler.c_write (λ next_free_id,
      Output.FSTOutputHandler.arc_line (next_free_id - 1) next_free_id sym sym
        (Some (Output.FSTOutputHandler.write_weight step)));;
    Output.FSTOutputHandler.next_free_id_incr in
  (body pos c).1 = Returns tt ∨ (body pos c).1 = Raises IndexError.
Proof.
  cbv zeta. unfold mbind, M_bind, bind, lift.
  destruct (index_returns_or_raises (Output.trgt_sentence hypo) pos)
    as [[sym ->]| ->]; [|by right].
  destruct (index_returns_or_raises (Output.score_breakdown hypo) pos)
    as [[step ->]| ->]; [by left|by right].
Qed.

Lemma sparse_write_path_raises (hypo : Output.FullHypothesis F)
    (c : Output.FSTOutputHandler.Compiler) :
  Output.score_breakdown hypo = []
  ∨ (length (Output.trgt_sentence hypo) + 1
     < length (Output.score_breakdown hypo))%nat →
  (Output.FSTOutputHandler.write_path GO_ID EOS_ID hypo c).1
  = Raises IndexError.
Proof.
  intros [Hbd|Hlong]; unfold Output.FSTOutputHandler.write_path; cbv zeta.
  - rewrite Hbd.
    change (range 0 (Z.of_nat (length (@nil (list (F * F)))) - 1))
      with (@nil Z).
    reflexivity.
  - set (loop := Output.for_each _ _).
    assert (∀ σ, (loop σ).1 = Raises IndexError) as Hloop.
    { apply (for_each_must_raise _ _ _
               (Z.of_nat (length (Output.trgt_sentence hypo)))).
      - intros pos σ _. apply (sparse_arc_outcome hypo pos σ).
      - apply elem_of_range. lia.
      - intros σ. unfold mbind, M_bind, bind, lift.
        by rewrite index_out_of_range. }
    unfold mbind at 1, M_bind at 1, bind at 1.
    unfold Output.FSTOutputHandler.c_write at 1, modify at 1.
    unfold mbind at 1, M_bind at 1, bind at 1.
    unfold Output.FSTOutputHandler.next_free_id_incr at 1, modify at 1.
    unfold mbind at 1, M_bind at 1, bind at 1.
    match goal with |- context [loop ?σ] =>
      specialize (Hloop σ); destruct (loop σ) as [o σ'] end.
    cbn [fst] in Hloop. by subst o.
Qed.

Lemma sparse_write_path_outcome (hypo : Output.FullHypothesis F)
    (c : Output.FSTOutputHandler.Compiler) :
  (Output.FSTOutputHandler.write_path GO_ID EOS_ID hypo c).1 = Returns tt
  ∨ (Output.FSTOutputHandler.write_path GO_ID EOS_ID hypo c).1
    = Raises IndexError.
Proof.
  remember (Output.FSTOutputHandler.write_path GO_ID EOS_ID hypo c).1
    as r eqn:Hr.
  unfold Output.FSTOutputHandler.write_path in Hr; cbv zeta in Hr.
  set (loop := Output.for_each _ _) in Hr.
  assert (∀ σ, (loop σ).1 = Returns tt ∨ (loop σ).1 = Raises IndexError)
    as Hloop.
  { apply for_each_returns_or_raises.
    intros pos σ _. apply (sparse_arc_outcome hypo pos σ). }
  unfold mbind at 1, M_bind at 1, bind at 1 in Hr.
  unfold Output.FSTOutputHandler.c_write at 1, modify at 1 in Hr.
  unfold mbind at 1, M_bind at 1, bind at 1 in Hr.
  unfold Output.FSTOutputHandler.next_free_id_incr at 1, modify at 1 in Hr.
  unfold mbind at 1, M_bind at 1, bind at 1 in Hr.
  match type of Hr with context [loop ?σ] =>
    specialize (Hloop σ); destruct (loop σ) as [o σ'] end.
  cbn [fst] in Hloop. destruct Hloop as [->| ->]; [|by right].
  unfold mbind, M_bind, bind, lift in Hr.
  destruct (index_returns_or_raises (Output.score_breakdown hypo) (-1))
    as [[step Hs]|Hs]; rewrite Hs in Hr; [by left|by right].
Qed.

Lemma sparse_compiler_text_raises (hypos : list (Output.FullHypothesis F))
    (c : Output.FSTOutputHandler.Compiler) :
  Exists (λ hypo, Output.score_breakdown hypo = []
                  ∨ (length (Output.trgt_sentence hypo) + 1
                     < length (Output.score_breakdown hypo))%nat) hypos →
  (Output.FSTOutputHandler.compiler_text GO_ID EOS_ID hypos c).1
  = Raises IndexError.
Proof.
  intros Hex. apply Exists_exists in Hex as (hypo & Hin & Hbad).
  unfold Output.FSTOutputHandler.compiler_text.
  unfold mbind, M_bind, bind.
  pose proof (for_each_must_raise
                (Output.FSTOutputHandler.write_path GO_ID EOS_ID) IndexError
                hypos hypo
                (λ y σ _, sparse_write_path_outcome y σ) Hin
                (λ σ, sparse_write_path_raises hypo σ Hbad) c) as Hloop.
  destruct (Output.for_each hypos _ c) as [o σ'].
  cbn [fst] in Hloop. by subst o.
Qed.

(** X25.  A hypothesis whose breakdown is empty, or has more than one step
    more than the sentence has symbols, stops the sparse-tuple handler
    with [IndexError], the file names of the sentences before it being
    formatted: nothing is compiled for its sentence, whatever its other
    hypotheses are and whatever its file name would be, nor for the
    sentences after it; the sentences before it have been compiled. *)
Theorem sparse_fst_unwritable (self : Output.FSTOutputHandler.t)
    (name : Z → string)
    (before after : list (list (Output.FullHypothesis F)))
    (hypos : list (Output.FullHypothesis F))
    (idxs idxs' : list Z) (idx : Z) (calls : list (string * string)) :
  (∀ n, n - 1 ∈ idxs →
        format_int (Output.FSTOutputHandler.file_pattern self) n
        = Returns (name n)) →
  length idxs = length before →
  Forall (Forall Lattice.writable) before →
  Exists (λ hypo, Output.score_breakdown hypo = []
                  ∨ (length (Output.trgt_sentence hypo) + 1
                     < length (Output.score_breakdown hypo))%nat) hypos →
  sparse_write_hypos self (before ++ hypos :: after) (idxs ++ idx :: idxs')
    calls
  = (Raises IndexError,
     calls ++ Lattice.files name (Lattice.sparse_text GO_ID EOS_ID) before
                idxs).
Proof.
  intros Hfmt Hlen Hall Hex.
  unfold Output.FSTOutputHandler.write_hypos.
  rewrite zip_with_app by done. rewrite for_each_app.
  unfold mbind at 1, M_bind at 1, bind at 1.
  rewrite (files_loop _ _
             (λ p : Z * list (Output.FullHypothesis F),
                (name (p.1 + 1), Lattice.sparse_text GO_ID EOS_ID p.2))).
  2:{ intros [i good] calls' Hin.
      pose proof (elem_of_zip_l _ _ _ _ Hin) as Hi.
      apply elem_of_zip_r in Hin.
      destruct (sparse_compiler_text good) as [n Hn].
      { by apply (proj1 (Forall_forall _ _) Hall). }
      cbv zeta. rewrite Hn, Hfmt; [reflexivity|].
      by replace (i + 1 - 1) with i by lia. }
  cbn [zip_with Output.for_each]. unfold mbind, M_bind, bind.
  pose proof (sparse_compiler_text_raises hypos ("", 2) Hex) as Hraise.
  destruct (Output.FSTOutputHandler.compiler_text _ _ hypos _) as [o c'].
  cbn [fst] in Hraise. by subst o.
Qed.

End LatticeFacts.

Lemma standard_fst_files_witness :
  Output.StandardFSTOutputHandler.write_hypos 1 2 Toy.format_int
    (Output.StandardFSTOutputHandler.mk "lat" 3) Toy.all_hypos [0; 1; 2] []
  = (Returns tt,
     [] ++ Lattice.files (λ n, "lat" +:+ "/" +:+ str_int n +:+ ".fst")
             (Lattice.standard_text 1 2) Toy.all_hypos [0; 1; 2]).
Proof.
  apply (standard_fst_files 1 2 Toy.format_int
           (Output.StandardFSTOutputHandler.mk "lat" 3)
           (λ n, "lat" +:+ "/" +:+ str_int n +:+ ".fst")
           Toy.all_hypos [0; 1; 2] []).
  intros n. reflexivity.
Defined.

Lemma sparse_fst_files_witness :
  Forall (Forall Lattice.writable) Toy.all_hypos
  ∧ Output.FSTOutputHandler.write_hypos 1 2 Toy.format_int
      (Output.FSTOutputHandler.mk "lat" 3) Toy.all_hypos [0; 1; 2] []
    = (Returns tt,
       [] ++ Lattice.files (λ n, "lat" +:+ "/" +:+ str_int n +:+ ".fst")
               (Lattice.sparse_text 1 2) Toy.all_hypos [0; 1; 2]).
Proof.
  assert (Forall (Forall Lattice.writable) Toy.all_hypos) as Hall.
  { repeat match goal with
           | |- Forall _ _ => constructor
           | |- Lattice.writable _ => split; [discriminate|cbn; lia]
           end. }
  split; [exact Hall|].
  apply (sparse_fst_files 1 2 Toy.format_int
           (Output.FSTOutputHandler.mk "lat" 3)
           (λ n, "lat" +:+ "/" +:+ str_int n +:+ ".fst")
           Toy.all_hypos [0; 1; 2] []); [|exact Hall].
  intros n. reflexivity.
Defined.

Lemma sparse_fst_unwritable_witness :
  Output.FSTOutputHandler.write_hypos 1 2 Toy.format_int
    (Output.FSTOutputHandler.mk "lat" 3)
    ([[Toy.hypo_a]]
     ++ [Toy.hypo_b; Output.mkHypothesis [5; 2] (-7) []] :: [[Toy.hypo_c]])
    ([0] ++ 1 :: [2]) []
  = (Raises IndexError,
     [] ++ Lattice.files (λ n, "lat" +:+ "/" +:+ str_int n +:+ ".fst")
             (Lattice.sparse_text 1 2) [[Toy.hypo_a]] [0]).
Proof.
  apply (sparse_fst_unwritable 1 2 Toy.format_int
           (Output.FSTOutputHandler.mk "lat" 3)
           (λ n, "lat" +:+ "/" +:+ str_int n +:+ ".fst")
           [[Toy.hypo_a]] [[Toy.hypo_c]]
           [Toy.hypo_b; Output.mkHypothesis [5; 2] (-7) []] [0] [2] 1 []).
  - intros n _. reflexivity.
  - reflexivity.
  - repeat match goal with
           | |- Forall _ _ => constructor
           | |- Lattice.writable _ => split; [discriminate|cbn; lia]
           end.
  - apply Exists_cons_tl, Exists_cons_hd. left. reflexivity.
Defined.

(** A breakdown of one step under a sentence of three symbols: the path is
    the start arc and the arc to the final state, and none of the symbols
    [5], [9] is written. *)
Example sparse_short_breakdown_ex :
  Output.FSTOutputHandler.write_hypos 1 2 Toy.format_int
    (Output.FSTOutputHandler.mk "lat" 3)
    [[Output.mkHypothesis [5; 9; 2] (-7) [[(-1, 1)]]]] [0] []
  = (Returns tt,
     [("lat/1.fst",
       Output.FSTOutputHandler.arc_line 0 2 1 1 None
       +:+ Output.FSTOutputHandler.arc_line 2 1 2 2 (Some "0,1,1")
       +:+ "1" +:+ nl)]).
Proof. vm_compute. reflexivity. Qed.

Lemma csv_empty_list_raises_witness :
  Output.TimeCSVOutputHandler.write_hypos Toy.format_int
    (Output.TimeCSVOutputHandler.init "csv" ["nmt"; "fst"])
    ([[Toy.hypo_b]] ++ [] :: [[Toy.hypo_c]]) ([0] ++ 1 :: [2]) ∅
  = (Raises (Exception "ValueError"),
     <["csv" +:+ "/" +:+ str_int (1 + 1) +:+ ".csv" := "Time" +:+ nl]>
       (Output.TimeCSVOutputHandler.write_hypos Toy.format_int
          (Output.TimeCSVOutputHandler.init "csv" ["nmt"; "fst"])
          [[Toy.hypo_b]] [0] ∅).2).
Proof.
  apply (csv_empty_list_raises Toy.format_int
           (Output.TimeCSVOutputHandler.init "csv" ["nmt"; "fst"])
           (λ n, "csv" +:+ "/" +:+ str_int n +:+ ".csv")
           [[Toy.hypo_b]] [[Toy.hypo_c]] [0] [2] 1 ∅).
  - intros n. reflexivity.
  - reflexivity.
  - repeat constructor. discriminate.
Defined.

(** A path that holds a percent sign is part of the format.  With the
    instance [Toy.format_int]: a conversion in the path takes the index,
    so that the conversion of the pattern finds no argument left; a
    character that starts no conversion is refused; a doubled percent sign
    comes out single.  In the first two cases nothing is handed to
    [write_fst], although the text has been compiled. *)
Example fst_path_with_conversion_ex :
  Output.StandardFSTOutputHandler.write_hypos 1 2 Toy.format_int
    (Output.StandardFSTOutputHandler.mk "out%d" 3) [[Toy.hypo_b]] [0] []
  = (Raises (Exception "TypeError"), []).
Proof. vm_compute. reflexivity. Qed.

Example fst_path_with_percent_ex :
  Output.StandardFSTOutputHandler.write_hypos 1 2 Toy.format_int
    (Output.StandardFSTOutputHandler.mk "50%_lat" 3) [[Toy.hypo_b]] [0] []
  = (Raises (Exception "ValueError"), []).
Proof. vm_compute. reflexivity. Qed.

Example fst_path_with_doubled_percent_ex :
  (Output.StandardFSTOutputHandler.write_hypos 1 2 Toy.format_int
     (Output.StandardFSTOutputHandler.mk "a%%b" 3) [[Toy.hypo_b]] [0]
     []).2.*1
  = ["a%b/1.fst"].
Proof. vm_compute. reflexivity. Qed.

(** The CSV handler formats the name before it opens the file: no file is
    created. *)
Example csv_path_with_percent_ex :
  Output.TimeCSVOutputHandler.write_hypos Toy.format_int
    (Output.TimeCSVOutputHandler.init "50%_lat" ["nmt"; "fst"])
    [[Toy.hypo_b]] [0] ∅
  = (Raises (Exception "ValueError"), ∅).
Proof. vm_compute. reflexivity. Qed.
